(** * Atlas: the crawl, pagination and label-extraction core

  A shallow embedding of [pdf_crawler.py] and [web_scraper.py].

  Python [str] values are modelled as [string]; one [ascii] stands for one
  code point below 256.  The library calls the two files make
  ([str.lower], [str.strip], [re.match], the BeautifulSoup queries,
  [requests.get], the renderer's page load) are modelled next to the code
  that uses them.  [urljoin] and [urlparse] are parameters of the crawler;
  the network and the renderer are functions from a URL to what a request
  for it gives.  Loops that need not end take fuel, and their termination
  is proved where it holds.

  The first part holds the definitions, the second their properties. *)

From Stdlib Require Import ZArith Lia Bool List Ascii String DecimalString.
From Stdlib Require Import DecimalNat Sorted.
From stdpp Require Import base decidable option list gmap strings.

Local Open Scope string_scope.
Set Warnings "-register-all".

(** ** Python string operations *)

Module PyStr.

(** [str.isspace] on one character. *)
Definition is_space (c : ascii) : bool :=
  let n := N_of_ascii c in
  ((9 <=? n) && (n <=? 13) || (28 <=? n) && (n <=? 32)
   || (n =? 133) || (n =? 160))%N.

(** [str.lower] on one character. *)
Definition lower_char (c : ascii) : ascii :=
  let n := N_of_ascii c in
  if ((65 <=? n) && (n <=? 90)
      || (192 <=? n) && (n <=? 222) && negb (n =? 215))%N
  then ascii_of_N (n + 32) else c.

Fixpoint lower (s : string) : string :=
  match s with
  | "" => ""
  | String c r => String (lower_char c) (lower r)
  end.

Fixpoint lstrip (s : string) : string :=
  match s with
  | "" => ""
  | String c r => if is_space c then lstrip r else s
  end.

(** Removes trailing white space: a character is kept when something that
    is kept follows it, or when it is not white space itself. *)
Fixpoint rstrip (s : string) : string :=
  match s with
  | "" => ""
  | String c r =>
      match rstrip r with
      | "" => if is_space c then "" else String c ""
      | r' => String c r'
      end
  end.

Definition strip (s : string) : string := rstrip (lstrip s).

(** [s.startswith(p)]. *)
Fixpoint startswith (s p : string) {struct p} : bool :=
  match p, s with
  | "", _ => true
  | String a p', String b s' => Ascii.eqb a b && startswith s' p'
  | String _ _, "" => false
  end.

(** [p in s]. *)
Fixpoint contains (s p : string) : bool :=
  startswith s p ||
  match s with
  | "" => false
  | String _ r => contains r p
  end.

(** [s[n:]]. *)
Fixpoint drop (n : nat) (s : string) : string :=
  match n, s with
  | O, _ => s
  | S _, "" => ""
  | S n', String _ r => drop n' r
  end.

(** [s.split(sep)] for a one-character separator. *)
Fixpoint split (sep : ascii) (s : string) : list string :=
  match s with
  | "" => [""]
  | String c r =>
      if Ascii.eqb c sep then "" :: split sep r
      else match split sep r with
           | [] => [String c ""]
           | w :: ws => String c w :: ws
           end
  end.

(** [s.split()]: the maximal runs of characters that are not white
    space. *)
Fixpoint words_go (cur : string) (s : string) : list string :=
  match s with
  | "" => match cur with "" => [] | _ => [cur] end
  | String c r =>
      if is_space c
      then match cur with "" => words_go "" r | _ => cur :: words_go "" r end
      else words_go (cur ++ String c "") r
  end.
Definition words (s : string) : list string := words_go "" s.

Definition all_chars (p : ascii -> bool) (s : string) : bool :=
  forallb p (list_ascii_of_string s).

Definition has_char (c : ascii) (s : string) : bool :=
  existsb (Ascii.eqb c) (list_ascii_of_string s).

End PyStr.

(** ** Regular expressions: the fragment of [re] the crawler uses *)

Module Re.

Inductive regex : Type :=
| Void
| Eps
| Class (p : ascii -> bool)
| Cat (r1 r2 : regex)
| Alt (r1 r2 : regex)
| Star (r : regex).

Definition Chr (c : ascii) : regex := Class (Ascii.eqb c).
Definition Plus (r : regex) : regex := Cat r (Star r).
Definition Opt (r : regex) : regex := Alt r Eps.
Fixpoint Lit (s : string) : regex :=
  match s with
  | "" => Eps
  | String c r => Cat (Chr c) (Lit r)
  end.

(** The words of a pattern. *)
Inductive lang : regex -> string -> Prop :=
| lang_eps : lang Eps ""
| lang_class p c : p c = true -> lang (Class p) (String c "")
| lang_cat r1 r2 s1 s2 : lang r1 s1 -> lang r2 s2 -> lang (Cat r1 r2) (s1 ++ s2)
| lang_alt_l r1 r2 s : lang r1 s -> lang (Alt r1 r2) s
| lang_alt_r r1 r2 s : lang r2 s -> lang (Alt r1 r2) s
| lang_star_nil r : lang (Star r) ""
| lang_star_app r s1 s2 :
    lang r s1 -> lang (Star r) s2 -> lang (Star r) (s1 ++ s2).

Fixpoint nullable (r : regex) : bool :=
  match r with
  | Void => false
  | Eps => true
  | Class _ => false
  | Cat r1 r2 => nullable r1 && nullable r2
  | Alt r1 r2 => nullable r1 || nullable r2
  | Star _ => true
  end.

Fixpoint deriv (c : ascii) (r : regex) : regex :=
  match r with
  | Void => Void
  | Eps => Void
  | Class p => if p c then Eps else Void
  | Cat r1 r2 =>
      if nullable r1
      then Alt (Cat (deriv c r1) r2) (deriv c r2)
      else Cat (deriv c r1) r2
  | Alt r1 r2 => Alt (deriv c r1) (deriv c r2)
  | Star r1 => Cat (deriv c r1) (Star r1)
  end.

(** Whether the whole of [s] is a word of [r]. *)
Fixpoint fullmatch (r : regex) (s : string) : bool :=
  match s with
  | "" => nullable r
  | String c s' => fullmatch (deriv c r) s'
  end.

(** [s] without its last character when that is a line feed. *)
Fixpoint chomp (s : string) : option string :=
  match s with
  | "" => None
  | String c "" => if Ascii.eqb c "010" then Some "" else None
  | String c r => option_map (String c) (chomp r)
  end.

(** [re.match('^' r '$', s)] as a truth value: [$] is the end of the
    string or the place before a line feed that ends it. *)
Definition match_anchored (r : regex) (s : string) : bool :=
  fullmatch r s ||
  match chomp s with
  | Some s' => fullmatch r s'
  | None => false
  end.

End Re.

(** ** [pdf_crawler.py]: the URL filter *)

Module UrlFilter.
Import Re.

(** [\d] *)
Definition is_digit (c : ascii) : bool :=
  let n := N_of_ascii c in ((48 <=? n) && (n <=? 57))%N.

(** [[\da-f]] *)
Definition is_hex (c : ascii) : bool :=
  let n := N_of_ascii c in is_digit c || ((97 <=? n) && (n <=? 102))%N.

(** [/\d+(\.[\da-f]+)?\.html], the pattern of line 128 between its
    anchors. *)
Definition junk_page_re : regex :=
  Cat (Chr "/")
    (Cat (Plus (Class is_digit))
       (Cat (Opt (Cat (Chr ".") (Plus (Class is_hex))))
          (Lit ".html"))).

(** [re.match(r'^/\d+(\.[\da-f]+)?\.html$', path)], as a truth value. *)
Definition is_junk_page (path : string) : bool :=
  match_anchored junk_page_re path.

(** [".pdf" in full_url.lower()] *)
Definition is_target_document (full_url : string) : bool :=
  PyStr.contains (PyStr.lower full_url) ".pdf".

(** The junk shape in the words of the specification: one path segment
    made of digits, then possibly a dot and a suffix of the characters
    [0-9a-f], then [.html]. *)
Definition junk_shape (path : string) : Prop :=
  exists ds suffix,
    path = "/" ++ ds ++ suffix ++ ".html"
    /\ ds <> "" /\ PyStr.all_chars is_digit ds = true
    /\ (suffix = ""
        \/ exists hs, suffix = "." ++ hs /\ hs <> ""
                      /\ PyStr.all_chars is_hex hs = true).

End UrlFilter.

(** ** BeautifulSoup: the parsed tree and the queries made on it *)

Module Bs4.

Inductive node : Type :=
| NavigableString (s : string)
| Tag (name : string) (attrs : gmap string string) (contents : list node).

(** The [BeautifulSoup] object: the top-level nodes of the document. *)
Definition soup : Type := list node.

(** A node followed by everything below it, in document order. *)
Fixpoint elements (n : node) : list node :=
  n :: match n with
       | NavigableString _ => []
       | Tag _ _ cs => flat_map elements cs
       end.

(** [.descendants] of the document. *)
Definition descendants (sp : soup) : list node := flat_map elements sp.

Definition is_tag (n : node) : bool :=
  match n with Tag _ _ _ => true | NavigableString _ => false end.

Definition name (n : node) : string :=
  match n with Tag nm _ _ => nm | NavigableString _ => "" end.

(** [tag.get(key)] *)
Definition get (n : node) (key : string) : option string :=
  match n with Tag _ attrs _ => attrs !! key | NavigableString _ => None end.

(** The text strings below a node, in document order. *)
Fixpoint all_strings (n : node) : list string :=
  match n with
  | NavigableString s => [s]
  | Tag _ _ cs => flat_map all_strings cs
  end.

(** What [strip=True] keeps of a sequence of strings. *)
Definition stripped (ss : list string) : list string :=
  List.filter (fun s => negb (String.eqb s "")) (map PyStr.strip ss).

(** [tag.get_text()] *)
Definition get_text (n : node) : string := String.concat "" (all_strings n).

(** [tag.get_text(strip=True)] *)
Definition get_text_strip (n : node) : string :=
  String.concat "" (stripped (all_strings n)).

(** [soup.stripped_strings] *)
Definition stripped_strings (sp : soup) : list string :=
  stripped (flat_map all_strings sp).

(** [soup.find(f)] for a function [f] on tags. *)
Definition find (f : node -> bool) (sp : soup) : option node :=
  List.find (fun n => is_tag n && f n) (descendants sp).

(** [soup.find_all(f)] *)
Definition find_all (f : node -> bool) (sp : soup) : list node :=
  List.filter (fun n => is_tag n && f n) (descendants sp).

(** Whether [cls] is one of the classes of the tag. *)
Definition has_class (cls : string) (n : node) : bool :=
  match get n "class" with
  | Some v => bool_decide (cls ∈ PyStr.words v)
  | None => false
  end.

(** Every element paired with its [previous_elements]: the elements before
    it in document order, nearest first. *)
Fixpoint with_previous (prev : list node) (l : list node)
  : list (node * list node) :=
  match l with
  | [] => []
  | x :: r => (x, prev) :: with_previous (x :: prev) r
  end.

(** [soup.select("nm.cls")], each selected tag with its previous
    elements. *)
Definition select (nm cls : string) (sp : soup) : list (node * list node) :=
  List.filter (fun '(n, _) => is_tag n && String.eqb (name n) nm && has_class cls n)
    (with_previous [] (descendants sp)).

(** [tag.find_previous(nm, href=re.compile("^" prefix))] on the previous
    elements of the tag. *)
Definition find_previous (nm prefix : string) (prev : list node) : option node :=
  List.find (fun n => is_tag n && String.eqb (name n) nm &&
                      match get n "href" with
                      | Some v => PyStr.startswith v prefix
                      | None => false
                      end) prev.

End Bs4.

(** ** [web_scraper.py] *)

Module WebScraper.
Import Bs4.

(** A page as the renderer returns it: [len(html)] and the tree that
    [BeautifulSoup(html, "html.parser")] builds from it. *)
Record Html : Type := { len : nat; parsed : soup }.

Definition is_valid_listing_page (html : Html) : bool :=
  let soup := parsed html in
  let header :=
    find (fun tag => bool_decide (name tag ∈ ["h1"; "h2"; "h3"])
                     && PyStr.contains (get_text tag) "Publikationer") soup in
  match header with Some _ => true | None => false end.

(** A heading that validates a listing page, in the words of the
    specification: an [h1], [h2] or [h3] element whose text contains the
    marker phrase. *)
Definition marker_heading (tag : node) : Prop :=
  is_tag tag = true /\ name tag ∈ ["h1"; "h2"; "h3"]
  /\ exists pre post, get_text tag = pre ++ "Publikationer" ++ post.

(** One extracted entry, the dictionary with keys [url] and [date]. *)
Record report : Type := { url : string; date : string }.

(** The body of the loop over the time tags. *)
Definition extract_step (reports : list report) (tt : node * list node)
  : list report :=
  let '(time_tag, prev) := tt in
  let date_str := get_text_strip time_tag in
  match find_previous "a" "/publikationer/" prev with
  | None => reports
  | Some link_tag =>
      match get link_tag "href" with
      | None => reports
      | Some href =>
          if String.eqb href "" then reports else
          let parts := PyStr.split "/" href in
          if Nat.ltb 2 (List.length parts) then
            let category := PyStr.lower (nth 2 parts "") in
            if bool_decide (category ∈ ["rapport"; "pm"; "statistik"; "wp"]) then
              let full_url :=
                if PyStr.startswith href "http" then href
                else "https://www.tillvaxtanalys.se" ++ href in
              if negb (existsb (fun r => String.eqb (url r) full_url) reports)
              then (reports ++ [{| url := full_url; date := date_str |}])%list
              else reports
            else reports
          else reports
      end
  end.

Definition extract_report_links (listing_html : Html) : list report :=
  let soup := parsed listing_html in
  let time_tags := select "time" "lp-filterable-list-item-date" soup in
  fold_left extract_step time_tags [].

(** [while j < n and stripped[j].strip() == ":"], then the value at [j]
    if there is one; the argument is [stripped[j:]]. *)
Fixpoint skip_colons (rest : list string) : option string :=
  match rest with
  | [] => None
  | t :: rest' =>
      if String.eqb (PyStr.strip t) ":" then skip_colons rest'
      else Some (PyStr.strip t)
  end.

(** [_find_label_value] from the list [stripped] on. *)
Fixpoint find_label_value_tokens (stripped : list string) (label_base : string)
  : option string :=
  let lb_lower := PyStr.lower label_base in
  match stripped with
  | [] => None
  | s :: rest =>
      let sl := PyStr.strip s in
      let slower := PyStr.lower sl in
      if String.eqb slower lb_lower then skip_colons rest
      else if PyStr.startswith slower (lb_lower ++ ":") then
        let after := PyStr.strip (PyStr.drop (String.length label_base + 1) sl) in
        if negb (String.eqb after "") && negb (String.eqb after ":")
        then Some after
        else skip_colons rest
      else find_label_value_tokens rest label_base
  end.

Definition _find_label_value (soup : Bs4.soup) (label_base : string)
  : option string :=
  find_label_value_tokens (stripped_strings soup) label_base.

(** What a call of [get_html] does: it returns the content of the page or
    raises. *)
Inductive loaded : Type :=
| Content (html : Html)
| LoadError.

(** How a call ends. *)
Inductive outcome (A : Type) : Type :=
| Return (a : A)
| Raise.
Arguments Return {A} a.
Arguments Raise {A}.

Section Paginator.

(** The renderer session, as the page it gives for each URL. *)
Variable get_html : string -> loaded.
Variable listing_url : string.

Definition paginated_url (current_page : nat) : string :=
  if Nat.eqb current_page 1 then listing_url
  else listing_url ++ "&svAjaxReqParam=ajax&page12_706c70df1932999ea346c0a="
                   ++ NilEmpty.string_of_uint (Nat.to_uint current_page).

(** The [while True] loop of [fetch_listing_pages]; [fuel] bounds the number
    of iterations and [None] means it ran out. *)
Fixpoint listing_loop (fuel : nat) (current_page : nat)
  (all_listing_htmls : list Html) : option (outcome (list Html)) :=
  match fuel with
  | O => None
  | S fuel' =>
      match get_html (paginated_url current_page) with
      | LoadError => Some Raise
      | Content html =>
          if negb (is_valid_listing_page html) then
            Some (Return all_listing_htmls)
          else if Nat.ltb (len html) 1000 then
            Some (Return all_listing_htmls)
          else
            let all_listing_htmls := (all_listing_htmls ++ [html])%list in
            let report_links := extract_report_links html in
            if Nat.ltb (List.length report_links) 1 then
              Some (Return all_listing_htmls)
            else listing_loop fuel' (current_page + 1) all_listing_htmls
      end
  end.

Definition fetch_listing_pages (fuel : nat) : option (outcome (list Html)) :=
  listing_loop fuel 1 [].

(** [main] up to [report_entries]. *)
Definition main_report_entries (fuel : nat) : option (outcome (list report)) :=
  match fetch_listing_pages fuel with
  | None => None
  | Some Raise => Some Raise
  | Some (Return listing_htmls) =>
      Some (Return (flat_map extract_report_links listing_htmls))
  end.

(** The listing pages [j], ..., [N-1] are [pages j], ..., [pages (N-1)] and
    each is valid: it has the marker heading, is long enough and has an
    entry. *)
Definition pages_continue (pages : nat -> Html) (j N : nat) : Prop :=
  forall k, j <= k < N ->
    get_html (paginated_url k) = Content (pages k)
    /\ is_valid_listing_page (pages k) = true
    /\ 1000 <= len (pages k)
    /\ extract_report_links (pages k) <> [].

End Paginator.

(** The value after a label in the words of the specification: the next
    token that is neither a bare colon nor blank. *)
Definition next_value (after : list string) : option string :=
  option_map PyStr.strip
    (List.find (fun t => negb (String.eqb (PyStr.strip t) ":")
                         && negb (String.eqb (PyStr.strip t) "")) after).

(** A token of the stripped text: not blank. *)
Definition nonblank (t : string) : bool := negb (String.eqb (PyStr.strip t) "").

(** Whether the scan stops at token [t]: it is the label, or starts with
    the label and a colon. *)
Definition label_hit (label_base t : string) : bool :=
  let slower := PyStr.lower (PyStr.strip t) in
  String.eqb slower (PyStr.lower label_base)
  || PyStr.startswith slower (PyStr.lower label_base ++ ":").

End WebScraper.

(** ** [pdf_crawler.py]: the traversal *)

Module PdfCrawler.
Import Bs4 UrlFilter.

(** The two components of [urlparse(url)] the crawler reads. *)
Record ParseResult : Type := { netloc : string; path : string }.

(** What the crawler reads of a [requests] response: [response.url],
    whether [raise_for_status()] passes, the [Content-Type] header, and the
    tree parsed from the decoded content; [None] when [decode] raises
    because the encoding the server names is unknown, or the parser rejects
    the markup: both stand outside the [try] block. *)
Record Response : Type :=
  { final_url : string;
    ok : bool;
    content_type : string;
    decoded : option soup }.

(** What [requests.get] does: it returns a response or raises. *)
Inductive got : Type :=
| Answer (response : Response)
| RequestException.

(** The observable events of a crawl: a request sent, an entry appended to
    [to_visit]. *)
Inductive event : Type :=
| Get (current_url : string)
| Enqueue (full_url : string) (depth : Z).

(** The variables of the loop, [visited], [to_visit] and [pdf_links], and
    the events so far, latest first; the trace is not a variable of the code,
    it records what the loop did. *)
Record state : Type :=
  { visited : gset string;
    to_visit : list (string * Z);
    pdf_links : list (string * node);
    trace : list event }.

(** How one iteration of the [while] loop ends: the loop is left, the next
    iteration starts, or an exception leaves the function.  The [for] loop
    over the links of a page ends in the last two ways. *)
Inductive iteration : Type :=
| Exit
| Next (st : state)
| Uncaught (st : state).

(** How the loop ends. *)
Inductive ending : Type :=
| Finished (st : state)
| Crashed (st : state).

Section Crawl.

(** [urllib.parse]: [None] is the [ValueError] that either function raises
    on a malformed URL, a bracketed host that is not closed for one. *)
Variable urljoin : string -> string -> option string.
Variable urlparse : string -> option ParseResult.
(** The site, as what a request for each URL gives. *)
Variable requests_get : string -> got.
Variable base_url : string.
Variable max_depth : Z.

(** [soup.find_all("a", href=True)] *)
Definition anchors (sp : soup) : list node :=
  find_all (fun tag => String.eqb (name tag) "a"
                       && bool_decide (is_Some (get tag "href"))) sp.

(** [urljoin(final_url, link.get("href"))] *)
Definition resolve (final_url : string) (link : node) : option string :=
  urljoin final_url (default "" (get link "href")).

(** The body of the [for] loop over the links of a page; [None] when
    [urljoin] or [urlparse] raises, which no [try] block surrounds.  The
    second [urlparse(full_url)] of the body gives what the first gave. *)
Definition crawl_link (final_url : string) (depth : Z) (st : state)
  (link : node) : option state :=
  full_url ← resolve final_url link;
  parsed ← urlparse full_url;
  base ← urlparse base_url;
  if negb (String.eqb (netloc parsed) (netloc base)) then Some st
  else if is_junk_page (path parsed) then Some st
  else if is_target_document full_url then
    Some {| visited := visited st;
            to_visit := to_visit st;
            pdf_links := pdf_links st ++ [(full_url, link)];
            trace := trace st |}
  else if (depth <? max_depth)%Z && negb (bool_decide (full_url ∈ visited st))
  then
    Some {| visited := visited st;
            to_visit := to_visit st ++ [(full_url, (depth + 1)%Z)];
            pdf_links := pdf_links st;
            trace := Enqueue full_url (depth + 1)%Z :: trace st |}
  else Some st.

(** The [for] loop over the links of a page: it goes through the links in
    their order and ends with the last, or with the exception of the first
    link on which the body raises; what the links before it added stays. *)
Fixpoint crawl_links (final_url : string) (depth : Z) (links : list node)
  (st : state) : iteration :=
  match links with
  | [] => Next st
  | link :: links' =>
      match crawl_link final_url depth st link with
      | Some st' => crawl_links final_url depth links' st'
      | None => Uncaught st
      end
  end.

(** One iteration of the [while to_visit] loop. *)
Definition loop_body (st : state) : iteration :=
  match to_visit st with
  | [] => Exit
  | (current_url, depth) :: rest =>
      if bool_decide (current_url ∈ visited st) then
        Next {| visited := visited st; to_visit := rest;
                pdf_links := pdf_links st; trace := trace st |}
      else
        let st1 := {| visited := {[ current_url ]} ∪ visited st;
                      to_visit := rest;
                      pdf_links := pdf_links st;
                      trace := Get current_url :: trace st |} in
        match requests_get current_url with
        | RequestException => Next st1
        | Answer response =>
            if negb (ok response) then Next st1
            else if negb (PyStr.contains (content_type response) "text/html")
            then Next st1
            else
              match decoded response with
              | None => Uncaught st1
              | Some soup =>
                  crawl_links (final_url response) depth (anchors soup) st1
              end
        end
  end.

(** The [while] loop; [fuel] bounds the number of iterations and [None]
    means it ran out. *)
Fixpoint crawl_loop (fuel : nat) (st : state) : option ending :=
  match fuel with
  | O => None
  | S fuel' =>
      match loop_body st with
      | Exit => Some (Finished st)
      | Uncaught st' => Some (Crashed st')
      | Next st' => crawl_loop fuel' st'
      end
  end.

Definition initial : state :=
  {| visited := ∅; to_visit := [(base_url, 0%Z)]; pdf_links := []; trace := [] |}.

(** [crawl_for_pdfs] up to the end of the traversal. *)
Definition crawl_for_pdfs (fuel : nat) : option ending :=
  crawl_loop fuel initial.

(** The states the loop passes through. *)
Inductive reachable : state -> Prop :=
| reachable_initial : reachable initial
| reachable_next st st' :
    reachable st -> loop_body st = Next st' -> reachable st'
| reachable_uncaught st st' :
    reachable st -> loop_body st = Uncaught st' -> reachable st'.

(** The URL of a link, when the body of the [for] loop does not raise on
    the link. *)
Definition link_url (final_url : string) (link : node) : option string :=
  full_url ← resolve final_url link;
  _ ← urlparse full_url;
  _ ← urlparse base_url;
  Some full_url.

(** The links the [for] loop gets through, with their URLs: all of them,
    or those before the first link on which the body raises. *)
Fixpoint processed (final_url : string) (links : list node)
  : list (string * node) :=
  match links with
  | [] => []
  | link :: links' =>
      match link_url final_url link with
      | Some full_url => (full_url, link) :: processed final_url links'
      | None => []
      end
  end.

(** Whether the body of the [for] loop raises on one of the links. *)
Definition raises_on (final_url : string) (links : list node) : bool :=
  existsb (fun link => negb (bool_decide (is_Some (link_url final_url link))))
    links.

(** The links of the page at [u] that the crawler gets through, resolved,
    when it gets to parse the page. *)
Definition page_anchors (u : string) : list (string * node) :=
  match requests_get u with
  | Answer response =>
      if ok response && PyStr.contains (content_type response) "text/html" then
        match decoded response with
        | Some soup => processed (final_url response) (anchors soup)
        | None => []
        end
      else []
  | RequestException => []
  end.

Definition page_links (u : string) : list string := map fst (page_anchors u).

(** Whether the iteration that requests [u] ends in an exception: the page
    is HTML and its encoding is unknown, or the body of the [for] loop
    raises on one of its links. *)
Definition uncaught (u : string) : bool :=
  match requests_get u with
  | Answer response =>
      ok response && PyStr.contains (content_type response) "text/html"
      && match decoded response with
         | Some soup => raises_on (final_url response) (anchors soup)
         | None => true
         end
  | RequestException => false
  end.

(** The host of a URL is that of the seed. *)
Definition same_domain (full_url : string) : bool :=
  match urlparse full_url, urlparse base_url with
  | Some parsed, Some base => String.eqb (netloc parsed) (netloc base)
  | _, _ => false
  end.

(** The path of a URL is a junk page. *)
Definition junk_page (full_url : string) : bool :=
  match urlparse full_url with
  | Some parsed => is_junk_page (path parsed)
  | None => false
  end.

(** A link the loop records as a document: on the crawled host, not a
    junk page, with [.pdf] in its lower-cased URL. *)
Definition is_document_link (full_url : string) : bool :=
  same_domain full_url
  && negb (junk_page full_url)
  && is_target_document full_url.

(** A link the loop appends to [to_visit] on a page of depth [depth], the
    visited set being [vis]. *)
Definition is_page_link (vis : gset string) (depth : Z) (full_url : string)
  : bool :=
  same_domain full_url
  && negb (junk_page full_url)
  && negb (is_target_document full_url)
  && ((depth <? max_depth)%Z && negb (bool_decide (full_url ∈ vis))).

(** A bound on the iterations an entry of [to_visit] can cause, [k] being
    the depth left below it: one for the entry, and those of the links of
    its page. *)
Fixpoint weight (k : nat) (u : string) : nat :=
  S (match k with
     | O => 0
     | S k' => list_sum (map (weight k') (page_links u))
     end).

Definition budget (q : list (string * Z)) : nat :=
  list_sum (map (fun '(u, d) => weight (Z.to_nat (max_depth - d)) u) q).

(** The entries the page at [u], of depth [depth], adds to [to_visit], in
    the order of its links. *)
Definition new_entries (vis : gset string) (u : string) (depth : Z)
  : list (string * Z) :=
  map (fun p => (fst p, (depth + 1)%Z))
    (List.filter (fun p => is_page_link vis depth (fst p)) (page_anchors u)).

(** The document links of the page at [u]. *)
Definition documents (u : string) : list (string * node) :=
  List.filter (fun p => is_document_link (fst p)) (page_anchors u).

(** The state after an iteration that finds its URL visited already. *)
Definition skip (st : state) (rest : list (string * Z)) : state :=
  {| visited := visited st; to_visit := rest;
     pdf_links := pdf_links st; trace := trace st |}.

(** The state after an iteration that requests [u]. *)
Definition visit (st : state) (u : string) (depth : Z)
  (rest : list (string * Z)) : state :=
  let vis := {[ u ]} ∪ visited st in
  {| visited := vis;
     to_visit := rest ++ new_entries vis u depth;
     pdf_links := pdf_links st ++ documents u;
     trace := rev (map (fun p => Enqueue (fst p) (snd p)) (new_entries vis u depth))
              ++ Get u :: trace st |}.

(** A link the crawler may follow at some depth. *)
Definition crawlable (full_url : string) : bool :=
  same_domain full_url
  && negb (junk_page full_url)
  && negb (is_target_document full_url).

(** [nodes] is a finite link graph for the crawl: it lists the seed, and
    every link that a listed page has and the crawler may follow leads to a
    listed URL. *)
Definition closed_graph (nodes : list string) : bool :=
  existsb (String.eqb base_url) nodes
  && forallb (fun u =>
                forallb (fun v => negb (crawlable v)
                                  || existsb (String.eqb v) nodes)
                  (page_links u)) nodes.

(** The number of links on the pages of [nodes] not visited yet. *)
Definition unvisited_links (vis : gset string) (nodes : list string) : nat :=
  list_sum (map (fun u => if bool_decide (u ∈ vis) then 0
                          else List.length (page_anchors u)) nodes).

(** The iterations left on the graph [nodes]: the entries waiting, and the
    links of the pages not visited yet. *)
Definition work (nodes : list string) (st : state) : nat :=
  List.length (to_visit st) + unvisited_links (visited st) nodes.

(** The requests of a trace, latest first. *)
Definition requests (tr : list event) : list string :=
  flat_map (fun e => match e with Get u => [u] | Enqueue _ _ => [] end) tr.

(** No event concerns a URL that an earlier event of the trace requested:
    a URL is not requested again, and not appended to [to_visit] again. *)
Fixpoint well_ordered (tr : list event) : Prop :=
  match tr with
  | [] => True
  | Get u :: earlier => ~ In u (requests earlier) /\ well_ordered earlier
  | Enqueue u _ :: earlier => ~ In u (requests earlier) /\ well_ordered earlier
  end.

(** The visited set is the set of the URLs requested, and the trace is
    well ordered. *)
Definition visited_inv (st : state) : Prop :=
  (forall u, u ∈ visited st <-> In u (requests (trace st)))
  /\ well_ordered (trace st).

(** The state of the traversal at its end. *)
Definition final_state (e : ending) : state :=
  match e with Finished st => st | Crashed st => st end.

End Crawl.

End PdfCrawler.

(** ** Sample sites *)

Module Samples.
Import Bs4 WebScraper.

Definition listing : string :=
  "https://www.tillvaxtanalys.se/publikationer.109.html?query=".

(** One row of a listing: the link to a report and its date. *)
Definition row (href title day : string) : list node :=
  [ Tag "a" {[ "href" := href ]} [NavigableString title];
    Tag "time" {[ "class" := "lp-filterable-list-item-date" ]}
      [NavigableString day] ].

Definition listing_page (rows : list node) : Html :=
  {| len := 4000;
     parsed := [ Tag "h1" ∅ [NavigableString "Publikationer"];
                 Tag "ul" ∅ rows ] |}.

Definition page_a : Html :=
  listing_page (row "/publikationer/rapport/2024-17" "Rapport 17" "26 februari 2025").

Definition page_b : Html :=
  listing_page (row "/publikationer/pm/2023-05" "PM 5" "3 mars 2023"
                ++ row "/publikationer/rapport/2024-17" "Rapport 17" "26 februari 2025").

(** What the site answers past the last page: no marker heading. *)
Definition past_last_page : Html :=
  {| len := 4000;
     parsed := [ Tag "h1" ∅ [NavigableString "Sidan kunde inte hittas"] ] |}.

(** The marker phrase outside [h1], [h2] and [h3]. *)
Definition marker_elsewhere : Html :=
  {| len := 4000;
     parsed := [ Tag "h4" ∅ [NavigableString "Publikationer"];
                 Tag "h5" ∅ [NavigableString "Publikationer"];
                 Tag "h6" ∅ [NavigableString "Publikationer"];
                 Tag "p" ∅ [NavigableString "Publikationer"];
                 Tag "div" {[ "title" := "Publikationer" ]}
                   (row "/publikationer/rapport/2024-17" "Rapport 17" "26 februari 2025") ] |}.

(** Two listing pages, the second repeating an entry of the first. *)
Definition site (u : string) : loaded :=
  if String.eqb u listing then Content page_a
  else if String.eqb u (paginated_url listing 2) then Content page_b
  else Content past_last_page.

Definition site_pages (k : nat) : Html :=
  if Nat.eqb k 1 then page_a else page_b.

(** The first page loads, the load of the second raises. *)
Definition flaky_site (u : string) : loaded :=
  if String.eqb u listing then Content page_a else LoadError.

(** One valid page, then a page with the marker outside the headings. *)
Definition site_marker_elsewhere (u : string) : loaded :=
  if String.eqb u listing then Content page_a else Content marker_elsewhere.

(** *** A sample site for the crawler *)

(** The part of [s] before the first character that [stop] accepts, and the
    rest. *)
Fixpoint break_at (stop : ascii -> bool) (s : string) : string * string :=
  match s with
  | "" => ("", "")
  | String c r =>
      if stop c then ("", s)
      else let '(a, b) := break_at stop r in (String c a, b)
  end.

(** The scheme with its [://], and what follows. *)
Fixpoint split_scheme (u : string) : option (string * string) :=
  match u with
  | "" => None
  | String c r =>
      if PyStr.startswith u "://" then Some ("://", PyStr.drop 3 u)
      else match split_scheme r with
           | Some (a, b) => Some (String c a, b)
           | None => None
           end
  end.

Definition ends_netloc (c : ascii) : bool :=
  Ascii.eqb c "/" || Ascii.eqb c "?" || Ascii.eqb c "#".
Definition ends_path (c : ascii) : bool :=
  Ascii.eqb c "?" || Ascii.eqb c "#".

(** A host with one of the two square brackets and not the other, on
    which [urlparse] raises its "Invalid IPv6 URL". *)
Definition invalid_netloc (host : string) : bool :=
  xorb (PyStr.has_char "[" host) (PyStr.has_char "]" host).

(** [urlparse] on URLs of the form [scheme://netloc/path?query#fragment]. *)
Definition urlparse (u : string) : option PdfCrawler.ParseResult :=
  match split_scheme u with
  | Some (_, r) =>
      let '(host, r') := break_at ends_netloc r in
      if invalid_netloc host then None
      else Some {| PdfCrawler.netloc := host;
                   PdfCrawler.path := fst (break_at ends_path r') |}
  | None =>
      Some {| PdfCrawler.netloc := "";
              PdfCrawler.path := fst (break_at ends_path u) |}
  end.

(** [urljoin] for the two forms of [href] on the sample pages: an absolute
    URL, and a path from the root.  It parses the base and the link, and
    raises when [urlparse] raises on one of them. *)
Definition urljoin (base href : string) : option string :=
  _ ← urlparse base;
  _ ← urlparse href;
  match split_scheme href with
  | Some _ => Some href
  | None =>
      match split_scheme base with
      | Some (sch, r) => Some (sch ++ fst (break_at ends_netloc r) ++ href)
      | None => Some href
      end
  end.

Definition a (href text : string) : node :=
  Tag "a" {[ "href" := href ]} [NavigableString text].

Definition html_page (u : string) (body : list node) : PdfCrawler.got :=
  PdfCrawler.Answer
    {| PdfCrawler.final_url := u; PdfCrawler.ok := true;
       PdfCrawler.content_type := "text/html; charset=utf-8";
       PdfCrawler.decoded := Some [Tag "html" ∅ [Tag "body" ∅ body]] |}.

Definition not_found (u : string) : PdfCrawler.got :=
  PdfCrawler.Answer
    {| PdfCrawler.final_url := u; PdfCrawler.ok := false;
       PdfCrawler.content_type := "text/html"; PdfCrawler.decoded := Some [] |}.

Definition seed : string := "https://example.org/".

(** [/] links to [/docs], [/docs] back to [/] and on to [/deep], [/deep] to
    [/deeper]; the pages carry document links, a junk link whose query
    holds [.pdf], and a link to another host. *)
Definition web (u : string) : PdfCrawler.got :=
  if String.eqb u "https://example.org/" then
    html_page u [ a "/docs" "Documents";
                  a "/404.1f3a.html?next=a.pdf" "Broken";
                  a "/files/summary.PDF?download=1" "Summary";
                  a "/gone" "Removed";
                  a "/docs" "Documents again" ]
  else if String.eqb u "https://example.org/docs" then
    html_page u [ a "/" "Home";
                  a "/docs/report.pdf" "Report";
                  a "https://other.org/x.pdf" "Elsewhere";
                  a "/deep" "Deeper" ]
  else if String.eqb u "https://example.org/deep" then
    html_page u [ a "/deeper" "Deepest"; a "/docs" "Up" ]
  else if String.eqb u "https://example.org/deeper" then
    html_page u [ a "/deeper/last.pdf" "Last" ]
  else not_found u.

(** The URLs of [web]. *)
Definition web_nodes : list string :=
  [ "https://example.org/"; "https://example.org/docs";
    "https://example.org/deep"; "https://example.org/deeper";
    "https://example.org/gone" ].

(** The state in which a crawl of [web] from [seed] ends. *)
Definition crawl_end (max_depth : Z) (fuel : nat) : PdfCrawler.state :=
  match PdfCrawler.crawl_for_pdfs urljoin urlparse web seed max_depth fuel with
  | Some e => PdfCrawler.final_state e
  | None => PdfCrawler.initial seed
  end.

(** The chain [/ -> /docs -> /docs/report.pdf], with a document on another
    host linked from [/docs]. *)
Definition chain (u : string) : PdfCrawler.got :=
  if String.eqb u "https://example.org/" then
    html_page u [ a "/docs" "Documents" ]
  else if String.eqb u "https://example.org/docs" then
    html_page u [ a "/docs/report.pdf" "Report";
                  a "https://other.org/x.pdf" "Elsewhere" ]
  else not_found u.

(** A seed page with a link whose host opens a bracket and does not close
    it, between a page link and a document link. *)
Definition web_malformed (u : string) : PdfCrawler.got :=
  if String.eqb u "https://example.org/" then
    html_page u [ a "/first.pdf" "First";
                  a "/docs" "Documents";
                  a "http://[" "Malformed";
                  a "/x.pdf" "Report";
                  a "/deep" "Deeper" ]
  else html_page u [].

(** A site whose only page declares an encoding [decode] does not know. *)
Definition web_bad_charset (u : string) : PdfCrawler.got :=
  PdfCrawler.Answer
    {| PdfCrawler.final_url := u; PdfCrawler.ok := true;
       PdfCrawler.content_type := "text/html; charset=x-unknown";
       PdfCrawler.decoded := None |}.

End Samples.

(** ** Paths and file names *)

Module PyPath.

(** [s.endswith(p)] *)
Fixpoint endswith (s p : string) : bool :=
  String.eqb s p
  || match s with
     | "" => false
     | String _ r => endswith r p
     end.

(** [s.replace(a, b)] for one-character [a] and [b]. *)
Fixpoint replace_char (a b : ascii) (s : string) : string :=
  match s with
  | "" => ""
  | String c r => String (if Ascii.eqb c a then b else c) (replace_char a b r)
  end.

(** [re.sub('[^...]', '', s)]: the characters of the class stay, the others
    go. *)
Fixpoint keep_chars (keep : ascii -> bool) (s : string) : string :=
  match s with
  | "" => ""
  | String c r =>
      if keep c then String c (keep_chars keep r) else keep_chars keep r
  end.

(** [os.path.basename] (POSIX): what follows the last slash. *)
Fixpoint basename (p : string) : string :=
  match p with
  | "" => ""
  | String c r =>
      if PyStr.has_char "/" r then basename r
      else if Ascii.eqb c "/" then r
      else p
  end.

End PyPath.

(** ** [pdf_crawler.py]: where a document is stored *)

Module Download.
Import Bs4.

(** [\w] on one character: [str.isalnum] or the underscore. *)
Definition is_word (c : ascii) : bool :=
  let n := N_of_ascii c in
  ((48 <=? n) && (n <=? 57) || (65 <=? n) && (n <=? 90)
   || (97 <=? n) && (n <=? 122) || (n =? 95)
   || (n =? 170) || (n =? 178) || (n =? 179) || (n =? 181)
   || (n =? 185) || (n =? 186) || (188 <=? n) && (n <=? 190)
   || (192 <=? n) && (n <=? 214) || (216 <=? n) && (n <=? 246)
   || (248 <=? n) && (n <=? 255))%N.

(** [[\w\-.]] *)
Definition is_safe (c : ascii) : bool :=
  is_word c || Ascii.eqb c "-" || Ascii.eqb c ".".

Definition sanitize_filename (name : string) : string :=
  let name := PyPath.replace_char " " "-" (PyStr.strip name) in
  PyPath.keep_chars is_safe name.

(** The name of the file [download_pdf] writes for [pdf_url]. *)
Definition pdf_filename (pdf_url : string) : string :=
  let pdf_filename := sanitize_filename (PyPath.basename pdf_url) in
  if negb (PyPath.endswith (PyStr.lower pdf_filename) ".pdf")
  then pdf_filename ++ ".pdf"
  else pdf_filename.

(** The test of [extract_section_name] on a tag: a heading with text. *)
Definition is_heading (tag : node) : bool :=
  bool_decide (name tag ∈ ["h1"; "h2"; "h3"; "h4"; "h5"; "h6"])
  && negb (String.eqb (get_text_strip tag) "").

(** The [.parent] chain of the element at [path] (the indices of the
    children to follow from the top), each parent as its contents, nearest
    first; the last is the document.  [None] when there is no element at
    [path]. *)
Fixpoint parents (cs : list node) (path : list nat) (above : list (list node))
  : option (list (list node)) :=
  match path with
  | [] => None
  | i :: path' =>
      match nth_error cs i, path' with
      | Some _, [] => Some (cs :: above)
      | Some (Tag _ _ cs'), _ => parents cs' path' (cs :: above)
      | _, _ => None
      end
  end.

(** [extract_section_name] on the parents of the link, nearest first. *)
Fixpoint extract_section_name (link_parents : list (list node)) : option string :=
  match link_parents with
  | [] => None
  | parent :: up =>
      match find is_heading parent with
      | Some heading => Some (get_text_strip heading)
      | None => extract_section_name up
      end
  end.

(** The first folder of the download path: [sanitize_filename] of the
    section name, or of [General] when there is none. *)
Definition section_folder (link_parents : list (list node)) : string :=
  sanitize_filename
    (match extract_section_name link_parents with
     | Some section => if String.eqb section "" then "General" else section
     | None => "General"
     end).

End Download.

(** ** [web_scraper.py]: report pages and the two sinks *)

Module Reports.
Import Bs4 WebScraper.

(** The empty string, which [get_report_html_alternative] returns when no
    attempt succeeds. *)
Definition no_html : Html := {| len := 0; parsed := [] |}.

Section Retry.

(** What the page load of the first, second, ... attempt gives. *)
Variable attempt_html : nat -> loaded.

(** The [for attempt in range(...)] loop from [attempt] on, [remaining]
    attempts being left: the page returned and the number of loads made. *)
Fixpoint retry_loop (attempt remaining : nat) : Html * nat :=
  match remaining with
  | O => (no_html, 0)
  | S remaining' =>
      match attempt_html attempt with
      | Content html =>
          if Nat.ltb 100 (len html) then (html, 1)
          else let '(h, n) := retry_loop (S attempt) remaining' in (h, S n)
      | LoadError =>
          let '(h, n) := retry_loop (S attempt) remaining' in (h, S n)
      end
  end.

Definition get_report_html_alternative (retries : nat) : Html :=
  fst (retry_loop 1 retries).

(** Whether an attempt yields a page the function accepts. *)
Definition good_attempt (attempt : nat) : bool :=
  match attempt_html attempt with
  | Content html => Nat.ltb 100 (len html)
  | LoadError => false
  end.

End Retry.

(** The dictionary [parse_report] returns. *)
Record fields : Type :=
  { report_name : option string;
    serienummer : option string;
    diarienummer : option string;
    description : string }.

Definition contents (n : node) : list node :=
  match n with Tag _ _ cs => cs | NavigableString _ => [] end.

(** [tag.get_text(separator=" ", strip=True)] *)
Definition get_text_spaced (n : node) : string :=
  String.concat " " (stripped (all_strings n)).

(** [soup.find("div", class_=cls)] *)
Definition find_div (cls : string) (sp : soup) : option node :=
  find (fun tag => String.eqb (name tag) "div" && has_class cls tag) sp.

Definition parse_report (report_html : Html) : fields :=
  let soup := parsed report_html in
  let h1 := find (fun tag => String.eqb (name tag) "h1") soup in
  let report_name := option_map get_text_strip h1 in
  let serienummer := _find_label_value soup "Serienummer" in
  let diarienummer := _find_label_value soup "Diarienummer" in
  let description :=
    match find_div "rapport-description" soup with
    | Some desc_container => get_text_spaced desc_container
    | None =>
        let paragraphs :=
          match find_div "rapport-article-content" soup with
          | Some article_container =>
              find_all (fun tag => String.eqb (name tag) "p")
                (contents article_container)
          | None => find_all (fun tag => String.eqb (name tag) "p") soup
          end in
        String.concat " " (map get_text_strip paragraphs)
    end in
  {| report_name := report_name; serienummer := serienummer;
     diarienummer := diarienummer; description := description |}.

(** One element of [reports_data]: the parsed fields with the URL and the
    date of the listing entry. *)
Record report_data : Type :=
  { data_fields : fields; data_url : string; data_date : string }.

Section Main.

Variable get_html : string -> loaded.
(** Whether the debug copy of a short page can be written. *)
Variable write_debug_html : string -> bool.

(** The body of the loop over [report_entries]: the [try] block appends a
    record, the [except] branch appends nothing. *)
Definition process_entry (reports_data : list report_data) (entry : report)
  : list report_data :=
  match get_html (url entry) with
  | LoadError => reports_data
  | Content html =>
      if Nat.ltb (len html) 1000 && negb (write_debug_html (url entry))
      then reports_data
      else (reports_data
            ++ [{| data_fields := parse_report html;
                   data_url := url entry; data_date := date entry |}])%list
  end.

Definition process_reports (report_entries : list report) : list report_data :=
  fold_left process_entry report_entries [].

(** Whether the loop produces a record for the entry. *)
Definition processed (entry : report) : bool :=
  match get_html (url entry) with
  | LoadError => false
  | Content html =>
      negb (Nat.ltb (len html) 1000 && negb (write_debug_html (url entry)))
  end.

End Main.

(** What the sinks read of a report: the values of [report.get] for the six
    keys, in the order of the columns. *)
Record row : Type :=
  { c_report_name : option string;
    c_diarienummer : option string;
    c_serienummer : option string;
    c_description : option string;
    c_date : option string;
    c_url : option string }.

Definition row_of (d : report_data) : row :=
  {| c_report_name := report_name (data_fields d);
     c_diarienummer := diarienummer (data_fields d);
     c_serienummer := serienummer (data_fields d);
     c_description := Some (description (data_fields d));
     c_date := Some (data_date d);
     c_url := Some (data_url d) |}.

(** *** The SQLite table [reports] *)

(** Whether an [INSERT] of a row with this URL violates [url TEXT UNIQUE]:
    a row of the table has the same URL; [NULL] never conflicts. *)
Definition url_taken (table : list row) (u : option string) : bool :=
  match u with
  | None => false
  | Some u =>
      existsb (fun r => match c_url r with
                        | Some v => String.eqb v u
                        | None => false
                        end) table
  end.

(** One [INSERT]; on [IntegrityError] the row is skipped. *)
Definition insert_report (table : list row) (report : row) : list row :=
  if url_taken table (c_url report) then table else (table ++ [report])%list.

(** [save_to_sqlite] as a function of the rows of the table. *)
Definition save_to_sqlite (table : list row) (reports_data : list row)
  : list row :=
  fold_left insert_report reports_data table.

(** The URLs of a table that are not [NULL]. *)
Definition table_urls (table : list row) : list string :=
  flat_map (fun r => match c_url r with Some u => [u] | None => [] end) table.

(** *** The worksheet *)

(** The value of a cell: none, a string, or a value of another type (a
    number, a date, a boolean), which a workbook edited by hand may hold. *)
Inductive cell_value : Type :=
| Blank
| Text (s : string)
| Other.

(** A worksheet as the list of its rows, a row as the values of its cells
    from the first column to the last cell the row has. *)
Definition sheet : Type := list (list cell_value).

Definition headers : list (option string) :=
  [ Some "report_name"; Some "diarienummer"; Some "serienummer";
    Some "description"; Some "date"; Some "url" ].

(** The list [row] that [save_to_excel] builds from a report. *)
Definition cells (r : row) : list (option string) :=
  [ c_report_name r; c_diarienummer r; c_serienummer r;
    c_description r; c_date r; c_url r ].

(** The characters openpyxl refuses in a cell (its
    [ILLEGAL_CHARACTERS_RE]): the control characters 0 to 8, 11, 12 and 14
    to 31, that is all of them but tab, line feed and carriage return. *)
Definition illegal_character (c : ascii) : bool :=
  let n := nat_of_ascii c in
  Nat.leb n 8 || (Nat.leb 11 n && Nat.leb n 12) || (Nat.leb 14 n && Nat.leb n 31).

(** The longest string a cell holds. *)
Definition max_length : nat := N.to_nat 32767.

(** [s[:n]] *)
Fixpoint take (n : nat) (s : string) : string :=
  match n, s with
  | S n', String c r => String c (take n' r)
  | _, _ => ""
  end.

(** [Cell.check_string] of openpyxl, which every string put into a cell
    goes through: the string is cut to 32767 characters, and an illegal
    character in what is left raises [IllegalCharacterError], here
    [None]. *)
Definition check_string (value : string) : option string :=
  let value := take max_length value in
  if PyStr.all_chars (fun c => negb (illegal_character c)) value
  then Some value else None.

(** The value a cell gets from an entry of an appended row. *)
Definition bind_value (value : option string) : option cell_value :=
  match value with
  | None => Some Blank
  | Some s => Text <$> check_string s
  end.

(** [ws.append(row)]: a row after the last row of the sheet; it raises when
    a cell does. *)
Definition append (ws : sheet) (row : list (option string)) : option sheet :=
  row_cells ← mapM bind_value row;
  Some (ws ++ [row_cells])%list.

(** [ws.max_column] *)
Definition max_column (ws : sheet) : nat :=
  Nat.max 1 (list_max (map (@List.length cell_value) ws)).

(** [row[-1]] for a row of [ws.iter_rows(values_only=True)]: every such
    row is as wide as the sheet, so this is the value in the last column of
    the sheet, none when the row has no cell there. *)
Definition last_value (ws : sheet) (r : list cell_value) : cell_value :=
  nth (max_column ws - 1) r Blank.

(** [existing_urls]: the values [row[-1]] of the rows from the second on
    that are true; a value that is no string is left out here, it is equal
    to no URL. *)
Definition existing_urls (ws : sheet) : gset string :=
  fold_left (fun urls r => match last_value ws r with
                           | Text u => if String.eqb u "" then urls
                                       else {[ u ]} ∪ urls
                           | _ => urls
                           end) (tl ws) ∅.

(** [report.get("url") not in existing_urls] *)
Definition url_is_new (urls : gset string) (u : option string) : bool :=
  match u with
  | Some u => negb (bool_decide (u ∈ urls))
  | None => true
  end.

(** [save_to_excel] as a function of the worksheet that [load_workbook]
    gives for the file, [None] when the file does not exist.  The result is
    the worksheet that [wb.save] is called with, and [None] when
    [ws.append] raises: the exception leaves the function before [wb.save],
    and no file is written. *)
Definition save_to_excel (file : option sheet) (reports_data : list row)
  : option sheet :=
  match file with
  | Some ws =>
      let existing_urls := existing_urls ws in
      fold_left (fun wb report =>
                   ws ← wb;
                   if url_is_new existing_urls (c_url report)
                   then append ws (cells report) else Some ws)
        reports_data (Some ws)
  | None =>
      fold_left (fun wb report => ws ← wb; append ws (cells report))
        reports_data (append [] headers)
  end.


(** The value of a cell that takes an entry without raising. *)
Definition cut (value : option string) : cell_value :=
  match value with
  | None => Blank
  | Some s => Text (take max_length s)
  end.

End Reports.

(** ** The order of the frontier *)

Module CrawlOrder.

(** How the depths of two entries of [to_visit] relate, the first standing
    before the second: breadth first, the later entry is as deep or one
    level deeper. *)
Definition breadth_first (d1 d2 : Z) : Prop := (d1 <= d2 <= d1 + 1)%Z.

End CrawlOrder.

(** ** Listing entries *)

Module Listing.
Import Bs4 WebScraper.

(** The shape of an entry: the site, then a path under [/publikationer/]
    whose next segment is one of the four categories, and the text of a
    time tag of the page as date. *)
Definition listed (listing_html : Html) (r : report) : Prop :=
  exists href time_tag prev,
    url r = ("https://www.tillvaxtanalys.se" ++ href)%string
    /\ PyStr.startswith href "/publikationer/" = true
    /\ PyStr.lower (nth 2 (PyStr.split "/" href) "")
       ∈ ["rapport"; "pm"; "statistik"; "wp"]
    /\ In (time_tag, prev)
         (select "time" "lp-filterable-list-item-date" (parsed listing_html))
    /\ date r = get_text_strip time_tag.

End Listing.

(** ** More sample data *)

Module MoreSamples.
Import Bs4.

(** A page with a section heading next to the paragraph of the link, and a
    page without any heading. *)
Definition article : soup :=
  [ Tag "h1" ∅ [NavigableString "Trafikanalys"];
    Tag "div" ∅
      [ Tag "h2" ∅ [NavigableString " Rapporter 2024 "];
        Tag "p" ∅ [Samples.a "/docs/report.pdf" "Report"] ] ].

Definition bare : soup :=
  [ Tag "div" ∅ [ Tag "h2" ∅ [NavigableString "  "];
                  Tag "p" ∅ [Samples.a "/docs/report.pdf" "Report"] ] ].

(** The place of the link in both pages. *)
Definition link_path : list nat := [1; 1; 0]%nat.
Definition bare_link_path : list nat := [0; 1; 0]%nat.

Definition parents_of (sp : soup) (path : list nat) : list (list node) :=
  default [] (Download.parents sp path []).

(** A report page that fails to load, then comes back too short, then
    loads. *)
Definition report_attempts (attempt : nat) : WebScraper.loaded :=
  match attempt with
  | 1%nat => WebScraper.LoadError
  | 2%nat => WebScraper.Content {| WebScraper.len := 60; WebScraper.parsed := [] |}
  | _ => WebScraper.Content Samples.page_a
  end.

(** A report page with its labelled fields. *)
Definition report_page : WebScraper.Html :=
  {| WebScraper.len := 5000;
     WebScraper.parsed :=
       [ Tag "h1" ∅ [NavigableString " Kompetens 2024 "];
         Tag "p" ∅ [NavigableString "Serienummer: Rapport 2024:17"];
         Tag "p" ∅ [NavigableString "Diarienummer"; NavigableString ":";
                    NavigableString "2021/68"] ] |}.

Definition entry_17 : WebScraper.report :=
  {| WebScraper.url := "https://www.tillvaxtanalys.se/publikationer/rapport/2024-17";
     WebScraper.date := "26 februari 2025" |}.

Definition entry_05 : WebScraper.report :=
  {| WebScraper.url := "https://www.tillvaxtanalys.se/publikationer/pm/2023-05";
     WebScraper.date := "3 mars 2023" |}.

(** The report 2024-17 loads, every other page fails to. *)
Definition report_site (u : string) : WebScraper.loaded :=
  if String.eqb u "https://www.tillvaxtanalys.se/publikationer/rapport/2024-17"
  then WebScraper.Content report_page else WebScraper.LoadError.

Definition row_17 : Reports.row :=
  {| Reports.c_report_name := Some "Kompetens 2024";
     Reports.c_diarienummer := Some "2021/68";
     Reports.c_serienummer := Some "Rapport 2024:17";
     Reports.c_description :=
       Some "Serienummer: Rapport 2024:17 Diarienummer:2021/68";
     Reports.c_date := Some "26 februari 2025";
     Reports.c_url :=
       Some "https://www.tillvaxtanalys.se/publikationer/rapport/2024-17" |}.

Definition row_05 : Reports.row :=
  {| Reports.c_report_name := None;
     Reports.c_diarienummer := None;
     Reports.c_serienummer := None;
     Reports.c_description := Some "";
     Reports.c_date := Some "3 mars 2023";
     Reports.c_url :=
       Some "https://www.tillvaxtanalys.se/publikationer/pm/2023-05" |}.

(** The worksheet that holds the report 2024-17, and one with a column
    added after the URLs. *)
Definition sheet_17 : Reports.sheet :=
  [ map Reports.cut Reports.headers; map Reports.cut (Reports.cells row_17) ].

Definition sheet_wider : Reports.sheet :=
  [ (map Reports.cut Reports.headers ++ [Reports.Text "checked"])%list;
    map Reports.cut (Reports.cells row_17) ].

(** A report whose description holds a vertical tab. *)
Definition row_vt : Reports.row :=
  {| Reports.c_report_name := Some "Kompetens";
     Reports.c_diarienummer := None;
     Reports.c_serienummer := None;
     Reports.c_description := Some (String (ascii_of_nat 11) "Sammanfattning");
     Reports.c_date := Some "1 mars 2024";
     Reports.c_url :=
       Some "https://www.tillvaxtanalys.se/publikationer/rapport/2024-03" |}.

End MoreSamples.

(** ** The sitemap files (trafa_sitemap_metadata.py) *)

Module TrafaSitemap.

(** The character class of [sanitize_filename]: backslash, slash, star,
    question mark, colon, double quote, angle brackets and bar. *)
Definition forbidden : list ascii :=
  ["\"; "/"; "*"; "?"; ":"; ascii_of_nat 34; "<"; ">"; "|"]%char.

Definition is_forbidden (c : ascii) : bool :=
  existsb (Ascii.eqb c) forbidden.

(** [re.sub] of the class by an underscore. *)
Fixpoint sanitize_filename (name : string) : string :=
  match name with
  | "" => ""
  | String c r =>
      String (if is_forbidden c then "_"%char else c) (sanitize_filename r)
  end.

(** A page of the sitemap, with the attributes the script reads. *)
Record page := { url : string; lastmod : option string }.

Definition filter_relevant_pages (pages : list page) : list page :=
  List.filter
    (fun page =>
       let url := PyStr.lower (url page) in
       PyPath.endswith url ".pdf" || PyPath.endswith url ".xlsx")
    pages.

(** The [file_type] that [main] gives a file, by the end of its URL. *)
Definition file_type (file_url : string) : string :=
  if PyPath.endswith (PyStr.lower file_url) ".pdf" then "pdf"
  else if PyPath.endswith (PyStr.lower file_url) ".xlsx" then "xlsx"
  else "other".

(** The file types of the pages that [main] goes through. *)
Definition main_file_types (all_pages : list page) : list string :=
  map (fun page => file_type (url page)) (filter_relevant_pages all_pages).

End TrafaSitemap.

(** * Properties *)

#[local] Arguments String.append !s1 s2 / : simpl nomatch.

(** *** Strings as words: the facts about [++] the developments use *)

Section StringFacts.

Lemma append_nil_r (s : string) : s ++ "" = s.
Proof. induction s as [|c s IH]; simpl; [reflexivity | now rewrite IH]. Qed.

Lemma append_assoc (s1 s2 s3 : string) : (s1 ++ s2) ++ s3 = s1 ++ (s2 ++ s3).
Proof. induction s1 as [|c s1 IH]; simpl; [reflexivity | now rewrite IH]. Qed.

Lemma append_eq_nil (s1 s2 : string) : s1 ++ s2 = "" -> s1 = "" /\ s2 = "".
Proof. destruct s1; simpl; [auto | discriminate]. Qed.

Lemma append_eq_cons (s1 s2 s : string) (c : ascii) :
  s1 ++ s2 = String c s ->
  (s1 = "" /\ s2 = String c s) \/ (exists s1', s1 = String c s1' /\ s = s1' ++ s2).
Proof.
  destruct s1 as [|a s1]; simpl; intros H.
  - left; auto.
  - right. injection H as -> <-. eauto.
Qed.

Lemma list_ascii_app (s1 s2 : string) :
  list_ascii_of_string (s1 ++ s2)
  = (list_ascii_of_string s1 ++ list_ascii_of_string s2)%list.
Proof. induction s1 as [|c s1 IH]; simpl; [reflexivity | now rewrite IH]. Qed.

Lemma length_append (s1 s2 : string) :
  String.length (s1 ++ s2) = String.length s1 + String.length s2.
Proof. induction s1 as [|c s1 IH]; simpl; [reflexivity | now rewrite IH]. Qed.

End StringFacts.

(** *** The matcher decides the language *)

Module ReFacts.
Import Re.

Lemma lang_cat_inv (r1 r2 : regex) (s : string) :
  lang (Cat r1 r2) s -> exists s1 s2, s = s1 ++ s2 /\ lang r1 s1 /\ lang r2 s2.
Proof. inversion 1; subst; eauto. Qed.

Lemma lang_alt_inv (r1 r2 : regex) (s : string) :
  lang (Alt r1 r2) s -> lang r1 s \/ lang r2 s.
Proof. inversion 1; subst; auto. Qed.

Lemma lang_class_inv (p : ascii -> bool) (s : string) :
  lang (Class p) s -> exists c, s = String c "" /\ p c = true.
Proof. inversion 1; subst; eauto. Qed.

Lemma lang_eps_inv (s : string) : lang Eps s -> s = "".
Proof. inversion 1; reflexivity. Qed.

Lemma nullable_lang (r : regex) : nullable r = true <-> lang r "".
Proof.
  induction r as [| |p|r1 IH1 r2 IH2|r1 IH1 r2 IH2|r IH]; simpl.
  - split; [discriminate | inversion 1].
  - split; [constructor | reflexivity].
  - split; [discriminate | inversion 1].
  - rewrite andb_true_iff, IH1, IH2. split.
    + intros [H1 H2]. exact (lang_cat _ _ "" "" H1 H2).
    + intros (s1 & s2 & E & H1 & H2)%lang_cat_inv.
      symmetry in E. apply append_eq_nil in E as [-> ->]. auto.
  - rewrite orb_true_iff, IH1, IH2. split.
    + intros [H|H]; [apply lang_alt_l | apply lang_alt_r]; exact H.
    + apply lang_alt_inv.
  - split; [constructor | reflexivity].
Qed.

(** A non-empty word of [Star r] starts with a non-empty word of [r]. *)
Lemma lang_star_cons (r : regex) (c : ascii) (s : string) :
  lang (Star r) (String c s) ->
  exists s1 s2, s = s1 ++ s2 /\ lang r (String c s1) /\ lang (Star r) s2.
Proof.
  intros H. remember (Star r) as r' eqn:Er. remember (String c s) as w eqn:Ew.
  revert s Ew. induction H as [| | | | | |r0 s1 s2 H1 _ H2 IH2]; intros t Ew;
    try discriminate.
  injection Er as ->.
  apply append_eq_cons in Ew as [[-> ->]|[s1' [-> ->]]].
  - apply IH2; reflexivity.
  - exists s1', s2. auto.
Qed.

Lemma deriv_lang (r : regex) (c : ascii) (s : string) :
  lang (deriv c r) s <-> lang r (String c s).
Proof.
  revert s. induction r as [| |p|r1 IH1 r2 IH2|r1 IH1 r2 IH2|r IH]; intros s; simpl.
  - split; inversion 1.
  - split; inversion 1.
  - destruct (p c) eqn:Hp; split.
    + intros ->%lang_eps_inv. now constructor.
    + intros (c' & E & _)%lang_class_inv. injection E as <- ->. constructor.
    + inversion 1.
    + intros (c' & E & Hc)%lang_class_inv. injection E as <- ->. congruence.
  - assert (Hcat : lang (Cat (deriv c r1) r2) s -> lang (Cat r1 r2) (String c s)).
    { intros (s1 & s2 & -> & H1 & H2)%lang_cat_inv.
      apply IH1 in H1. exact (lang_cat _ _ (String c s1) s2 H1 H2). }
    destruct (nullable r1) eqn:Hn; split.
    + intros [H|H]%lang_alt_inv; [auto|].
      apply (lang_cat r1 r2 "" (String c s)); [now apply nullable_lang | now apply IH2].
    + intros (s1 & s2 & E & H1 & H2)%lang_cat_inv. symmetry in E.
      apply append_eq_cons in E as [[-> ->]|[s1' [-> ->]]].
      * apply lang_alt_r, IH2, H2.
      * apply lang_alt_l. constructor; [now apply IH1 | assumption].
    + exact Hcat.
    + intros (s1 & s2 & E & H1 & H2)%lang_cat_inv. symmetry in E.
      apply append_eq_cons in E as [[-> ->]|[s1' [-> ->]]].
      * apply nullable_lang in H1. congruence.
      * constructor; [now apply IH1 | assumption].
  - split.
    + intros [H|H]%lang_alt_inv; [apply lang_alt_l, IH1 | apply lang_alt_r, IH2]; assumption.
    + intros [H|H]%lang_alt_inv; [apply lang_alt_l, IH1 | apply lang_alt_r, IH2]; assumption.
  - split.
    + intros (s1 & s2 & -> & H1 & H2)%lang_cat_inv.
      apply IH in H1. exact (lang_star_app r (String c s1) s2 H1 H2).
    + intros H. apply lang_star_cons in H as (s1 & s2 & -> & H1 & H2).
      constructor; [now apply IH | assumption].
Qed.

Lemma fullmatch_lang (r : regex) (s : string) :
  fullmatch r s = true <-> lang r s.
Proof.
  revert r. induction s as [|c s IH]; intros r; simpl.
  - apply nullable_lang.
  - rewrite IH. apply deriv_lang.
Qed.

End ReFacts.

(** ** The junk-page pattern *)

Module UrlFilterFacts.
Import Re ReFacts UrlFilter.

Lemma lang_lit (w s : string) : lang (Lit w) s <-> s = w.
Proof.
  revert s. induction w as [|c w IH]; intros s; simpl.
  - split; [apply lang_eps_inv | intros ->; constructor].
  - split.
    + intros (s1 & s2 & -> & H1 & H2)%lang_cat_inv.
      apply lang_class_inv in H1 as (c' & -> & Hc).
      apply Ascii.eqb_eq in Hc as <-. apply IH in H2 as ->. reflexivity.
    + intros ->. apply (lang_cat (Chr c) (Lit w) (String c "") w).
      * constructor. apply Ascii.eqb_refl.
      * now apply IH.
Qed.

Lemma lang_star_class (p : ascii -> bool) (s : string) :
  lang (Star (Class p)) s <-> PyStr.all_chars p s = true.
Proof.
  unfold PyStr.all_chars. split.
  - intros H. remember (Star (Class p)) as r eqn:Er.
    induction H as [| | | | | |r0 s1 s2 H1 _ H2 IH2]; try discriminate.
    + reflexivity.
    + injection Er as ->. apply lang_class_inv in H1 as (c & -> & Hc).
      simpl. rewrite Hc. now apply IH2.
  - induction s as [|c s IH]; simpl.
    + constructor.
    + intros [Hc Hs]%andb_true_iff.
      apply (lang_star_app (Class p) (String c "") s); [now constructor | auto].
Qed.

Lemma lang_plus_class (p : ascii -> bool) (s : string) :
  lang (Plus (Class p)) s <-> s <> "" /\ PyStr.all_chars p s = true.
Proof.
  unfold Plus. split.
  - intros (s1 & s2 & -> & H1 & H2)%lang_cat_inv.
    apply lang_class_inv in H1 as (c & -> & Hc).
    apply lang_star_class in H2. split; [discriminate|].
    unfold PyStr.all_chars in *. simpl. now rewrite Hc.
  - intros [Hne Hall]. destruct s as [|c s]; [congruence|].
    unfold PyStr.all_chars in Hall. simpl in Hall.
    apply andb_true_iff in Hall as [Hc Hs].
    apply (lang_cat (Class p) (Star (Class p)) (String c "") s);
      [now constructor | now apply lang_star_class].
Qed.

(** The words of the pattern are the paths of the junk shape. *)
Lemma junk_page_re_shape (path : string) :
  lang junk_page_re path <-> junk_shape path.
Proof.
  unfold junk_page_re, junk_shape, Opt. split.
  - intros (s0 & t0 & -> & H0 & H)%lang_cat_inv.
    apply lang_class_inv in H0 as (c & -> & Hc). apply Ascii.eqb_eq in Hc as <-.
    apply lang_cat_inv in H as (ds & t1 & -> & Hds & H).
    apply lang_cat_inv in H as (suffix & t2 & -> & Hsuf & Hlit).
    apply lang_lit in Hlit as ->. apply lang_plus_class in Hds as [Hne Hds].
    exists ds, suffix. repeat split; auto.
    apply lang_alt_inv in Hsuf as [Hsuf | ->%lang_eps_inv]; [right | now left].
    apply lang_cat_inv in Hsuf as (d & hs & -> & Hd & Hhs).
    apply lang_class_inv in Hd as (c & -> & Hc). apply Ascii.eqb_eq in Hc as <-.
    apply lang_plus_class in Hhs as [Hhne Hhs]. eauto.
  - intros (ds & suffix & -> & Hne & Hds & Hsuf).
    apply (lang_cat (Chr "/") _ "/" (ds ++ suffix ++ ".html")).
    { constructor. reflexivity. }
    apply lang_cat; [now apply lang_plus_class|].
    apply lang_cat; [|now apply lang_lit].
    destruct Hsuf as [-> | (hs & -> & Hhne & Hhs)].
    + apply lang_alt_r. constructor.
    + apply lang_alt_l. apply (lang_cat (Chr ".") _ "." hs).
      * constructor. reflexivity.
      * now apply lang_plus_class.
Qed.

Lemma chomp_append_lf (s : string) : chomp (s ++ String "010" "") = Some s.
Proof.
  induction s as [|c s IH]; [reflexivity|].
  simpl. destruct (s ++ String "010" "") as [|c2 t] eqn:E.
  - destruct s; discriminate.
  - rewrite IH. reflexivity.
Qed.

Lemma chomp_spec (s s' : string) :
  chomp s = Some s' <-> s = s' ++ String "010" "".
Proof.
  split; [|intros ->; apply chomp_append_lf].
  revert s'. induction s as [|c s IH]; intros s'; [discriminate|].
  simpl. destruct s as [|c2 s2].
  - destruct (Ascii.eqb_spec c "010") as [->|Hc]; [|discriminate].
    now intros [= <-].
  - destruct (chomp (String c2 s2)) as [t|]; [|discriminate].
    intros [= <-]. simpl. f_equal. now apply IH.
Qed.

Lemma has_char_append_r (c : ascii) (s1 s2 : string) :
  PyStr.has_char c s2 = true -> PyStr.has_char c (s1 ++ s2) = true.
Proof.
  unfold PyStr.has_char. rewrite list_ascii_app, existsb_app.
  intros ->. apply orb_true_r.
Qed.

(** What [is_junk_page] accepts, for every string. *)
Lemma is_junk_page_spec (path : string) :
  is_junk_page path = true <->
  junk_shape path \/ exists q, path = q ++ String "010" "" /\ junk_shape q.
Proof.
  unfold is_junk_page, match_anchored.
  rewrite orb_true_iff, fullmatch_lang, junk_page_re_shape.
  split; (intros [H|H]; [now left | right]).
  - destruct (chomp path) as [q|] eqn:Eq; [|discriminate].
    apply chomp_spec in Eq. apply fullmatch_lang, junk_page_re_shape in H. eauto.
  - destruct H as (q & Eq & H). apply chomp_spec in Eq. rewrite Eq.
    now apply fullmatch_lang, junk_page_re_shape.
Qed.

Lemma all_chars_has_char (p : ascii -> bool) (c : ascii) (s : string) :
  p c = false -> PyStr.all_chars p s = true -> PyStr.has_char c s = false.
Proof.
  unfold PyStr.all_chars, PyStr.has_char. intros Hc.
  induction (list_ascii_of_string s) as [|a l IH]; simpl; [reflexivity|].
  intros [Ha Hl]%andb_true_iff. rewrite (IH Hl), orb_false_r.
  destruct (Ascii.eqb_spec c a) as [->|]; congruence.
Qed.

(** A path of the junk shape is one segment: its only slash leads it. *)
Lemma junk_shape_one_segment (path : string) :
  junk_shape path ->
  exists seg, path = String "/" seg /\ PyStr.has_char "/" seg = false.
Proof.
  intros (ds & suffix & -> & _ & Hds & Hsuf).
  exists (ds ++ suffix ++ ".html"). split; [reflexivity|].
  unfold PyStr.has_char. rewrite !list_ascii_app, !existsb_app.
  fold (PyStr.has_char "/" ds) (PyStr.has_char "/" suffix).
  rewrite (all_chars_has_char is_digit "/" ds eq_refl Hds).
  destruct Hsuf as [-> | (hs & -> & _ & Hhs)]; [reflexivity|].
  unfold PyStr.has_char. rewrite list_ascii_app, existsb_app.
  fold (PyStr.has_char "/" hs).
  now rewrite (all_chars_has_char is_hex "/" hs eq_refl Hhs).
Qed.

(** C6. The junk-page test accepts [/123.abcdef.html] and rejects
    [/about.html] and the two-segment [/12/report.html]; on a path without
    a line feed (as [urlparse] delivers it) it accepts exactly the paths
    [/] digits [.html] and [/] digits [.] hex-suffix [.html], the suffix
    being a non-empty run of the characters [0-9a-f]; such a path has a
    single segment. *)
Theorem C6_is_junk_page_shape :
  is_junk_page "/123.abcdef.html" = true
  /\ is_junk_page "/about.html" = false
  /\ is_junk_page "/12/report.html" = false
  /\ (forall path, PyStr.has_char "010" path = false ->
                   (is_junk_page path = true <-> junk_shape path))
  /\ (forall path, junk_shape path ->
        exists seg, path = String "/" seg /\ PyStr.has_char "/" seg = false).
Proof.
  split; [reflexivity|]. split; [reflexivity|]. split; [reflexivity|].
  split; [|exact junk_shape_one_segment].
  intros path Hlf. rewrite is_junk_page_spec. split; [|now left].
  intros [H | (q & -> & _)]; [exact H|].
  rewrite has_char_append_r in Hlf; [discriminate | reflexivity].
Qed.

Lemma C6_is_junk_page_shape_witness :
  PyStr.has_char "010" "/404.1f3a.html" = false
  /\ (is_junk_page "/404.1f3a.html" = true <-> junk_shape "/404.1f3a.html").
Proof.
  split; [reflexivity|].
  apply (proj1 (proj2 (proj2 (proj2 C6_is_junk_page_shape)))). reflexivity.
Defined.

End UrlFilterFacts.

(** ** The label scanner *)

Module LabelFacts.
Import WebScraper.

(** On tokens that are not blank, skipping the bare colons yields the next
    token that is neither a colon nor blank. *)
Lemma skip_colons_next_value (after : list string) :
  forallb nonblank after = true -> skip_colons after = next_value after.
Proof.
  unfold next_value. induction after as [|t after IH]; simpl; [reflexivity|].
  intros [Ht Hafter]%andb_true_iff. unfold nonblank in Ht.
  destruct (String.eqb (PyStr.strip t) ":") eqn:Ecolon; simpl.
  - now apply IH.
  - rewrite Ht. reflexivity.
Qed.

(** Tokens before the first hit are passed over. *)
Lemma find_label_value_skip (pre rest : list string) (label_base : string) :
  existsb (label_hit label_base) pre = false ->
  find_label_value_tokens (pre ++ rest) label_base
  = find_label_value_tokens rest label_base.
Proof.
  induction pre as [|p pre IH]; simpl; [reflexivity|].
  intros [Hp Hpre]%orb_false_iff. unfold label_hit in Hp.
  apply orb_false_iff in Hp as [-> ->]. now apply IH.
Qed.

(** *** The tokens of a document *)

Lemma lstrip_head (s : string) :
  PyStr.lstrip s = ""
  \/ exists c r, PyStr.lstrip s = String c r /\ PyStr.is_space c = false.
Proof.
  induction s as [|c s IH]; simpl; [now left|].
  destruct (PyStr.is_space c) eqn:Hc; [exact IH|]. right. eauto.
Qed.

Lemma rstrip_head (c : ascii) (r : string) :
  PyStr.is_space c = false ->
  exists r', PyStr.rstrip (String c r) = String c r'.
Proof.
  intros Hc. simpl. destruct (PyStr.rstrip r); [rewrite Hc|]; eauto.
Qed.

Lemma rstrip_idempotent (s : string) :
  PyStr.rstrip (PyStr.rstrip s) = PyStr.rstrip s.
Proof.
  induction s as [|c s IH]; simpl; [reflexivity|].
  destruct (PyStr.rstrip s) as [|c' s'] eqn:Es.
  - destruct (PyStr.is_space c) eqn:Hc; simpl; [reflexivity|]. now rewrite Hc.
  - change (PyStr.rstrip (String c (String c' s')))
      with (match PyStr.rstrip (String c' s') with
            | "" => if PyStr.is_space c then "" else String c ""
            | r' => String c r'
            end).
    now rewrite IH.
Qed.

Lemma strip_idempotent (s : string) :
  PyStr.strip (PyStr.strip s) = PyStr.strip s.
Proof.
  unfold PyStr.strip.
  destruct (lstrip_head s) as [-> | (c & r & -> & Hc)]; [reflexivity|].
  destruct (rstrip_head c r Hc) as [r' E]. rewrite E.
  simpl PyStr.lstrip. rewrite Hc, <- E. apply rstrip_idempotent.
Qed.

(** The tokens of [soup.stripped_strings] are stripped and not blank. *)
Lemma stripped_strings_nonblank (soup : Bs4.soup) :
  forallb nonblank (Bs4.stripped_strings soup) = true
  /\ Forall (fun t => PyStr.strip t = t) (Bs4.stripped_strings soup).
Proof.
  unfold Bs4.stripped_strings, Bs4.stripped.
  induction (flat_map Bs4.all_strings soup) as [|s ss [IH1 IH2]]; simpl.
  - split; [reflexivity | constructor].
  - destruct (String.eqb (PyStr.strip s) "") eqn:E; simpl; [auto|].
    unfold nonblank at 1. rewrite strip_idempotent, E. simpl.
    split; [exact IH1|]. constructor; [apply strip_idempotent | exact IH2].
Qed.

(** C2. [_find_label_value] on the tokens [Serienummer], [:],
    [Rapport 2024:17] and on the single token
    [Serienummer: Rapport 2024:17] returns [Rapport 2024:17], and nothing on
    [Serienummer] alone.  In general, on a sequence of stripped (non-blank)
    tokens whose first hit is a token equal to the label up to case, the
    result is the next token after it that is neither a bare colon nor
    blank, and nothing when no such token remains; the tokens of a parsed
    document are never blank. *)
Theorem C2_find_label_value :
  find_label_value_tokens ["Serienummer"; ":"; "Rapport 2024:17"] "Serienummer"
  = Some "Rapport 2024:17"
  /\ find_label_value_tokens ["Serienummer: Rapport 2024:17"] "Serienummer"
     = Some "Rapport 2024:17"
  /\ find_label_value_tokens ["Serienummer"] "Serienummer" = None
  /\ (forall (label_base : string) (pre : list string) (t : string)
             (after : list string),
      forallb nonblank (pre ++ t :: after) = true ->
      existsb (label_hit label_base) pre = false ->
      PyStr.lower (PyStr.strip t) = PyStr.lower label_base ->
      find_label_value_tokens (pre ++ t :: after) label_base = next_value after)
  /\ (forall soup : Bs4.soup,
        forallb nonblank (Bs4.stripped_strings soup) = true).
Proof.
  split; [reflexivity|]. split; [reflexivity|]. split; [reflexivity|].
  split; [|intros soup; apply stripped_strings_nonblank].
  intros label_base pre t after Hnb Hpre Ht.
  rewrite forallb_app in Hnb. apply andb_true_iff in Hnb as [_ Hnb].
  simpl in Hnb. apply andb_true_iff in Hnb as [_ Hafter].
  rewrite find_label_value_skip by exact Hpre.
  simpl. rewrite Ht, String.eqb_refl. now apply skip_colons_next_value.
Qed.

(** On a document the tokens are never blank, so the same holds of
    [_find_label_value] on every parsed tree. *)
Lemma find_label_value_on_document (soup : Bs4.soup) (label_base : string)
  (pre : list string) (t : string) (after : list string) :
  Bs4.stripped_strings soup = (pre ++ t :: after)%list ->
  existsb (label_hit label_base) pre = false ->
  PyStr.lower t = PyStr.lower label_base ->
  _find_label_value soup label_base = next_value after.
Proof.
  intros Htokens Hpre Ht. unfold _find_label_value.
  destruct (stripped_strings_nonblank soup) as [Hnb Hstripped].
  rewrite Htokens in Hnb, Hstripped |- *.
  rewrite forallb_app in Hnb. apply andb_true_iff in Hnb as [_ Hnb].
  simpl in Hnb. apply andb_true_iff in Hnb as [_ Hafter].
  apply Forall_app in Hstripped as [_ Hstripped].
  apply Forall_cons in Hstripped as [Hstrip _].
  rewrite find_label_value_skip by exact Hpre.
  simpl. rewrite Hstrip, Ht, String.eqb_refl. now apply skip_colons_next_value.
Qed.

Lemma C2_find_label_value_witness :
  find_label_value_tokens
    (["Publikation"; "Diarienummer:"] ++ "SERIENUMMER" :: [":"; ":"; "Rapport 2024:17"; "x"])
    "Serienummer"
  = Some "Rapport 2024:17".
Proof.
  exact (proj1 (proj2 (proj2 (proj2 C2_find_label_value)))
           "Serienummer" ["Publikation"; "Diarienummer:"] "SERIENUMMER"
           [":"; ":"; "Rapport 2024:17"; "x"] eq_refl eq_refl eq_refl).
Defined.

End LabelFacts.

(** ** Entry extraction and listing pagination *)

Module ScraperFacts.
Import Bs4 WebScraper.

Lemma existsb_url_false (reports : list report) (u : string) :
  existsb (fun r => String.eqb (url r) u) reports = false ->
  ~ In u (map url reports).
Proof.
  induction reports as [|r reports IH]; simpl; [tauto|].
  intros [Hr Hrest]%orb_false_iff [E|Hin]; [|now apply IH].
  rewrite E, String.eqb_refl in Hr. discriminate.
Qed.

(** One iteration over a time tag keeps the URLs of the entries distinct. *)
Lemma extract_step_nodup (reports : list report) (tt : node * list node) :
  List.NoDup (map url reports) -> List.NoDup (map url (extract_step reports tt)).
Proof.
  intros Hnd. unfold extract_step. destruct tt as [time_tag prev].
  destruct (find_previous "a" "/publikationer/" prev) as [link_tag|]; [|exact Hnd].
  destruct (get link_tag "href") as [href|]; [|exact Hnd].
  destruct (String.eqb href ""); [exact Hnd|].
  destruct (Nat.ltb 2 _); [|exact Hnd].
  destruct (bool_decide _); [|exact Hnd].
  set (full_url := if PyStr.startswith href "http" then href else _).
  destruct (existsb _ reports) eqn:Hex; simpl; [exact Hnd|].
  rewrite map_app. simpl. apply List.NoDup_app.
  - exact Hnd.
  - repeat constructor. simpl. tauto.
  - intros u Hu [<-|[]]. now apply existsb_url_false in Hex.
Qed.

Lemma fold_extract_step_nodup (tts : list (node * list node)) (reports : list report) :
  List.NoDup (map url reports) ->
  List.NoDup (map url (fold_left extract_step tts reports)).
Proof.
  revert reports. induction tts as [|tt tts IH]; intros reports Hnd; simpl.
  - exact Hnd.
  - apply IH, extract_step_nodup, Hnd.
Qed.

Lemma extract_report_links_nodup (listing_html : Html) :
  List.NoDup (map url (extract_report_links listing_html)).
Proof.
  unfold extract_report_links. apply fold_extract_step_nodup. constructor.
Qed.

(** An iteration appends at most one entry, and only one whose URL is new. *)
Lemma extract_step_appends (reports : list report) (tt : node * list node) :
  extract_step reports tt = reports
  \/ exists r, extract_step reports tt = (reports ++ [r])%list
               /\ ~ In (url r) (map url reports).
Proof.
  unfold extract_step. destruct tt as [time_tag prev].
  destruct (find_previous "a" "/publikationer/" prev) as [link_tag|]; [|now left].
  destruct (get link_tag "href") as [href|]; [|now left].
  destruct (String.eqb href ""); [now left|].
  destruct (Nat.ltb 2 _); [|now left].
  destruct (bool_decide _); [|now left].
  set (full_url := if PyStr.startswith href "http" then href else _).
  destruct (existsb _ reports) eqn:Hex; simpl; [now left|].
  right. eexists. split; [reflexivity|]. simpl. now apply existsb_url_false.
Qed.

(** C8. The entries [extract_report_links] returns for one listing page
    have pairwise distinct URLs: each iteration either leaves the list as it
    is or appends one entry whose URL no earlier entry of the call has. *)
Theorem C8_extract_report_links_distinct_urls :
  (forall listing_html : Html,
      List.NoDup (map url (extract_report_links listing_html)))
  /\ (forall (reports : list report) (tt : node * list node),
         extract_step reports tt = reports
         \/ exists r, extract_step reports tt = (reports ++ [r])%list
                      /\ ~ In (url r) (map url reports)).
Proof.
  split; [exact extract_report_links_nodup | exact extract_step_appends].
Qed.

(** *** Substrings *)

Lemma startswith_spec (s p : string) :
  PyStr.startswith s p = true <-> exists post, s = p ++ post.
Proof.
  revert s. induction p as [|a p IH]; intros s; simpl.
  - split; [eauto | reflexivity].
  - destruct s as [|b s].
    + split; [discriminate | intros [post E]; discriminate].
    + rewrite andb_true_iff, IH. split.
      * intros [->%Ascii.eqb_eq [post ->]]. eauto.
      * intros [post [= -> ->]]. split; [apply Ascii.eqb_refl | eauto].
Qed.

(** [p in s] holds exactly when [p] occurs somewhere in [s]. *)
Lemma contains_spec (s p : string) :
  PyStr.contains s p = true <-> exists pre post, s = pre ++ p ++ post.
Proof.
  induction s as [|c s IH]; simpl.
  - rewrite orb_false_r, startswith_spec. split.
    + intros [post E]. exists "", post. exact E.
    + intros (pre & post & E). symmetry in E.
      apply append_eq_nil in E as [-> E]. simpl in E.
      apply append_eq_nil in E as [-> ->]. now exists "".
  - rewrite orb_true_iff, startswith_spec, IH. split.
    + intros [[post E] | (pre & post & ->)].
      * exists "", post. exact E.
      * now exists (String c pre), post.
    + intros (pre & post & E). destruct pre as [|a pre]; simpl in E.
      * left. eauto.
      * right. injection E as <- ->. eauto.
Qed.

(** *** Validity of a listing page *)

Lemma is_valid_listing_page_spec (html : Html) :
  is_valid_listing_page html = true <->
  exists tag, In tag (descendants (parsed html)) /\ marker_heading tag.
Proof.
  unfold is_valid_listing_page, find, marker_heading.
  destruct (List.find _ _) as [tag|] eqn:Hfind; split; try reflexivity.
  - intros _. apply find_some in Hfind as [Hin Htag].
    apply andb_true_iff in Htag as [Htag [Hname Htext]%andb_true_iff].
    exists tag. repeat split; auto.
    + now apply bool_decide_eq_true in Hname.
    + now apply contains_spec.
  - discriminate.
  - intros (tag & Hin & Htag & Hname & Htext).
    apply (find_none _ _ Hfind) in Hin. simpl in Hin.
    rewrite Htag, (proj2 (contains_spec _ _) Htext) in Hin.
    rewrite (bool_decide_eq_true_2 _ Hname) in Hin. discriminate.
Qed.

(** *** The pagination loop *)

Section Pagination.
Variable get_html : string -> loaded.
Variable listing_url : string.

Abbreviation page_url := (paginated_url listing_url).
Abbreviation loop := (listing_loop get_html listing_url).

(** A page without the marker ends the loop with the pages gathered so
    far. *)
Lemma listing_loop_stops_invalid (fuel current_page : nat)
  (all_listing_htmls : list Html) (html : Html) :
  get_html (page_url current_page) = Content html ->
  is_valid_listing_page html = false ->
  loop (S fuel) current_page all_listing_htmls = Some (Return all_listing_htmls).
Proof. intros Hget Hinv. simpl. now rewrite Hget, Hinv. Qed.

(** A page load that raises ends the loop with the exception. *)
Lemma listing_loop_load_error (fuel current_page : nat)
  (all_listing_htmls : list Html) :
  get_html (page_url current_page) = LoadError ->
  loop (S fuel) current_page all_listing_htmls = Some Raise.
Proof. intros Hget. simpl. now rewrite Hget. Qed.

Lemma listing_loop_valid_prefix (pages : nat -> Html) (N : nat) (last : Html) :
  get_html (page_url N) = Content last ->
  is_valid_listing_page last = false ->
  forall (d j fuel : nat) (acc : list Html),
    pages_continue get_html listing_url pages j N -> j + d = N -> d < fuel ->
    loop fuel j acc = Some (Return (acc ++ map pages (seq j d))%list).
Proof.
  intros Hlast Hinv. induction d as [|d IH]; intros j fuel acc Hpages Hj Hfuel.
  - destruct fuel as [|fuel]; [lia|]. rewrite Nat.add_0_r in Hj. subst j.
    simpl map. rewrite app_nil_r. now apply listing_loop_stops_invalid with last.
  - destruct fuel as [|fuel]; [lia|].
    destruct (Hpages j ltac:(lia)) as (Hget & Hvalid & Hlen & Hentries).
    simpl. rewrite Hget, Hvalid. simpl.
    destruct (Nat.ltb_spec (len (pages j)) 1000) as [|_]; [lia|].
    destruct (extract_report_links (pages j)) as [|r rs] eqn:Er; [congruence|].
    simpl. rewrite Nat.add_1_r, IH.
    + now rewrite <- app_assoc.
    + intros k Hk. apply Hpages. lia.
    + lia.
    + lia.
Qed.

(** What the loop hands back are pages it appended: the result extends the
    accumulator. *)
Lemma listing_loop_extends (fuel current_page : nat) (acc htmls : list Html) :
  loop fuel current_page acc = Some (Return htmls) ->
  exists more, htmls = (acc ++ more)%list.
Proof.
  revert current_page acc. induction fuel as [|fuel IH]; intros cp acc; simpl.
  - discriminate.
  - destruct (get_html (page_url cp)) as [html|]; [|discriminate].
    destruct (negb (is_valid_listing_page html)).
    { intros [= <-]. exists []. now rewrite app_nil_r. }
    destruct (Nat.ltb (len html) 1000).
    { intros [= <-]. exists []. now rewrite app_nil_r. }
    destruct (Nat.ltb _ 1).
    { intros [= <-]. now exists [html]. }
    intros H. apply IH in H as [more ->]. exists (html :: more).
    now rewrite <- app_assoc.
Qed.

End Pagination.

Lemma flat_map_map {A B C : Type} (f : B -> list C) (g : A -> B) (l : list A) :
  flat_map f (map g l) = flat_map (fun x => f (g x)) l.
Proof. induction l as [|x l IH]; simpl; [reflexivity | now rewrite IH]. Qed.

(** C3. When the listing pages 1, ..., N-1 are valid (marker heading, at
    least 1000 characters, at least one entry) and page N has no marker
    heading, [fetch_listing_pages] returns the pages 1, ..., N-1 in order,
    and the entries [main] extracts are those of the pages 1, ..., N-1 in
    page order: page N gives none. *)
Theorem C3_pagination_stops_before_invalid_page
  (get_html : string -> loaded) (listing_url : string)
  (pages : nat -> Html) (N fuel : nat) (last : Html) :
  1 <= N ->
  pages_continue get_html listing_url pages 1 N ->
  get_html (paginated_url listing_url N) = Content last ->
  is_valid_listing_page last = false ->
  N <= fuel ->
  fetch_listing_pages get_html listing_url fuel
  = Some (Return (map pages (seq 1 (N - 1))))
  /\ main_report_entries get_html listing_url fuel
     = Some (Return (flat_map (fun k => extract_report_links (pages k))
                       (seq 1 (N - 1)))).
Proof.
  intros HN Hpages Hlast Hinv Hfuel.
  assert (Hloop : fetch_listing_pages get_html listing_url fuel
                  = Some (Return (map pages (seq 1 (N - 1))))).
  { unfold fetch_listing_pages.
    rewrite (listing_loop_valid_prefix get_html listing_url pages N last
               Hlast Hinv (N - 1) 1 fuel []); [reflexivity | exact Hpages | lia | lia]. }
  split; [exact Hloop|].
  unfold main_report_entries. rewrite Hloop. now rewrite flat_map_map.
Qed.

Lemma C3_pagination_stops_before_invalid_page_witness :
  fetch_listing_pages Samples.site Samples.listing 3
  = Some (Return (map Samples.site_pages (seq 1 (3 - 1))))
  /\ main_report_entries Samples.site Samples.listing 3
     = Some (Return (flat_map (fun k => extract_report_links (Samples.site_pages k))
                       (seq 1 (3 - 1)))).
Proof.
  apply (C3_pagination_stops_before_invalid_page
           Samples.site Samples.listing Samples.site_pages 3 3
           Samples.past_last_page).
  - lia.
  - intros k Hk. assert (k = 1 \/ k = 2) as [-> | ->] by lia.
    + repeat split; [simpl; lia | discriminate].
    + repeat split; [simpl; lia | discriminate].
  - reflexivity.
  - reflexivity.
  - lia.
Defined.

(** *** The entries of a session *)

Lemma count_urls_le_pages (listing_htmls : list Html) (u : string) :
  count_occ string_dec (map url (flat_map extract_report_links listing_htmls)) u
  <= List.length listing_htmls.
Proof.
  induction listing_htmls as [|html htmls IH]; simpl; [lia|].
  rewrite map_app, count_occ_app.
  pose proof (proj1 (List.NoDup_count_occ string_dec _)
                (extract_report_links_nodup html) u) as Hone.
  lia.
Qed.

(** C9 as the code has it.  The entries of a pagination session are the
    entries of the fetched listing pages, page after page; duplicates are
    suppressed within a page only, so a URL occurs at most once for each
    fetched page. *)
Theorem C9_session_entries_once_per_page
  (get_html : string -> loaded) (listing_url : string) (fuel : nat)
  (entries : list report) :
  main_report_entries get_html listing_url fuel = Some (Return entries) ->
  exists listing_htmls,
    fetch_listing_pages get_html listing_url fuel = Some (Return listing_htmls)
    /\ entries = flat_map extract_report_links listing_htmls
    /\ (forall html, In html listing_htmls ->
                     List.NoDup (map url (extract_report_links html)))
    /\ forall u, count_occ string_dec (map url entries) u
                 <= List.length listing_htmls.
Proof.
  unfold main_report_entries.
  destruct (fetch_listing_pages get_html listing_url fuel) as [[htmls|]|];
    try discriminate.
  intros [= <-]. exists htmls. repeat split.
  - intros html _. apply extract_report_links_nodup.
  - intros u. apply count_urls_le_pages.
Qed.

Lemma C9_session_entries_once_per_page_witness :
  exists listing_htmls,
    fetch_listing_pages Samples.site Samples.listing 3 = Some (Return listing_htmls)
    /\ flat_map extract_report_links [Samples.page_a; Samples.page_b]
       = flat_map extract_report_links listing_htmls
    /\ (forall html, In html listing_htmls ->
                     List.NoDup (map url (extract_report_links html)))
    /\ forall u,
        count_occ string_dec
          (map url (flat_map extract_report_links [Samples.page_a; Samples.page_b])) u
        <= List.length listing_htmls.
Proof.
  apply (C9_session_entries_once_per_page Samples.site Samples.listing 3).
  reflexivity.
Defined.

(** C9 as stated fails: on [Samples.site] the second listing page repeats
    the report of the first, and the session lists its URL twice. *)
Lemma C9_session_entries_repeat_across_pages :
  ~ (forall (get_html : string -> loaded) (listing_url : string) (fuel : nat)
            (entries : list report),
        main_report_entries get_html listing_url fuel = Some (Return entries) ->
        List.NoDup (map url entries)).
Proof.
  intros H.
  specialize (H Samples.site Samples.listing 3 _ eq_refl).
  vm_compute in H.
  apply List.NoDup_cons_iff in H as [Hnotin _].
  apply Hnotin. right. left. reflexivity.
Qed.

(** C10. A listing page is valid exactly when an [h1], [h2] or [h3]
    element of it has a text that contains [Publikationer]; a page with the
    phrase in [h4], [h5], [h6], a paragraph and an attribute only is not
    valid; and the pagination loop stops at a page without such a heading,
    returning the pages gathered before it. *)
Theorem C10_validity_decided_by_h1_h2_h3 :
  (forall html : Html,
      is_valid_listing_page html = true <->
      exists tag, In tag (descendants (parsed html)) /\ marker_heading tag)
  /\ is_valid_listing_page Samples.marker_elsewhere = false
  /\ (forall (get_html : string -> loaded) (listing_url : string)
             (fuel current_page : nat) (all_listing_htmls : list Html)
             (html : Html),
         get_html (paginated_url listing_url current_page) = Content html ->
         ~ (exists tag, In tag (descendants (parsed html)) /\ marker_heading tag) ->
         listing_loop get_html listing_url (S fuel) current_page all_listing_htmls
         = Some (Return all_listing_htmls)).
Proof.
  split; [exact is_valid_listing_page_spec|]. split; [reflexivity|].
  intros get_html listing_url fuel current_page acc html Hget Hno.
  apply listing_loop_stops_invalid with html; [exact Hget|].
  destruct (is_valid_listing_page html) eqn:Hvalid; [|reflexivity].
  exfalso. apply Hno. now apply is_valid_listing_page_spec.
Qed.

Lemma C10_validity_decided_by_h1_h2_h3_witness :
  listing_loop Samples.site_marker_elsewhere Samples.listing 1 2 [Samples.page_a]
  = Some (Return [Samples.page_a]).
Proof.
  apply (proj2 (proj2 C10_validity_decided_by_h1_h2_h3)
           Samples.site_marker_elsewhere Samples.listing 0 2 [Samples.page_a]
           Samples.marker_elsewhere).
  - reflexivity.
  - intros Hex. apply is_valid_listing_page_spec in Hex. discriminate.
Defined.

End ScraperFacts.

(** ** The traversal *)

Module CrawlFacts.
Import Bs4 UrlFilter PdfCrawler.
Local Open Scope list_scope.

Section Crawl.

Variable urljoin : string -> string -> option string.
Variable urlparse : string -> option ParseResult.
Variable requests_get : string -> got.
Variable base_url : string.
Variable max_depth : Z.

Abbreviation crawl_link' := (crawl_link urljoin urlparse base_url max_depth).
Abbreviation loop_body' := (loop_body urljoin urlparse requests_get base_url max_depth).
Abbreviation resolve' := (resolve urljoin).
Abbreviation is_page' := (is_page_link urlparse base_url max_depth).
Abbreviation is_document' := (is_document_link urlparse base_url).
Abbreviation reachable' := (reachable urljoin urlparse requests_get base_url max_depth).

Abbreviation crawl_links' := (crawl_links urljoin urlparse base_url max_depth).
Abbreviation link_url' := (link_url urljoin urlparse base_url).
Abbreviation processed' := (processed urljoin urlparse base_url).
Abbreviation raises_on' := (raises_on urljoin urlparse base_url).
Abbreviation uncaught' := (uncaught urljoin urlparse requests_get base_url).
Abbreviation skip' := skip.
Abbreviation visit' := (visit urljoin urlparse requests_get base_url max_depth).

(** The body of the [for] loop raises on the links that have no URL. *)
Lemma crawl_link_raises (final_url : string) (depth : Z) (st : state)
  (link : node) :
  crawl_link' final_url depth st link = None
  <-> link_url' final_url link = None.
Proof.
  unfold crawl_link, link_url.
  destruct (resolve' final_url link) as [full|]; simpl; [|tauto].
  destruct (urlparse full) as [parsed|]; simpl; [|tauto].
  destruct (urlparse base_url) as [base|]; simpl; [|tauto].
  split; [|discriminate].
  repeat match goal with |- context [if ?b then _ else _] => destruct b end;
    discriminate.
Qed.

(** What one link adds to the state: a page link goes to [to_visit] and to
    the trace, a document link to [pdf_links]; the visited set stays. *)
Lemma crawl_link_step (final_url : string) (depth : Z) (st : state)
  (link : node) (full : string) :
  link_url' final_url link = Some full ->
  crawl_link' final_url depth st link
  = Some {| visited := visited st;
            to_visit :=
              to_visit st
              ++ (if is_page' (visited st) depth full
                  then [(full, (depth + 1)%Z)] else []);
            pdf_links :=
              pdf_links st ++ (if is_document' full then [(full, link)] else []);
            trace :=
              (if is_page' (visited st) depth full
               then [Enqueue full (depth + 1)%Z] else [])
              ++ trace st |}.
Proof.
  unfold crawl_link, link_url. intros Hurl.
  destruct (resolve' final_url link) as [full'|]; simpl in *; [|discriminate].
  destruct (urlparse full') as [parsed|] eqn:Hp; simpl in *; [|discriminate].
  destruct (urlparse base_url) as [base|] eqn:Hb; simpl in *; [|discriminate].
  injection Hurl as ->.
  unfold is_page_link, is_document_link, same_domain, junk_page.
  rewrite Hp, Hb.
  destruct (String.eqb (netloc parsed) (netloc base)); simpl;
    [|rewrite !app_nil_r; now destruct st].
  destruct (is_junk_page (path parsed)); simpl;
    [rewrite !app_nil_r; now destruct st|].
  destruct (is_target_document full); simpl;
    [rewrite !app_nil_r; reflexivity|].
  destruct (depth <? max_depth)%Z; simpl;
    [|rewrite !app_nil_r; now destruct st].
  destruct (bool_decide (full ∈ visited st)); simpl;
    [rewrite !app_nil_r; now destruct st|].
  rewrite !app_nil_r. reflexivity.
Qed.

(** What the links of one page add to the state: the page links go to
    [to_visit] and to the trace, the document links to [pdf_links], each in
    the order of the page; the visited set stays.  The links that count are
    those the loop gets through, and the loop ends in the exception when the
    body raises on a link. *)
Lemma crawl_links_spec (final_url : string) (depth : Z) (links : list node)
  (st : state) :
  crawl_links' final_url depth links st
  = (if raises_on' final_url links then Uncaught else Next)
      {| visited := visited st;
         to_visit :=
           to_visit st
           ++ map (fun p => (fst p, (depth + 1)%Z))
                (List.filter (fun p => is_page' (visited st) depth (fst p))
                   (processed' final_url links));
         pdf_links :=
           pdf_links st
           ++ List.filter (fun p => is_document' (fst p))
                (processed' final_url links);
         trace :=
           rev (map (fun p => Enqueue (fst p) (depth + 1)%Z)
                  (List.filter (fun p => is_page' (visited st) depth (fst p))
                     (processed' final_url links)))
           ++ trace st |}.
Proof.
  revert st. induction links as [|l links IH]; intros st; simpl.
  - rewrite !app_nil_r. now destruct st.
  - unfold raises_on. simpl. fold (raises_on' final_url links).
    destruct (link_url' final_url l) as [full|] eqn:Hurl.
    + rewrite (crawl_link_step final_url depth st l full Hurl), IH. simpl.
      destruct (is_page' (visited st) depth full);
        destruct (is_document' full); simpl;
        rewrite <- ?app_assoc; simpl; rewrite ?app_nil_r; reflexivity.
    + apply crawl_link_raises with (depth := depth) (st := st) in Hurl as Hraise.
      rewrite Hraise. simpl.
      rewrite !app_nil_r. now destruct st.
Qed.

(** The iteration that requests [u] ends with the state [visit] gives, and
    in an exception exactly when [uncaught u]. *)
Lemma loop_body_visit (st : state) (u : string) (d : Z)
  (rest : list (string * Z)) :
  to_visit st = (u, d) :: rest -> u ∉ visited st ->
  loop_body' st
  = (if uncaught' u then Uncaught else Next) (visit' st u d rest).
Proof.
  intros Hq Hvis. unfold loop_body. rewrite Hq.
  rewrite bool_decide_eq_false_2 by exact Hvis.
  assert (Hempty : page_anchors urljoin urlparse requests_get base_url u = [] ->
            visit' st u d rest
            = {| visited := {[u]} ∪ visited st; to_visit := rest;
                 pdf_links := pdf_links st; trace := Get u :: trace st |}).
  { intros He. unfold visit, new_entries, documents. rewrite He. simpl.
    now rewrite !app_nil_r. }
  unfold page_anchors in Hempty. unfold uncaught.
  destruct (requests_get u) as [response|] eqn:Hget.
  2:{ now rewrite Hempty. }
  destruct (ok response) eqn:Hok; simpl in *.
  2:{ now rewrite Hempty. }
  destruct (PyStr.contains (content_type response) "text/html") eqn:Hct;
    simpl in *.
  2:{ now rewrite Hempty. }
  destruct (decoded response) as [soup|] eqn:Hdec.
  2:{ now rewrite Hempty. }
  rewrite crawl_links_spec. simpl.
  unfold visit, new_entries, documents, page_anchors.
  rewrite Hget, Hok, Hct, Hdec. simpl. rewrite !map_map. simpl. reflexivity.
Qed.

Lemma loop_body_skip (st : state) (u : string) (d : Z)
  (rest : list (string * Z)) :
  to_visit st = (u, d) :: rest -> u ∈ visited st ->
  loop_body' st = Next (skip st rest).
Proof.
  intros Hq Hvis. unfold loop_body. rewrite Hq.
  now rewrite bool_decide_eq_true_2 by exact Hvis.
Qed.

(** An iteration that does not leave the loop takes the first entry of
    [to_visit] and either skips it, its URL being visited, or requests it;
    only the second can end in an exception. *)
Lemma loop_body_step (st : state) :
  match loop_body' st with
  | Exit => to_visit st = []
  | Next st' =>
      exists u d rest, to_visit st = (u, d) :: rest
        /\ (((u ∈ visited st) /\ st' = skip st rest)
            \/ ((u ∉ visited st) /\ st' = visit' st u d rest))
  | Uncaught st' =>
      exists u d rest, to_visit st = (u, d) :: rest
        /\ (u ∉ visited st) /\ st' = visit' st u d rest
  end.
Proof.
  destruct (to_visit st) as [|[u d] rest] eqn:Hq.
  { unfold loop_body. now rewrite Hq. }
  destruct (decide (u ∈ visited st)) as [Hvis|Hvis].
  - rewrite (loop_body_skip st u d rest Hq Hvis). exists u, d, rest. auto.
  - rewrite (loop_body_visit st u d rest Hq Hvis).
    destruct (uncaught' u); exists u, d, rest; auto.
Qed.

Abbreviation initial' := (initial base_url).
Abbreviation crawl_loop' := (crawl_loop urljoin urlparse requests_get base_url max_depth).
Abbreviation page_anchors' := (page_anchors urljoin urlparse requests_get base_url).
Abbreviation page_links' := (page_links urljoin urlparse requests_get base_url).
Abbreviation new_entries' := (new_entries urljoin urlparse requests_get base_url max_depth).
Abbreviation documents' := (documents urljoin urlparse requests_get base_url).

(** Induction over the states of a run, iteration by iteration. *)
Lemma reachable_steps (P : state -> Prop) :
  P initial' ->
  (forall st u d rest, reachable' st -> P st -> to_visit st = (u, d) :: rest ->
                       u ∈ visited st -> P (skip st rest)) ->
  (forall st u d rest, reachable' st -> P st -> to_visit st = (u, d) :: rest ->
                       u ∉ visited st -> P (visit' st u d rest)) ->
  forall st, reachable' st -> P st.
Proof.
  intros H0 Hs Hv st Hr.
  induction Hr as [|st st' Hr IH Hstep|st st' Hr IH Hstep].
  - exact H0.
  - pose proof (loop_body_step st) as H. rewrite Hstep in H.
    destruct H as (u & d & rest & Hq & [[Hin ->]|[Hnin ->]]); eauto.
  - pose proof (loop_body_step st) as H. rewrite Hstep in H.
    destruct H as (u & d & rest & Hq & Hnin & ->); eauto.
Qed.

Lemma in_new_entries (vis : gset string) (u : string) (d : Z) (p : string * Z) :
  In p (new_entries' vis u d) ->
  snd p = (d + 1)%Z /\ In (fst p) (page_links' u)
  /\ is_page' vis d (fst p) = true.
Proof.
  unfold new_entries, page_links. intros Hin.
  apply in_map_iff in Hin as ([full link] & <- & Hin).
  apply filter_In in Hin as [Hin Hpage]. simpl in *.
  repeat split; [|exact Hpage].
  apply in_map_iff. now exists (full, link).
Qed.

Lemma is_page_link_not_visited (vis : gset string) (d : Z) (full : string) :
  is_page' vis d full = true -> (full ∉ vis) /\ (d < max_depth)%Z.
Proof.
  unfold is_page_link. intros H.
  apply andb_true_iff in H as [_ H]. apply andb_true_iff in H as [Hd Hv].
  apply Z.ltb_lt in Hd. apply negb_true_iff, bool_decide_eq_false in Hv. auto.
Qed.

Abbreviation crawlable' := (crawlable urlparse base_url).
Abbreviation closed_graph' := (closed_graph urljoin urlparse requests_get base_url).
Abbreviation unvisited_links' := (unvisited_links urljoin urlparse requests_get base_url).

Lemma is_page_link_crawlable (vis : gset string) (d : Z) (full : string) :
  is_page' vis d full = true -> crawlable' full = true.
Proof.
  unfold is_page_link, crawlable. now intros [H _]%andb_true_iff.
Qed.

(** *** Requests and the visited set *)

Lemma requests_app (tr1 tr2 : list event) :
  requests (tr1 ++ tr2) = requests tr1 ++ requests tr2.
Proof. unfold requests. apply flat_map_app. Qed.

Lemma requests_enqueues (l : list (string * Z)) :
  requests (rev (map (fun p => Enqueue (fst p) (snd p)) l)) = [].
Proof.
  induction l as [|p l IH]; simpl; [reflexivity|].
  rewrite requests_app, IH. reflexivity.
Qed.

Lemma well_ordered_enqueues (l : list (string * Z)) (tr : list event) :
  well_ordered tr ->
  (forall p, In p l -> ~ In (fst p) (requests tr)) ->
  well_ordered (rev (map (fun p => Enqueue (fst p) (snd p)) l) ++ tr).
Proof.
  revert tr. induction l as [|p l IH]; intros tr Hwo Hnew; simpl; [exact Hwo|].
  rewrite <- app_assoc. apply IH.
  - simpl. split; [apply Hnew; now left | exact Hwo].
  - intros q Hq. simpl. apply Hnew. now right.
Qed.

Lemma well_ordered_nodup (tr : list event) :
  well_ordered tr -> List.NoDup (requests tr).
Proof.
  induction tr as [|[u|u d] tr IH]; simpl.
  - constructor.
  - intros [Hnew Hwo]. constructor; auto.
  - intros [_ Hwo]. auto.
Qed.

(** After a request for [u], no event requests [u] or appends it. *)
Lemma well_ordered_after (later earlier : list event) (u : string) :
  well_ordered (later ++ Get u :: earlier) ->
  ~ In (Get u) later /\ forall d, ~ In (Enqueue u d) later.
Proof.
  induction later as [|e later IH]; simpl; [tauto|].
  assert (Hu : In u (requests (later ++ Get u :: earlier))).
  { rewrite requests_app. apply in_or_app. right. now left. }
  destruct e as [v|v dv]; intros [Hnew Hwo]; destruct (IH Hwo) as [IH1 IH2];
    (split; [intros [E|Hin] | intros d [E|Hin]]);
    try (injection E as ->; contradiction); try discriminate;
    try contradiction; try (now apply (IH2 d)).
Qed.

Lemma visited_inv_reachable (st : state) : reachable' st -> visited_inv st.
Proof.
  apply reachable_steps.
  - split; [|exact I]. intros u. simpl. set_solver.
  - intros st0 u d rest _ IH _ _. exact IH.
  - intros st0 u d rest _ [Hvis Hwo] _ Hnew. split.
    + intros v. simpl. rewrite requests_app, requests_enqueues. simpl.
      rewrite elem_of_union, elem_of_singleton, Hvis. split; intros [H|H]; auto.
    + simpl. apply well_ordered_enqueues.
      * simpl. split; [now rewrite <- Hvis | exact Hwo].
      * intros p Hp. apply in_new_entries in Hp as (_ & _ & Hp).
        apply is_page_link_not_visited in Hp as [Hp _].
        simpl. intros [E|Hin]; apply Hp.
        -- rewrite <- E. apply elem_of_union_l, elem_of_singleton. reflexivity.
        -- apply elem_of_union_r, Hvis, Hin.
Qed.

(** *** Termination *)

Abbreviation weight' := (weight urljoin urlparse requests_get base_url).
Abbreviation budget' := (budget urljoin urlparse requests_get base_url max_depth).

Lemma weight_pos (k : nat) (u : string) : 1 <= weight' k u.
Proof. destruct k; simpl; lia. Qed.

Lemma budget_app (q1 q2 : list (string * Z)) :
  budget' (q1 ++ q2) = budget' q1 + budget' q2.
Proof. unfold budget. now rewrite map_app, list_sum_app. Qed.

Lemma list_sum_filter_le {A : Type} (f : A -> nat) (P : A -> bool) (l : list A) :
  list_sum (map f (List.filter P l)) <= list_sum (map f l).
Proof.
  induction l as [|x l IH]; simpl; [lia|]. destruct (P x); simpl; lia.
Qed.

(** The entries a page adds weigh less than the entry of the page. *)
Lemma budget_new_entries (vis : gset string) (u : string) (d : Z) :
  budget' (new_entries' vis u d) < weight' (Z.to_nat (max_depth - d)) u.
Proof.
  unfold new_entries, budget. rewrite map_map. simpl.
  destruct (Z.ltb_spec d max_depth) as [Hd|Hd].
  - replace (Z.to_nat (max_depth - d)) with (S (Z.to_nat (max_depth - (d + 1))))
      by lia.
    simpl. unfold page_links. rewrite map_map.
    apply Nat.lt_succ_r, list_sum_filter_le.
  - rewrite (List.filter_ext _ (fun _ => false)), List.filter_false.
    + simpl. apply weight_pos.
    + intros p. unfold is_page_link.
      destruct (Z.ltb_spec d max_depth); [lia|].
      simpl. now rewrite andb_false_r.
Qed.

(** Every iteration lowers the budget of [to_visit]. *)
Lemma loop_body_budget (st st' : state) :
  loop_body' st = Next st' -> budget' (to_visit st') < budget' (to_visit st).
Proof.
  intros Hstep. pose proof (loop_body_step st) as H. rewrite Hstep in H.
  destruct H as (u & d & rest & Hq & [[_ ->]|[_ ->]]); rewrite Hq; simpl.
  - unfold budget at 2. simpl. fold (budget' rest).
    pose proof (weight_pos (Z.to_nat (max_depth - d)) u). lia.
  - rewrite budget_app. unfold budget at 3. simpl. fold (budget' rest).
    pose proof (budget_new_entries ({[u]} ∪ visited st) u d). lia.
Qed.

Lemma crawl_loop_terminates (fuel : nat) (st : state) :
  budget' (to_visit st) < fuel -> exists e, crawl_loop' fuel st = Some e.
Proof.
  revert st. induction fuel as [|fuel IH]; intros st Hfuel; [lia|].
  simpl. destruct (loop_body' st) as [|st'|st'] eqn:Hstep; eauto.
  apply IH. apply loop_body_budget in Hstep. lia.
Qed.

Lemma crawl_loop_more_fuel (fuel fuel' : nat) (st : state) (e : ending) :
  crawl_loop' fuel st = Some e -> fuel <= fuel' -> crawl_loop' fuel' st = Some e.
Proof.
  revert fuel' st. induction fuel as [|fuel IH]; intros fuel' st; [discriminate|].
  intros Hrun Hle. destruct fuel' as [|fuel']; [lia|]. simpl in *.
  destruct (loop_body' st); auto. apply IH; [exact Hrun | lia].
Qed.

Lemma crawl_loop_reachable (fuel : nat) (st : state) (e : ending) :
  reachable' st -> crawl_loop' fuel st = Some e -> reachable' (final_state e).
Proof.
  revert st. induction fuel as [|fuel IH]; intros st Hr; [discriminate|].
  simpl. destruct (loop_body' st) as [|st'|st'] eqn:Hstep.
  - intros [= <-]. exact Hr.
  - apply IH. now apply reachable_next with st.
  - intros [= <-]. now apply reachable_uncaught with st.
Qed.

(** When the loop ends without an exception, [to_visit] is empty. *)
Lemma crawl_loop_finished (fuel : nat) (st st' : state) :
  crawl_loop' fuel st = Some (Finished st') -> to_visit st' = [].
Proof.
  revert st. induction fuel as [|fuel IH]; intros st; [discriminate|].
  simpl. pose proof (loop_body_step st) as H.
  destruct (loop_body' st) as [|st1|st1].
  - now intros [= <-].
  - apply IH.
  - discriminate.
Qed.

(** *** The depth bound *)

(** With [max_depth = 1] the entries of [to_visit] are the seed at depth 0
    and links of the seed page at depth 1; only those links are appended
    and only the seed and those links are requested. *)
Lemma direct_links_only (st : state) :
  max_depth = 1%Z -> reachable' st ->
  (forall u d, In (u, d) (to_visit st) ->
               (u = base_url /\ d = 0%Z)
               \/ (d = 1%Z /\ In u (page_links' base_url)))
  /\ (forall u d, In (Enqueue u d) (trace st) ->
                  d = 1%Z /\ In u (page_links' base_url))
  /\ (forall u, In u (requests (trace st)) ->
                u = base_url \/ In u (page_links' base_url)).
Proof.
  intros Hdepth. revert st. apply reachable_steps.
  - split; [|split]; simpl; try tauto.
    intros u d [[= <- <-]|[]]. now left.
  - intros st u d rest _ (Hq & Henq & Hreq) E _. split; [|split]; simpl; auto.
    intros v dv Hin. apply Hq. rewrite E. now right.
  - intros st u d rest _ (Hq & Henq & Hreq) E _.
    assert (Hnew : forall p, In p (new_entries' ({[u]} ∪ visited st) u d) ->
                             snd p = 1%Z /\ In (fst p) (page_links' base_url)).
    { intros p Hp. apply in_new_entries in Hp as (Hd & Hlink & Hpage).
      apply is_page_link_not_visited in Hpage as [_ Hlt].
      destruct (Hq u d) as [[-> ->]|[-> _]]; [rewrite E; now left | | lia].
      split; [lia | exact Hlink]. }
    split; [|split]; simpl.
    + intros v dv Hin. apply in_app_or in Hin as [Hin|Hin].
      * apply Hq. rewrite E. now right.
      * right. apply (Hnew (v, dv) Hin).
    + intros v dv Hin.
      apply in_app_or in Hin as [Hin|[Hin|Hin]]; [|discriminate|now apply Henq in Hin].
      apply in_rev, in_map_iff in Hin as (p & [= <- <-] & Hp). now apply Hnew.
    + intros v. rewrite requests_app, requests_enqueues. simpl.
      intros [<-|Hin]; [|now apply Hreq].
      destruct (Hq u d) as [[-> _]|[_ Hu]]; [rewrite E; now left | now left | now right].
Qed.

(** *** Junk pages, documents and pages *)

Lemma same_domain_parsed (full_url : string) :
  same_domain urlparse base_url full_url = true ->
  exists parsed base,
    urlparse full_url = Some parsed /\ urlparse base_url = Some base
    /\ netloc parsed = netloc base.
Proof.
  unfold same_domain.
  destruct (urlparse full_url) as [parsed|]; [|discriminate].
  destruct (urlparse base_url) as [base|]; [|discriminate].
  intros H%String.eqb_eq. now exists parsed, base.
Qed.

Lemma same_domain_link_url (final_url : string) (link : node) (full_url : string) :
  resolve' final_url link = Some full_url ->
  same_domain urlparse base_url full_url = true ->
  link_url' final_url link = Some full_url.
Proof.
  intros Hres (parsed & base & Hp & Hb & _)%same_domain_parsed.
  unfold link_url. rewrite Hres. simpl. rewrite Hp. simpl. now rewrite Hb.
Qed.

Lemma crawl_link_junk (final_url : string) (depth : Z) (st : state) (link : node)
  (full_url : string) :
  resolve' final_url link = Some full_url ->
  same_domain urlparse base_url full_url = true ->
  junk_page urlparse full_url = true ->
  crawl_link' final_url depth st link = Some st.
Proof.
  intros Hres Hd Hj.
  rewrite (crawl_link_step final_url depth st link full_url)
    by now apply same_domain_link_url.
  unfold is_page_link, is_document_link. rewrite Hd, Hj. simpl.
  rewrite !app_nil_r. now destruct st.
Qed.

Lemma crawl_link_document (final_url : string) (depth : Z) (st : state) (link : node)
  (full_url : string) :
  resolve' final_url link = Some full_url ->
  same_domain urlparse base_url full_url = true ->
  junk_page urlparse full_url = false ->
  is_target_document full_url = true ->
  crawl_link' final_url depth st link
  = Some {| visited := visited st; to_visit := to_visit st;
            pdf_links := pdf_links st ++ [(full_url, link)];
            trace := trace st |}.
Proof.
  intros Hres Hd Hj Ht.
  rewrite (crawl_link_step final_url depth st link full_url)
    by now apply same_domain_link_url.
  unfold is_page_link, is_document_link. rewrite Hd, Hj, Ht. simpl.
  now rewrite !app_nil_r.
Qed.

(** The links the loop gets through are links of the page, in their order,
    each with the URL [urljoin] gives it; when the body raises on none, they
    are all the links of the page. *)
Lemma processed_links (final_url : string) (links : list node) :
  (forall full link, In (full, link) (processed' final_url links) ->
     In link links /\ resolve' final_url link = Some full)
  /\ (raises_on' final_url links = false ->
      map snd (processed' final_url links) = links).
Proof.
  induction links as [|l links [IH1 IH2]]; simpl; [tauto|].
  unfold raises_on. simpl. fold (raises_on' final_url links).
  destruct (link_url' final_url l) as [full_l|] eqn:Hurl; simpl.
  - split.
    + intros full link [[= <- <-]|Hin].
      * split; [now left|]. unfold link_url in Hurl.
        destruct (resolve' final_url l) as [r|]; simpl in Hurl; [|discriminate].
        destruct (urlparse r); simpl in Hurl; [|discriminate].
        destruct (urlparse base_url); simpl in Hurl; [|discriminate].
        now injection Hurl as ->.
      * destruct (IH1 full link Hin). auto.
    + intros H. now rewrite IH2.
  - split; [intros full link []|]. discriminate.
Qed.

(** What is recorded is a document link, what is appended is a page link,
    and every document link of a requested page is recorded. *)
Lemma documents_and_pages (st : state) :
  reachable' st ->
  (forall p, In p (pdf_links st) -> is_document' (fst p) = true)
  /\ (forall u d, In (Enqueue u d) (trace st) -> crawlable' u = true)
  /\ (forall u p, In u (requests (trace st)) -> In p (documents' u) ->
                  In p (pdf_links st)).
Proof.
  revert st. apply reachable_steps.
  - split; [|split]; simpl; tauto.
  - intros st u d rest _ IH _ _. exact IH.
  - intros st u d rest _ (Hdoc & Henq & Hall) _ _. split; [|split]; simpl.
    + intros p Hp. apply in_app_or in Hp as [Hp|Hp]; [now apply Hdoc|].
      unfold documents in Hp. now apply filter_In in Hp as [_ Hp].
    + intros v dv Hin. apply in_app_or in Hin as [Hin|[Hin|Hin]];
        [|discriminate|now apply Henq in Hin].
      apply in_rev, in_map_iff in Hin as (p & [= <- <-] & Hp).
      apply in_new_entries in Hp as (_ & _ & Hp).
      now apply is_page_link_crawlable in Hp.
    + intros v p. rewrite requests_app, requests_enqueues. simpl.
      intros [<-|Hin] Hp; apply in_or_app; [now right | left; eauto].
Qed.

(** *** Failed requests *)

(** A request that raises, a status that [raise_for_status] rejects, and a
    content type other than HTML each abandon the URL, and the loop goes
    on. *)
Lemma loop_body_request_failure (st : state) (u : string) (d : Z)
  (rest : list (string * Z)) :
  to_visit st = (u, d) :: rest -> u ∉ visited st ->
  (requests_get u = RequestException
   \/ exists response, requests_get u = Answer response
        /\ (ok response = false
            \/ PyStr.contains (content_type response) "text/html" = false)) ->
  loop_body' st
  = Next {| visited := {[u]} ∪ visited st; to_visit := rest;
            pdf_links := pdf_links st; trace := Get u :: trace st |}.
Proof.
  intros Hq Hnew Hfail. unfold loop_body. rewrite Hq.
  rewrite bool_decide_eq_false_2 by exact Hnew.
  destruct Hfail as [-> | (response & -> & [Hok | Hct])]; [reflexivity| |].
  - now rewrite Hok.
  - rewrite Hct. now destruct (ok response).
Qed.

(** *** Termination on a finite graph, whatever the depth bound *)

Lemma existsb_eqb_In (v : string) (nodes : list string) :
  existsb (String.eqb v) nodes = true <-> In v nodes.
Proof.
  rewrite existsb_exists. split.
  - intros (x & Hin & ->%String.eqb_eq). exact Hin.
  - intros Hin. exists v. split; [exact Hin | apply String.eqb_refl].
Qed.

Lemma unvisited_links_visit (vis : gset string) (u : string) (nodes : list string) :
  In u nodes -> u ∉ vis ->
  unvisited_links' ({[u]} ∪ vis) nodes + List.length (page_anchors' u)
  <= unvisited_links' vis nodes.
Proof.
  intros Hin Hnew. unfold unvisited_links.
  induction nodes as [|v nodes IH]; [destruct Hin|]. simpl.
  assert (Hrest : unvisited_links' ({[u]} ∪ vis) nodes <= unvisited_links' vis nodes).
  { clear. unfold unvisited_links. induction nodes as [|w nodes IH]; simpl; [lia|].
    destruct (bool_decide (w ∈ {[u]} ∪ vis)) eqn:E1;
      destruct (bool_decide (w ∈ vis)) eqn:E2; try lia.
    apply bool_decide_eq_true in E2. apply bool_decide_eq_false in E1.
    exfalso. apply E1. now apply elem_of_union_r. }
  unfold unvisited_links in Hrest.
  destruct Hin as [->|Hin].
  - rewrite bool_decide_eq_true_2 by (apply elem_of_union_l, elem_of_singleton; reflexivity).
    rewrite bool_decide_eq_false_2 by exact Hnew. lia.
  - specialize (IH Hin).
    destruct (bool_decide (v ∈ {[u]} ∪ vis)) eqn:E1;
      destruct (bool_decide (v ∈ vis)) eqn:E2; try lia.
    apply bool_decide_eq_true in E2. apply bool_decide_eq_false in E1.
    exfalso. apply E1. now apply elem_of_union_r.
Qed.

Section FiniteGraph.

Variable nodes : list string.
Hypothesis Hclosed : closed_graph' nodes = true.

Lemma closed_graph_seed : In base_url nodes.
Proof.
  apply andb_true_iff in Hclosed as [H _]. now apply existsb_eqb_In.
Qed.

Lemma closed_graph_link (u v : string) :
  In u nodes -> In v (page_links' u) -> crawlable' v = true -> In v nodes.
Proof.
  intros Hu Hv Hc. apply andb_true_iff in Hclosed as [_ H].
  rewrite forallb_forall in H. specialize (H u Hu).
  rewrite forallb_forall in H. specialize (H v Hv).
  rewrite Hc in H. simpl in H. now apply existsb_eqb_In.
Qed.

(** Every entry of [to_visit] is a node of the graph. *)
Lemma to_visit_in_graph (st : state) :
  reachable' st -> forall u d, In (u, d) (to_visit st) -> In u nodes.
Proof.
  revert st. apply (reachable_steps (fun st => forall u d, In (u, d) (to_visit st) -> In u nodes)).
  - intros u d [[= <- <-]|[]]. apply closed_graph_seed.
  - intros st u d rest _ IH Hq _ v dv Hin. apply (IH v dv). rewrite Hq. now right.
  - intros st u d rest _ IH Hq _ v dv Hin. simpl in Hin.
    apply in_app_or in Hin as [Hin|Hin].
    + apply (IH v dv). rewrite Hq. now right.
    + apply in_new_entries in Hin as (_ & Hlink & Hpage). simpl in *.
      apply closed_graph_link with u.
      * apply (IH u d). rewrite Hq. now left.
      * exact Hlink.
      * now apply is_page_link_crawlable in Hpage.
Qed.

Abbreviation work := (work urljoin urlparse requests_get base_url nodes).

Lemma loop_body_work (st st' : state) :
  reachable' st -> loop_body' st = Next st' -> work st' < work st.
Proof.
  intros Hr Hstep. pose proof (loop_body_step st) as H. rewrite Hstep in H.
  destruct H as (u & d & rest & Hq & [[_ ->]|[Hnew ->]]); unfold PdfCrawler.work; rewrite Hq; simpl.
  - lia.
  - rewrite length_app.
    assert (Hu : In u nodes).
    { apply (to_visit_in_graph st Hr u d). rewrite Hq. now left. }
    pose proof (unvisited_links_visit (visited st) u nodes Hu Hnew).
    assert (List.length (new_entries' ({[u]} ∪ visited st) u d)
            <= List.length (page_anchors' u)).
    { unfold new_entries. rewrite length_map. apply List.filter_length_le. }
    lia.
Qed.

Lemma crawl_loop_terminates_work (fuel : nat) (st : state) :
  reachable' st -> work st < fuel -> exists e, crawl_loop' fuel st = Some e.
Proof.
  revert st. induction fuel as [|fuel IH]; intros st Hr Hfuel; [lia|].
  simpl. destruct (loop_body' st) as [|st'|st'] eqn:Hstep; eauto.
  apply IH.
  - now apply reachable_next with st.
  - apply (loop_body_work st st' Hr) in Hstep. lia.
Qed.

End FiniteGraph.

End Crawl.

(** C1. In every state a crawl passes through, no URL has been requested
    twice; the visited set holds the URLs requested; after the request for
    a URL no later event requests it or appends it to [to_visit].  The loop
    ends for every seed, every depth bound and every site, cyclic or not:
    with enough fuel it returns, and more fuel does not change the result.
    On a finite graph the visited set alone bounds the loop: one more
    iteration than the graph has links suffices, whatever the depth bound. *)
Theorem C1_each_url_requested_once
  (urljoin : string -> string -> option string)
  (urlparse : string -> option ParseResult)
  (requests_get : string -> got) (base_url : string) (max_depth : Z) :
  (forall st, reachable urljoin urlparse requests_get base_url max_depth st ->
      List.NoDup (requests (trace st))
      /\ (forall u, u ∈ visited st <-> In u (requests (trace st)))
      /\ (forall later earlier u,
             trace st = later ++ Get u :: earlier ->
             ~ In (Get u) later /\ forall d, ~ In (Enqueue u d) later))
  /\ (exists fuel e,
      reachable urljoin urlparse requests_get base_url max_depth (final_state e)
      /\ forall fuel', fuel <= fuel' ->
           crawl_for_pdfs urljoin urlparse requests_get base_url max_depth fuel'
           = Some e)
  /\ (forall nodes fuel,
      closed_graph urljoin urlparse requests_get base_url nodes = true ->
      1 + unvisited_links urljoin urlparse requests_get base_url ∅ nodes < fuel ->
      exists e,
        crawl_for_pdfs urljoin urlparse requests_get base_url max_depth fuel
        = Some e).
Proof.
  split; [|split].
  - intros st Hr. apply visited_inv_reachable in Hr as [Hvis Hwo].
    split; [now apply well_ordered_nodup|]. split; [exact Hvis|].
    intros later earlier u E. rewrite E in Hwo. now apply well_ordered_after in Hwo.
  - set (fuel := S (budget urljoin urlparse requests_get base_url max_depth [(base_url, 0%Z)])).
    destruct (crawl_loop_terminates urljoin urlparse requests_get base_url
                max_depth fuel (initial base_url)) as [e He]; [simpl; lia|].
    exists fuel, e. split.
    + apply (crawl_loop_reachable urljoin urlparse requests_get base_url
               max_depth fuel (initial base_url)); [constructor | exact He].
    + intros fuel' Hle. unfold crawl_for_pdfs.
      now apply crawl_loop_more_fuel with fuel.
  - intros nodes fuel Hclosed Hfuel.
    apply (crawl_loop_terminates_work urljoin urlparse requests_get base_url
             max_depth nodes Hclosed); [constructor | exact Hfuel].
Qed.

Lemma C1_each_url_requested_once_witness :
  (reachable Samples.urljoin Samples.urlparse Samples.web Samples.seed 1000
     (Samples.crawl_end 1000 14)
   /\ List.NoDup (requests (trace (Samples.crawl_end 1000 14))))
  /\ closed_graph Samples.urljoin Samples.urlparse Samples.web Samples.seed
       Samples.web_nodes = true
  /\ 1 + unvisited_links Samples.urljoin Samples.urlparse Samples.web Samples.seed ∅ Samples.web_nodes < 14
  /\ exists e,
      crawl_for_pdfs Samples.urljoin Samples.urlparse Samples.web Samples.seed
        1000 14 = Some e.
Proof.
  pose proof (C1_each_url_requested_once Samples.urljoin Samples.urlparse
                Samples.web Samples.seed 1000) as (Hsafe & _ & Hfinite).
  assert (Hr : reachable Samples.urljoin Samples.urlparse Samples.web
                 Samples.seed 1000 (Samples.crawl_end 1000 14)).
  { apply (crawl_loop_reachable Samples.urljoin Samples.urlparse Samples.web
             Samples.seed 1000 14 (initial Samples.seed)
             (Finished (Samples.crawl_end 1000 14))); [constructor|].
    vm_compute. reflexivity. }
  split; [split; [exact Hr | exact (proj1 (Hsafe _ Hr))]|].
  split; [reflexivity|]. split; [vm_compute; lia|].
  apply (Hfinite Samples.web_nodes 14); [reflexivity | vm_compute; lia].
Defined.

(** C5. With [max_depth = 1], in every state of a crawl the URLs requested
    are the seed and links of the seed page, every entry appended to
    [to_visit] is a link of the seed page, at depth 1, and a URL that is
    neither the seed nor a link of the seed page is never requested, never
    appended and never in [to_visit]. *)
Theorem C5_max_depth_one_direct_links_only
  (urljoin : string -> string -> option string)
  (urlparse : string -> option ParseResult)
  (requests_get : string -> got) (base_url : string) (st : state) :
  reachable urljoin urlparse requests_get base_url 1 st ->
  (forall u, In u (requests (trace st)) ->
             u = base_url \/ In u (page_links urljoin urlparse requests_get base_url base_url))
  /\ (forall u d, In (Enqueue u d) (trace st) ->
                  d = 1%Z /\ In u (page_links urljoin urlparse requests_get base_url base_url))
  /\ (forall u d, In (u, d) (to_visit st) ->
                  (u = base_url /\ d = 0%Z)
                  \/ (d = 1%Z /\ In u (page_links urljoin urlparse requests_get base_url base_url)))
  /\ (forall u, u <> base_url ->
                ~ In u (page_links urljoin urlparse requests_get base_url base_url) ->
                ~ In u (requests (trace st))
                /\ forall d, ~ In (Enqueue u d) (trace st)
                             /\ ~ In (u, d) (to_visit st)).
Proof.
  intros Hr.
  destruct (direct_links_only urljoin urlparse requests_get base_url 1 st
              eq_refl Hr) as (Hq & Henq & Hreq).
  split; [exact Hreq|]. split; [exact Henq|]. split; [exact Hq|].
  intros u Hseed Hlink. split; [|intros d; split].
  - intros H. apply Hreq in H. tauto.
  - intros H. apply Henq in H. tauto.
  - intros H. apply Hq in H. tauto.
Qed.

Lemma C5_max_depth_one_direct_links_only_witness :
  reachable Samples.urljoin Samples.urlparse Samples.web Samples.seed 1
    (Samples.crawl_end 1 10)
  /\ forall u d, In (Enqueue u d) (trace (Samples.crawl_end 1 10)) ->
       d = 1%Z
       /\ In u (page_links Samples.urljoin Samples.urlparse Samples.web Samples.seed Samples.seed).
Proof.
  assert (Hr : reachable Samples.urljoin Samples.urlparse Samples.web
                 Samples.seed 1 (Samples.crawl_end 1 10)).
  { apply (crawl_loop_reachable Samples.urljoin Samples.urlparse Samples.web
             Samples.seed 1 10 (initial Samples.seed)
             (Finished (Samples.crawl_end 1 10))); [constructor|].
    vm_compute. reflexivity. }
  split; [exact Hr|].
  apply (C5_max_depth_one_direct_links_only Samples.urljoin Samples.urlparse
           Samples.web Samples.seed (Samples.crawl_end 1 10) Hr).
Defined.

(** C7. A link on the crawled host whose path is a junk page leaves the
    state as it is, so it is neither recorded nor appended, also when its
    URL contains [.pdf]; a link on the crawled host that is not a junk page
    and whose lower-cased URL contains [.pdf] anywhere is appended to
    [pdf_links] and not to [to_visit].  Over a whole crawl: every recorded
    link is such a document link, every appended URL is on the host, not
    junk and without [.pdf], and every document link that the loop got to
    on a requested page is recorded.  The loop gets to the links of a page
    in their order, and to all of them unless [urljoin] or [urlparse]
    raises on one: the crawl ends there, and the links after it are not
    looked at. *)
Theorem C7_junk_filter_before_document_branch
  (urljoin : string -> string -> option string)
  (urlparse : string -> option ParseResult)
  (requests_get : string -> got) (base_url : string) (max_depth : Z) :
  (forall final_url depth st link full_url,
      resolve urljoin final_url link = Some full_url ->
      same_domain urlparse base_url full_url = true ->
      junk_page urlparse full_url = true ->
      crawl_link urljoin urlparse base_url max_depth final_url depth st link
      = Some st)
  /\ (forall final_url depth st link full_url,
      resolve urljoin final_url link = Some full_url ->
      same_domain urlparse base_url full_url = true ->
      junk_page urlparse full_url = false ->
      is_target_document full_url = true ->
      crawl_link urljoin urlparse base_url max_depth final_url depth st link
      = Some {| visited := visited st; to_visit := to_visit st;
                pdf_links := pdf_links st ++ [(full_url, link)];
                trace := trace st |})
  /\ (forall full_url,
      is_target_document full_url = true <->
      exists pre post, PyStr.lower full_url = (pre ++ ".pdf" ++ post)%string)
  /\ (forall st,
      reachable urljoin urlparse requests_get base_url max_depth st ->
      (forall p, In p (pdf_links st) ->
         same_domain urlparse base_url (fst p) = true
         /\ junk_page urlparse (fst p) = false
         /\ is_target_document (fst p) = true)
      /\ (forall u d, In (Enqueue u d) (trace st) ->
            same_domain urlparse base_url u = true
            /\ junk_page urlparse u = false
            /\ is_target_document u = false)
      /\ (forall u full link,
            In u (requests (trace st)) ->
            In (full, link) (page_anchors urljoin urlparse requests_get base_url u) ->
            same_domain urlparse base_url full = true ->
            junk_page urlparse full = false ->
            is_target_document full = true ->
            In (full, link) (pdf_links st)))
  /\ (forall u response soup,
      requests_get u = Answer response ->
      ok response = true ->
      PyStr.contains (content_type response) "text/html" = true ->
      decoded response = Some soup ->
      (forall full link,
          In (full, link) (page_anchors urljoin urlparse requests_get base_url u) ->
          In link (anchors soup)
          /\ resolve urljoin (final_url response) link = Some full)
      /\ (raises_on urljoin urlparse base_url (final_url response) (anchors soup)
          = false ->
          map snd (page_anchors urljoin urlparse requests_get base_url u)
          = anchors soup)).
Proof.
  split; [|split; [|split; [|split]]].
  - apply crawl_link_junk.
  - apply crawl_link_document.
  - intros full_url. unfold is_target_document. apply ScraperFacts.contains_spec.
  - intros st Hr.
    destruct (documents_and_pages urljoin urlparse requests_get base_url
                max_depth st Hr) as (Hdoc & Henq & Hall).
    split; [|split].
    + intros p Hp. apply Hdoc in Hp. unfold is_document_link in Hp.
      apply andb_true_iff in Hp as [[Hd Hj]%andb_true_iff Ht].
      apply negb_true_iff in Hj. auto.
    + intros u d Hin. apply Henq in Hin. unfold crawlable in Hin.
      apply andb_true_iff in Hin as [[Hd Hj]%andb_true_iff Ht].
      apply negb_true_iff in Hj, Ht. auto.
    + intros u full link Hu Hlink Hd Hj Ht. apply (Hall u (full, link) Hu).
      unfold documents. apply filter_In. split; [exact Hlink|].
      unfold is_document_link. simpl. now rewrite Hd, Hj, Ht.
  - intros u response soup Hget Hok Hct Hdec. unfold page_anchors.
    rewrite Hget, Hok, Hct, Hdec. simpl.
    apply (processed_links urljoin urlparse requests_get base_url).
Qed.

Lemma C7_junk_filter_before_document_branch_witness :
  crawl_link Samples.urljoin Samples.urlparse Samples.seed 3 Samples.seed 0
    (initial Samples.seed) (Samples.a "/404.1f3a.html?next=a.pdf" "Broken")
  = Some (initial Samples.seed)
  /\ crawl_link Samples.urljoin Samples.urlparse Samples.seed 3 Samples.seed 0
       (initial Samples.seed) (Samples.a "/files/summary.PDF?download=1" "Summary")
     = Some {| visited := ∅; to_visit := [(Samples.seed, 0%Z)];
               pdf_links := [("https://example.org/files/summary.PDF?download=1"%string,
                              Samples.a "/files/summary.PDF?download=1" "Summary")];
               trace := [] |}.
Proof.
  pose proof (C7_junk_filter_before_document_branch Samples.urljoin
                Samples.urlparse Samples.web Samples.seed 3) as (Hjunk & Hdoc & _).
  split.
  - apply (Hjunk Samples.seed 0%Z (initial Samples.seed)
             (Samples.a "/404.1f3a.html?next=a.pdf" "Broken")
             "https://example.org/404.1f3a.html?next=a.pdf"); reflexivity.
  - apply (Hdoc Samples.seed 0%Z (initial Samples.seed)
             (Samples.a "/files/summary.PDF?download=1" "Summary")
             "https://example.org/files/summary.PDF?download=1");
      reflexivity.
Defined.

End CrawlFacts.

(** ** Failures of single pages *)

Module FailureFacts.
Import Bs4 WebScraper PdfCrawler.

(** The traversal abandons a URL whose request fails and goes on: the crawl
    of [Samples.web] requests the removed page [/gone], gets a 404, and
    still ends normally with the documents of the other pages. *)
Lemma crawl_survives_failed_request :
  exists st,
    crawl_for_pdfs Samples.urljoin Samples.urlparse Samples.web Samples.seed 3 20
    = Some (Finished st)
    /\ In "https://example.org/gone"%string (requests (trace st))
    /\ map fst (pdf_links st)
       = [ "https://example.org/files/summary.PDF?download=1"%string;
           "https://example.org/docs/report.pdf"%string;
           "https://example.org/deeper/last.pdf"%string ].
Proof.
  eexists. split; [vm_compute; reflexivity|]. split; [|reflexivity].
  vm_compute. tauto.
Qed.

(** The [for] loop over the links stands after the [try] block as well: a
    link on which [urljoin] raises ends the crawl with the exception.  On
    [Samples.web_malformed] the document and the page before the malformed
    link are taken, the document and the page after it are not looked at,
    and the page appended is not requested. *)
Lemma crawl_stops_on_malformed_link :
  forall fuel,
    crawl_for_pdfs Samples.urljoin Samples.urlparse Samples.web_malformed
      Samples.seed 3 (S fuel)
    = Some (Crashed
              {| visited := {[ Samples.seed ]} ∪ ∅;
                 to_visit := [("https://example.org/docs"%string, 1%Z)];
                 pdf_links := [("https://example.org/first.pdf"%string,
                                Samples.a "/first.pdf" "First")];
                 trace := [Enqueue "https://example.org/docs" 1;
                           Get Samples.seed] |})
    /\ uncaught Samples.urljoin Samples.urlparse Samples.web_malformed
         Samples.seed Samples.seed = true
    /\ page_links Samples.urljoin Samples.urlparse Samples.web_malformed
         Samples.seed Samples.seed
       = ["https://example.org/first.pdf"%string;
          "https://example.org/docs"%string].
Proof. intros fuel. split; [|split]; reflexivity. Qed.

(** The decoding of a page stands after the [try] block: a page whose
    declared encoding is unknown ends the crawl with the exception. *)
Lemma crawl_stops_on_unknown_encoding :
  forall fuel,
    crawl_for_pdfs Samples.urljoin Samples.urlparse Samples.web_bad_charset
      Samples.seed 3 (S fuel)
    = Some (Crashed {| visited := {[ Samples.seed ]} ∪ ∅; to_visit := [];
                       pdf_links := []; trace := [Get Samples.seed] |}).
Proof. reflexivity. Qed.

(** The scenario of the specification: from [https://example.org/] with
    [max_depth = 2] the crawl records the one document
    [/docs/report.pdf]; the document on [other.org] is left out. *)
Lemma crawl_chain_scenario :
  exists st,
    crawl_for_pdfs Samples.urljoin Samples.urlparse Samples.chain Samples.seed 2 10
    = Some (Finished st)
    /\ pdf_links st
       = [ ("https://example.org/docs/report.pdf"%string,
            Samples.a "/docs/report.pdf" "Report") ].
Proof. eexists. split; [vm_compute; reflexivity | reflexivity]. Qed.

(** C4. In the pagination loop a page load that raises is not caught: on a
    site whose first listing page is valid and whose second page fails to
    load, [fetch_listing_pages] ends with the exception, and so does
    [main]; the first page and its entries are not returned. *)
Theorem C4_listing_load_error_ends_pagination :
  (forall fuel, fetch_listing_pages Samples.flaky_site Samples.listing (S (S fuel))
                = Some Raise)
  /\ (forall fuel, main_report_entries Samples.flaky_site Samples.listing (S (S fuel))
                   = Some Raise).
Proof.
  assert (H : forall fuel,
             fetch_listing_pages Samples.flaky_site Samples.listing (S (S fuel))
             = Some Raise).
  { intros fuel. unfold fetch_listing_pages.
    change (listing_loop Samples.flaky_site Samples.listing (S (S fuel)) 1 [])
      with (listing_loop Samples.flaky_site Samples.listing (S fuel) 2 [Samples.page_a]).
    now apply ScraperFacts.listing_loop_load_error. }
  split; [exact H|].
  intros fuel. unfold main_report_entries. now rewrite H.
Qed.

End FailureFacts.

(** ** File names *)

Module SanitizeFacts.
Import PyPath Download.

Lemma all_chars_append (p : ascii -> bool) (s1 s2 : string) :
  PyStr.all_chars p (s1 ++ s2)
  = PyStr.all_chars p s1 && PyStr.all_chars p s2.
Proof. unfold PyStr.all_chars. now rewrite list_ascii_app, forallb_app. Qed.

Lemma keep_chars_all (keep : ascii -> bool) (s : string) :
  PyStr.all_chars keep (keep_chars keep s) = true.
Proof.
  induction s as [|c s IH]; simpl; [reflexivity|].
  destruct (keep c) eqn:Hc; [|exact IH].
  unfold PyStr.all_chars in *. simpl. now rewrite Hc.
Qed.

Lemma keep_chars_id (keep : ascii -> bool) (s : string) :
  PyStr.all_chars keep s = true -> keep_chars keep s = s.
Proof.
  unfold PyStr.all_chars. induction s as [|c s IH]; simpl; [reflexivity|].
  intros [Hc Hs]%andb_true_iff. rewrite Hc. f_equal. now apply IH.
Qed.

Lemma replace_char_id (a b : ascii) (s : string) :
  PyStr.has_char a s = false -> replace_char a b s = s.
Proof.
  unfold PyStr.has_char. induction s as [|c s IH]; simpl; [reflexivity|].
  intros [Hc Hs]%orb_false_iff. rewrite Ascii.eqb_sym, Hc. f_equal. now apply IH.
Qed.

(** No safe character is white space. *)
Lemma is_safe_not_space (c : ascii) :
  is_safe c = true -> PyStr.is_space c = false.
Proof.
  destruct c as [[] [] [] [] [] [] [] []]; vm_compute; congruence.
Qed.

Lemma lstrip_id (s : string) :
  PyStr.all_chars is_safe s = true -> PyStr.lstrip s = s.
Proof.
  unfold PyStr.all_chars. destruct s as [|c s]; simpl; [reflexivity|].
  intros [Hc _]%andb_true_iff. now rewrite (is_safe_not_space c Hc).
Qed.

Lemma rstrip_id (s : string) :
  PyStr.all_chars is_safe s = true -> PyStr.rstrip s = s.
Proof.
  unfold PyStr.all_chars. induction s as [|c s IH]; simpl; [reflexivity|].
  intros [Hc Hs]%andb_true_iff. rewrite (IH Hs).
  destruct s; [now rewrite (is_safe_not_space c Hc) | reflexivity].
Qed.

Lemma strip_id (s : string) :
  PyStr.all_chars is_safe s = true -> PyStr.strip s = s.
Proof.
  intros Hs. unfold PyStr.strip. rewrite (lstrip_id s Hs). now apply rstrip_id.
Qed.

Lemma sanitize_filename_safe (name : string) :
  PyStr.all_chars is_safe (sanitize_filename name) = true.
Proof. unfold sanitize_filename. apply keep_chars_all. Qed.

Lemma sanitize_filename_id (name : string) :
  PyStr.all_chars is_safe name = true -> sanitize_filename name = name.
Proof.
  intros Hs. unfold sanitize_filename. rewrite (strip_id name Hs).
  rewrite replace_char_id by
    (now apply (UrlFilterFacts.all_chars_has_char is_safe " " name)).
  now apply keep_chars_id.
Qed.

Lemma length_keep_chars (keep : ascii -> bool) (s : string) :
  String.length (keep_chars keep s) <= String.length s.
Proof.
  induction s as [|c s IH]; simpl; [lia|]. destruct (keep c); simpl; lia.
Qed.

Lemma length_replace_char (a b : ascii) (s : string) :
  String.length (replace_char a b s) = String.length s.
Proof. induction s as [|c s IH]; simpl; [reflexivity | now rewrite IH]. Qed.

Lemma length_lstrip (s : string) :
  String.length (PyStr.lstrip s) <= String.length s.
Proof.
  induction s as [|c s IH]; simpl; [lia|].
  destruct (PyStr.is_space c); simpl; lia.
Qed.

Lemma length_rstrip (s : string) :
  String.length (PyStr.rstrip s) <= String.length s.
Proof.
  induction s as [|c s IH]; simpl; [lia|].
  destruct (PyStr.rstrip s) as [|c' s'].
  - destruct (PyStr.is_space c); simpl; lia.
  - simpl in *. lia.
Qed.

(** X1. Whatever the name, [sanitize_filename] returns only letters,
    digits, underscores, hyphens and dots: no character outside that set
    occurs in the result, in particular no slash, backslash or blank, and
    the result is never longer than the name. *)
Theorem X1_sanitize_filename_safe_characters (name : string) :
  PyStr.all_chars is_safe (sanitize_filename name) = true
  /\ PyStr.has_char "/" (sanitize_filename name) = false
  /\ PyStr.has_char "\" (sanitize_filename name) = false
  /\ PyStr.has_char " " (sanitize_filename name) = false
  /\ String.length (sanitize_filename name) <= String.length name.
Proof.
  pose proof (sanitize_filename_safe name) as Hsafe.
  assert (Hnot : forall c, is_safe c = false ->
                   PyStr.has_char c (sanitize_filename name) = false).
  { intros c Hc. now apply (UrlFilterFacts.all_chars_has_char is_safe). }
  split; [exact Hsafe|].
  split; [now apply Hnot|]. split; [now apply Hnot|]. split; [now apply Hnot|].
  unfold sanitize_filename.
  pose proof (length_keep_chars is_safe
                (replace_char " " "-" (PyStr.strip name))) as H1.
  rewrite length_replace_char in H1. unfold PyStr.strip in *.
  pose proof (length_rstrip (PyStr.lstrip name)).
  pose proof (length_lstrip name). lia.
Qed.

(** X2. [sanitize_filename] leaves a name of safe characters as it is, so
    sanitizing twice gives what sanitizing once gives. *)
Theorem X2_sanitize_filename_idempotent :
  (forall name, PyStr.all_chars is_safe name = true ->
                sanitize_filename name = name)
  /\ (forall name,
         sanitize_filename (sanitize_filename name) = sanitize_filename name).
Proof.
  split; [exact sanitize_filename_id|].
  intros name. apply sanitize_filename_id, sanitize_filename_safe.
Qed.

Lemma X2_sanitize_filename_idempotent_witness :
  sanitize_filename "Rapport-2024_17.v2" = "Rapport-2024_17.v2".
Proof.
  apply (proj1 X2_sanitize_filename_idempotent). reflexivity.
Defined.

Lemma lower_append (s1 s2 : string) :
  PyStr.lower (s1 ++ s2) = PyStr.lower s1 ++ PyStr.lower s2.
Proof. induction s1 as [|c s1 IH]; simpl; [reflexivity | now rewrite IH]. Qed.

Lemma endswith_spec (s p : string) :
  endswith s p = true <-> exists pre, s = pre ++ p.
Proof.
  induction s as [|c s IH].
  - change (endswith "" p) with (String.eqb "" p || false).
    rewrite orb_false_r, String.eqb_eq. split.
    + intros <-. now exists "".
    + intros [pre E]. symmetry in E. apply append_eq_nil in E as [_ ->].
      reflexivity.
  - change (endswith (String c s) p)
      with (String.eqb (String c s) p || endswith s p).
    rewrite orb_true_iff, String.eqb_eq, IH. split.
    + intros [<- | [pre ->]]; [now exists "" | now exists (String c pre)].
    + intros [[|a pre] E]; simpl in E.
      * now left.
      * right. injection E as <- ->. eauto.
Qed.

(** X3. The file name [download_pdf] derives from a URL always ends in
    [.pdf], in any case of the letters, consists of safe characters only,
    and has no slash; a name that ends in [.pdf] already gets no second
    extension. *)
Theorem X3_pdf_filename_extension (pdf_url : string) :
  endswith (PyStr.lower (pdf_filename pdf_url)) ".pdf" = true
  /\ PyStr.all_chars is_safe (pdf_filename pdf_url) = true
  /\ PyStr.has_char "/" (pdf_filename pdf_url) = false
  /\ (pdf_filename pdf_url = sanitize_filename (basename pdf_url)
      \/ (pdf_filename pdf_url = sanitize_filename (basename pdf_url) ++ ".pdf"
          /\ endswith (PyStr.lower (sanitize_filename (basename pdf_url))) ".pdf"
             = false)).
Proof.
  unfold pdf_filename.
  pose proof (sanitize_filename_safe (basename pdf_url)) as Hsafe.
  destruct (endswith (PyStr.lower (sanitize_filename (basename pdf_url))) ".pdf")
    eqn:Hext; simpl.
  - split; [exact Hext|]. split; [exact Hsafe|].
    split; [now apply (UrlFilterFacts.all_chars_has_char is_safe) | now left].
  - assert (Hall : PyStr.all_chars is_safe
                     (sanitize_filename (basename pdf_url) ++ ".pdf") = true).
    { now rewrite all_chars_append, Hsafe. }
    split; [|split; [exact Hall|split]].
    + rewrite lower_append. apply endswith_spec. eauto.
    + now apply (UrlFilterFacts.all_chars_has_char is_safe).
    + right. auto.
Qed.

End SanitizeFacts.

(** ** The section of a document link *)

Module SectionFacts.
Import Bs4 Download.

Lemma descendants_contents (cs cs' : list node) (nm : string)
  (attrs : gmap string string) (i : nat) :
  nth_error cs i = Some (Tag nm attrs cs') ->
  incl (descendants cs') (descendants cs).
Proof.
  intros Hi x Hx. unfold descendants in *.
  apply in_flat_map. exists (Tag nm attrs cs').
  split; [now apply nth_error_In with i|]. simpl. now right.
Qed.

(** The chain of parents ends with the document, and every parent lies in
    the document. *)
Lemma parents_chain (path : list nat) (cs : list node)
  (above ps : list (list node)) :
  parents cs path above = Some ps ->
  exists inner, ps = (inner ++ cs :: above)%list
    /\ forall x, In x inner -> incl (descendants x) (descendants cs).
Proof.
  revert cs above ps. induction path as [|i path IH]; intros cs above ps;
    [discriminate|].
  simpl. destruct (nth_error cs i) as [n|] eqn:Hi; [|discriminate].
  destruct n as [t|nm attrs cs']; destruct path as [|j path];
    try discriminate;
    try (intros [= <-]; exists []; split; [reflexivity | intros x []]).
  - intros H. apply IH in H as (inner & -> & Hinner).
    exists (inner ++ [cs'])%list. split; [now rewrite <- app_assoc|].
    intros x [Hx|[<-|[]]]%in_app_or.
    + intros y Hy. apply (descendants_contents cs cs' nm attrs i Hi).
      now apply (Hinner x Hx).
    + now apply (descendants_contents cs cs' nm attrs i Hi).
Qed.

Lemma find_heading_none (cs : list node) :
  find is_heading cs = None <->
  forall tag, In tag (descendants cs) -> is_tag tag = true ->
              is_heading tag = false.
Proof.
  unfold find. split.
  - intros Hnone tag Hin Htag.
    pose proof (find_none _ _ Hnone tag Hin) as H. simpl in H.
    now rewrite Htag in H.
  - intros Hall. destruct (List.find _ _) as [tag|] eqn:Hfind; [|reflexivity].
    apply find_some in Hfind as [Hin [Htag Hh]%andb_true_iff].
    rewrite (Hall tag Hin Htag) in Hh. discriminate.
Qed.

Lemma extract_section_name_none (inner : list (list node)) (sp : soup) :
  (forall x, In x inner -> incl (descendants x) (descendants sp)) ->
  (extract_section_name (inner ++ [sp]) = None <-> find is_heading sp = None).
Proof.
  induction inner as [|x inner IH]; intros Hincl; simpl.
  - destruct (find is_heading sp); split; congruence.
  - destruct (find is_heading x) as [heading|] eqn:Hx.
    + split; [discriminate|]. intros Hsp. exfalso.
      unfold find in Hx. apply find_some in Hx as [Hin [Htag Hh]%andb_true_iff].
      apply find_heading_none with (tag := heading) in Hsp; [congruence| |exact Htag].
      apply (Hincl x); [now left | exact Hin].
    + apply IH. intros y Hy. apply Hincl. now right.
Qed.

Lemma extract_section_name_some (inner : list (list node)) (sp : soup)
  (section : string) :
  (forall x, In x inner -> incl (descendants x) (descendants sp)) ->
  extract_section_name (inner ++ [sp]) = Some section ->
  section <> ""
  /\ exists heading, In heading (descendants sp) /\ is_tag heading = true
       /\ is_heading heading = true /\ section = get_text_strip heading.
Proof.
  assert (Hfound : forall x heading,
             incl (descendants x) (descendants sp) ->
             find is_heading x = Some heading ->
             get_text_strip heading <> ""
             /\ exists h, In h (descendants sp) /\ is_tag h = true
                  /\ is_heading h = true /\ get_text_strip heading = get_text_strip h).
  { intros x heading Hincl Hx. unfold find in Hx.
    apply find_some in Hx as [Hin [Htag Hh]%andb_true_iff]. split.
    - unfold is_heading in Hh. apply andb_true_iff in Hh as [_ Hh].
      apply negb_true_iff, String.eqb_neq in Hh. exact Hh.
    - exists heading. auto. }
  induction inner as [|x inner IH]; intros Hincl; simpl.
  - destruct (find is_heading sp) as [heading|] eqn:Hsp; [|discriminate].
    intros [= <-]. apply (Hfound sp heading); [apply incl_refl | exact Hsp].
  - destruct (find is_heading x) as [heading|] eqn:Hx.
    + intros [= <-]. apply (Hfound x heading); [apply Hincl; now left | exact Hx].
    + apply IH. intros y Hy. apply Hincl. now right.
Qed.

(** X4. For a link of a document, [extract_section_name] returns nothing
    exactly when no [h1] to [h6] element anywhere in the document has text,
    and [download_pdf] then files the document under [General]; a section
    name it returns is the non-empty stripped text of a heading of the
    document. *)
Theorem X4_extract_section_name_none_iff_no_heading
  (sp : soup) (path : list nat) (link_parents : list (list node)) :
  parents sp path [] = Some link_parents ->
  (extract_section_name link_parents = None <->
   forall tag, In tag (descendants sp) -> is_tag tag = true ->
               is_heading tag = false)
  /\ (extract_section_name link_parents = None ->
      section_folder link_parents = "General")
  /\ (forall section, extract_section_name link_parents = Some section ->
        section <> ""
        /\ exists heading, In heading (descendants sp) /\ is_tag heading = true
             /\ is_heading heading = true /\ section = get_text_strip heading).
Proof.
  intros Hparents. apply parents_chain in Hparents as (inner & -> & Hinner).
  split; [|split].
  - rewrite extract_section_name_none by exact Hinner. apply find_heading_none.
  - intros Hnone. unfold section_folder. now rewrite Hnone.
  - intros section. now apply extract_section_name_some.
Qed.

Lemma X4_extract_section_name_none_iff_no_heading_witness :
  Download.extract_section_name
    (MoreSamples.parents_of MoreSamples.bare MoreSamples.bare_link_path) = None
  /\ Download.section_folder
       (MoreSamples.parents_of MoreSamples.bare MoreSamples.bare_link_path)
     = "General"
  /\ Download.extract_section_name
       (MoreSamples.parents_of MoreSamples.article MoreSamples.link_path)
     = Some "Rapporter 2024".
Proof.
  pose proof (X4_extract_section_name_none_iff_no_heading MoreSamples.bare
                MoreSamples.bare_link_path
                (MoreSamples.parents_of MoreSamples.bare MoreSamples.bare_link_path)
                eq_refl) as (_ & Hfolder & _).
  split; [reflexivity|]. split; [now apply Hfolder | reflexivity].
Defined.

End SectionFacts.

(** ** More on the traversal *)

Module CrawlOrderFacts.
Import Bs4 UrlFilter PdfCrawler CrawlFacts.
Local Open Scope list_scope.

Section Crawl.

Variable urljoin : string -> string -> option string.
Variable urlparse : string -> option ParseResult.
Variable requests_get : string -> got.
Variable base_url : string.
Variable max_depth : Z.

Abbreviation reachable' := (reachable urljoin urlparse requests_get base_url max_depth).
Abbreviation visit' := (visit urljoin urlparse requests_get base_url max_depth).
Abbreviation new_entries' := (new_entries urljoin urlparse requests_get base_url max_depth).
Abbreviation documents' := (documents urljoin urlparse requests_get base_url).
Abbreviation steps := (reachable_steps urljoin urlparse requests_get base_url max_depth).
Abbreviation crawl_loop' := (crawl_loop urljoin urlparse requests_get base_url max_depth).
Abbreviation loop_body' := (loop_body urljoin urlparse requests_get base_url max_depth).

(** The recorded links are the document links of the requested pages, page
    after page in the order of the requests. *)
Lemma pdf_links_by_request (st : state) :
  reachable' st ->
  pdf_links st = flat_map documents' (rev (requests (trace st))).
Proof.
  revert st. apply steps.
  - reflexivity.
  - intros st u d rest _ IH _ _. exact IH.
  - intros st u d rest _ IH _ _. simpl.
    rewrite requests_app, requests_enqueues. simpl.
    rewrite flat_map_app, IH. simpl. now rewrite app_nil_r.
Qed.

Lemma new_entries_depth (vis : gset string) (u : string) (d : Z) (p : string * Z) :
  In p (new_entries' vis u d) -> snd p = (d + 1)%Z /\ (d < max_depth)%Z.
Proof.
  intros Hp. apply in_new_entries in Hp as (Hd & _ & Hpage).
  apply is_page_link_not_visited in Hpage as [_ Hlt]. auto.
Qed.

Lemma new_entries_none (vis : gset string) (u : string) (d : Z) :
  (max_depth <= d)%Z -> new_entries' vis u d = [].
Proof.
  intros Hd. destruct (new_entries' vis u d) as [|p l] eqn:E; [reflexivity|].
  assert (Hp : In p (new_entries' vis u d)) by (rewrite E; now left).
  apply new_entries_depth in Hp. lia.
Qed.

Lemma ordered_pairs_app {A : Type} (R : A -> A -> Prop) (l1 l2 : list A) :
  ForallOrdPairs R l1 -> ForallOrdPairs R l2 ->
  (forall x y, In x l1 -> In y l2 -> R x y) ->
  ForallOrdPairs R (l1 ++ l2).
Proof.
  intros H1 H2 Hcross. induction H1 as [|a l1 Ha H1 IH]; simpl; [exact H2|].
  constructor.
  - apply List.Forall_app. split; [exact Ha|].
    apply List.Forall_forall. intros y Hy. apply Hcross; [now left | exact Hy].
  - apply IH. intros x y Hx Hy. apply Hcross; [now right | exact Hy].
Qed.

Lemma ordered_pairs_constant (d : Z) (l : list Z) :
  (forall x, In x l -> x = d) ->
  ForallOrdPairs CrawlOrder.breadth_first l.
Proof.
  induction l as [|a l IH]; intros Hall; constructor.
  - apply List.Forall_forall. intros y Hy. unfold CrawlOrder.breadth_first.
    rewrite (Hall a), (Hall y); [lia | now right | now left].
  - apply IH. intros x Hx. apply Hall. now right.
Qed.

(** The depths in [to_visit] are breadth first: of two entries the later is
    as deep as the earlier or one level deeper.  They start at 0 and stay
    within the bound, and every depth appended lies between 1 and
    [max_depth]. *)
Lemma depths_breadth_first (st : state) :
  reachable' st ->
  ForallOrdPairs CrawlOrder.breadth_first (map snd (to_visit st))
  /\ (forall x, In x (map snd (to_visit st)) ->
                (0 <= x)%Z /\ (x = 0%Z \/ (x <= max_depth)%Z))
  /\ (forall u d, In (Enqueue u d) (trace st) -> (1 <= d <= max_depth)%Z).
Proof.
  revert st. apply steps.
  - simpl. split; [repeat constructor|]. split.
    + intros x [<-|[]]. lia.
    + intros u d [].
  - intros st u d rest _ (Hbfs & Hrange & Henq) E _.
    rewrite E in Hbfs, Hrange. simpl in *.
    inversion Hbfs as [|a l Hhead Hrest]; subst.
    split; [exact Hrest|]. split; auto.
  - intros st u d rest _ (Hbfs & Hrange & Henq) E _.
    rewrite E in Hbfs, Hrange. simpl in Hbfs, Hrange.
    inversion Hbfs as [|a l Hhead Hrest]; subst.
    rewrite List.Forall_forall in Hhead.
    set (news := new_entries' ({[u]} ∪ visited st) u d).
    assert (Hnews : forall x, In x (map snd news) ->
                              x = (d + 1)%Z /\ (d < max_depth)%Z).
    { intros x (p & <- & Hp)%in_map_iff. now apply new_entries_depth in Hp. }
    assert (Hd : (0 <= d)%Z) by (apply (Hrange d); now left).
    simpl. fold news. rewrite map_app. split; [|split].
    + apply ordered_pairs_app; [exact Hrest| |].
      * apply ordered_pairs_constant with (d + 1)%Z. intros x Hx. now apply Hnews.
      * intros x y Hx Hy. apply Hnews in Hy as [-> _].
        specialize (Hhead x Hx). unfold CrawlOrder.breadth_first in *. lia.
    + intros x [Hx|Hx]%in_app_or.
      * apply Hrange. now right.
      * apply Hnews in Hx as [-> Hlt]. lia.
    + intros v dv [Hin|[Hin|Hin]]%in_app_or; [|discriminate|now apply Henq in Hin].
      apply in_rev, in_map_iff in Hin as (p & [= <- <-] & Hp).
      apply new_entries_depth in Hp as [-> Hlt]. lia.
Qed.

(** Every entry of [to_visit] is the seed or was appended, and whatever was
    appended is visited or still waits. *)
Lemma frontier_accounted (st : state) :
  reachable' st ->
  (forall u d, In (u, d) (to_visit st) ->
               (u = base_url /\ d = 0%Z) \/ In (Enqueue u d) (trace st))
  /\ (forall u, In u (requests (trace st)) ->
                u = base_url \/ exists d, In (Enqueue u d) (trace st))
  /\ (base_url ∈ visited st \/ In (base_url, 0%Z) (to_visit st))
  /\ (forall u d, In (Enqueue u d) (trace st) ->
                  u ∈ visited st \/ In (u, d) (to_visit st)).
Proof.
  revert st. apply steps.
  - simpl. split; [|split; [|split]].
    + intros u d [[= <- <-]|[]]. now left.
    + intros u [].
    + right. now left.
    + intros u d [].
  - intros st u d rest _ (Hq & Hreq & Hseed & Henq) E Hvis. simpl.
    split; [|split; [|split]].
    + intros v dv Hin. apply Hq. rewrite E. now right.
    + exact Hreq.
    + destruct Hseed as [H|H]; [now left|]. rewrite E in H.
      destruct H as [[= <- <-]|H]; [now left | now right].
    + intros v dv Hin. destruct (Henq v dv Hin) as [H|H]; [now left|].
      rewrite E in H. destruct H as [[= <- <-]|H]; [now left | now right].
  - intros st u d rest _ (Hq & Hreq & Hseed & Henq) E Hnew. simpl.
    set (news := new_entries' ({[u]} ∪ visited st) u d).
    assert (Hu : (u = base_url /\ d = 0%Z) \/ In (Enqueue u d) (trace st)).
    { apply Hq. rewrite E. now left. }
    assert (Hold : forall e, In e (trace st) ->
              In e (rev (map (fun p => Enqueue (fst p) (snd p)) news)
                    ++ Get u :: trace st)).
    { intros e He. apply in_or_app. right. now right. }
    assert (Hnews : forall p, In p news ->
              In (Enqueue (fst p) (snd p))
                (rev (map (fun p => Enqueue (fst p) (snd p)) news)
                 ++ Get u :: trace st)).
    { intros p Hp. apply in_or_app. left. apply in_rev.
      rewrite rev_involutive. now apply (in_map (fun p => Enqueue (fst p) (snd p))). }
    split; [|split; [|split]].
    + intros v dv [Hin|Hin]%in_app_or.
      * destruct (Hq v dv) as [H|H]; [rewrite E; now right | now left |].
        right. now apply Hold.
      * right. apply (Hnews (v, dv) Hin).
    + intros v. rewrite requests_app, requests_enqueues. simpl.
      intros [<-|Hin].
      * destruct Hu as [[-> _]|H]; [now left|]. right. exists d. now apply Hold.
      * destruct (Hreq v Hin) as [->|[dv H]]; [now left|].
        right. exists dv. now apply Hold.
    + destruct Hseed as [H|H].
      * left. now apply elem_of_union_r.
      * rewrite E in H. destruct H as [[= <- <-]|H].
        -- left. apply elem_of_union_l, elem_of_singleton. reflexivity.
        -- right. apply in_or_app. now left.
    + intros v dv [Hin|[Hin|Hin]]%in_app_or; [|discriminate|].
      * apply in_rev, in_map_iff in Hin as ([a b] & [= <- <-] & Hp).
        right. apply in_or_app. right. exact Hp.
      * destruct (Henq v dv Hin) as [H|H]; [left; now apply elem_of_union_r|].
        rewrite E in H. destruct H as [[= <- <-]|H].
        -- left. apply elem_of_union_l, elem_of_singleton. reflexivity.
        -- right. apply in_or_app. now left.
Qed.

(** With no depth to go, the crawl ends in the exception exactly when the
    seed page makes the iteration raise. *)
Lemma crawl_depth_zero_ending :
  (max_depth <= 0)%Z ->
  crawl_loop' 2 (initial base_url)
  = Some ((if uncaught urljoin urlparse requests_get base_url base_url
           then Crashed else Finished)
            {| visited := {[ base_url ]} ∪ ∅; to_visit := [];
               pdf_links := documents' base_url; trace := [Get base_url] |}).
Proof.
  intros Hdepth.
  assert (Hvisit : visit' (initial base_url) base_url 0 []
                   = {| visited := {[ base_url ]} ∪ ∅; to_visit := [];
                        pdf_links := documents' base_url;
                        trace := [Get base_url] |}).
  { unfold visit. simpl. now rewrite new_entries_none by lia. }
  simpl.
  rewrite (loop_body_visit urljoin urlparse requests_get base_url max_depth
             (initial base_url) base_url 0 [] eq_refl)
    by apply not_elem_of_empty.
  rewrite Hvisit.
  destruct (uncaught urljoin urlparse requests_get base_url base_url);
    reflexivity.
Qed.

(** How a crawl ends: without an exception when no requested page made its
    iteration raise, and in the exception of the page requested last
    otherwise. *)
Lemma crawl_loop_uncaught (fuel : nat) (st : state) (e : ending) :
  crawl_loop' fuel st = Some e ->
  (forall v, In v (requests (trace st)) ->
             uncaught urljoin urlparse requests_get base_url v = false) ->
  match e with
  | Finished st' =>
      forall u, In u (requests (trace st')) ->
                uncaught urljoin urlparse requests_get base_url u = false
  | Crashed st' =>
      exists u earlier,
        requests (trace st') = u :: earlier
        /\ uncaught urljoin urlparse requests_get base_url u = true
        /\ forall v, In v earlier ->
                     uncaught urljoin urlparse requests_get base_url v = false
  end.
Proof.
  revert st. induction fuel as [|fuel IH]; intros st; [discriminate|].
  simpl. destruct (to_visit st) as [|[u d] rest] eqn:Hq.
  { unfold loop_body. rewrite Hq. intros [= <-] Hst. exact Hst. }
  destruct (decide (u ∈ visited st)) as [Hvis|Hvis].
  - rewrite (loop_body_skip urljoin urlparse requests_get base_url max_depth
               st u d rest Hq Hvis).
    intros Hrun Hst. apply (IH _ Hrun). exact Hst.
  - rewrite (loop_body_visit urljoin urlparse requests_get base_url max_depth
               st u d rest Hq Hvis).
    assert (Hreq : requests (trace (visit' st u d rest))
                   = u :: requests (trace st)).
    { simpl. now rewrite requests_app, requests_enqueues. }
    destruct (uncaught urljoin urlparse requests_get base_url u) eqn:Hu.
    + intros [= <-] Hst. exists u, (requests (trace st)). auto.
    + intros Hrun Hst. apply (IH _ Hrun). rewrite Hreq.
      intros v [<-|Hv]; [exact Hu | now apply Hst].
Qed.

(** On a page whose iteration does not raise, the loop gets through all
    the links. *)
Lemma page_anchors_complete (u : string) (response : Response) (soup : Bs4.soup) :
  requests_get u = Answer response ->
  ok response = true ->
  PyStr.contains (content_type response) "text/html" = true ->
  decoded response = Some soup ->
  uncaught urljoin urlparse requests_get base_url u = false ->
  map snd (page_anchors urljoin urlparse requests_get base_url u)
  = anchors soup.
Proof.
  intros Hget Hok Hct Hdec. unfold uncaught, page_anchors.
  rewrite Hget, Hok, Hct, Hdec. simpl.
  apply (processed_links urljoin urlparse requests_get base_url).
Qed.

(** A URL appended to [to_visit] is a link of a page requested before it. *)
Lemma enqueued_from_requested (st : state) :
  reachable' st ->
  forall u d, In (Enqueue u d) (trace st) ->
    exists v, In v (requests (trace st))
              /\ In u (page_links urljoin urlparse requests_get base_url v).
Proof.
  revert st.
  apply (steps (fun st => forall u d, In (Enqueue u d) (trace st) ->
                  exists v, In v (requests (trace st))
                            /\ In u (page_links urljoin urlparse requests_get base_url v))).
  - intros u d [].
  - intros st u d rest _ IH _ _. exact IH.
  - intros st u d rest _ IH _ _ v dv. simpl.
    rewrite requests_app, requests_enqueues. simpl.
    intros [Hin|[Hin|Hin]]%in_app_or; [|discriminate|].
    + apply in_rev, in_map_iff in Hin as ([a b] & [= <- <-] & Hp).
      apply in_new_entries in Hp as (_ & Hlink & _).
      exists u. split; [now left | exact Hlink].
    + destruct (IH v dv Hin) as (w & Hw & Hlink).
      exists w. split; [now right | exact Hlink].
Qed.

End Crawl.

(** X5. At every moment of a crawl, [pdf_links] holds the document links
    among the links that the loop got through on the pages requested so
    far, page after page in the order of the requests and, within a page,
    in the order of its links: a document that two requested pages link to
    is recorded once for each.  The loop gets through all the links of a
    page unless its iteration ends in an exception: a crawl that ends
    without one got through every link of every page it requested, and a
    crawl that ends in an exception got through every link of every page
    but the one it requested last, of which it has the links before the one
    it raised on. *)
Theorem X5_pdf_links_follow_requests
  (urljoin : string -> string -> option string)
  (urlparse : string -> option ParseResult)
  (requests_get : string -> got) (base_url : string) (max_depth : Z) :
  (forall st,
      reachable urljoin urlparse requests_get base_url max_depth st ->
      pdf_links st
      = flat_map (documents urljoin urlparse requests_get base_url)
          (rev (requests (trace st))))
  /\ (forall fuel e,
      crawl_for_pdfs urljoin urlparse requests_get base_url max_depth fuel
      = Some e ->
      match e with
      | Finished st =>
          forall u, In u (requests (trace st)) ->
                    uncaught urljoin urlparse requests_get base_url u = false
      | Crashed st =>
          exists u earlier,
            requests (trace st) = u :: earlier
            /\ uncaught urljoin urlparse requests_get base_url u = true
            /\ forall v, In v earlier ->
                         uncaught urljoin urlparse requests_get base_url v
                         = false
      end)
  /\ (forall u response soup,
      requests_get u = Answer response ->
      ok response = true ->
      PyStr.contains (content_type response) "text/html" = true ->
      decoded response = Some soup ->
      (uncaught urljoin urlparse requests_get base_url u = false ->
       map snd (page_anchors urljoin urlparse requests_get base_url u)
       = anchors soup)
      /\ (forall full link,
            In (full, link)
              (page_anchors urljoin urlparse requests_get base_url u) ->
            In link (anchors soup)
            /\ resolve urljoin (final_url response) link = Some full)).
Proof.
  split; [|split].
  - intros st. apply pdf_links_by_request.
  - intros fuel e Hrun.
    apply (crawl_loop_uncaught urljoin urlparse requests_get base_url
             max_depth fuel (initial base_url) e Hrun).
    intros v [].
  - intros u response soup Hget Hok Hct Hdec. split.
    + now apply page_anchors_complete with response.
    + unfold page_anchors. rewrite Hget, Hok, Hct, Hdec. simpl.
      apply (processed_links urljoin urlparse requests_get base_url).
Qed.

Lemma X5_pdf_links_follow_requests_witness :
  pdf_links (Samples.crawl_end 3 20)
  = flat_map (documents Samples.urljoin Samples.urlparse Samples.web Samples.seed)
      (rev (requests (trace (Samples.crawl_end 3 20)))).
Proof.
  apply (proj1 (X5_pdf_links_follow_requests Samples.urljoin Samples.urlparse
                  Samples.web Samples.seed 3)).
  apply (crawl_loop_reachable Samples.urljoin Samples.urlparse Samples.web
           Samples.seed 3 20 (initial Samples.seed)
           (Finished (Samples.crawl_end 3 20))); [constructor|].
  vm_compute. reflexivity.
Defined.

(** X6. The frontier is breadth first whatever [max_depth] is: of two
    entries of [to_visit] the later is as deep as the earlier or one level
    deeper; no entry has a negative depth or, the seed apart, a depth above
    [max_depth]; and every entry appended has a depth from 1 to
    [max_depth]. *)
Theorem X6_frontier_breadth_first_within_depth
  (urljoin : string -> string -> option string)
  (urlparse : string -> option ParseResult)
  (requests_get : string -> got) (base_url : string) (max_depth : Z)
  (st : state) :
  reachable urljoin urlparse requests_get base_url max_depth st ->
  ForallOrdPairs CrawlOrder.breadth_first (map snd (to_visit st))
  /\ (forall x, In x (map snd (to_visit st)) ->
                (0 <= x)%Z /\ (x = 0%Z \/ (x <= max_depth)%Z))
  /\ (forall u d, In (Enqueue u d) (trace st) -> (1 <= d <= max_depth)%Z).
Proof. apply depths_breadth_first. Qed.

Lemma X6_frontier_breadth_first_within_depth_witness :
  ForallOrdPairs CrawlOrder.breadth_first
    (map snd (to_visit (Samples.crawl_end 2 20)))
  /\ (forall x, In x (map snd (to_visit (Samples.crawl_end 2 20))) ->
                (0 <= x)%Z /\ (x = 0%Z \/ (x <= 2)%Z))
  /\ (forall u d, In (Enqueue u d) (trace (Samples.crawl_end 2 20)) ->
                  (1 <= d <= 2)%Z).
Proof.
  apply (X6_frontier_breadth_first_within_depth Samples.urljoin
           Samples.urlparse Samples.web Samples.seed 2 (Samples.crawl_end 2 20)).
  apply (crawl_loop_reachable Samples.urljoin Samples.urlparse Samples.web
           Samples.seed 2 20 (initial Samples.seed)
           (Finished (Samples.crawl_end 2 20))); [constructor|].
  vm_compute. reflexivity.
Defined.

(** X7. With [max_depth] zero or negative the crawl still requests the
    seed, once; it appends nothing to [to_visit] and is over after two
    iterations, on every site.  It records the document links among the
    links of the seed page that the loop gets through: it ends without an
    exception when the iteration of the seed page does not raise, and in
    the exception, with the document links before the link it raised on,
    when it does. *)
Theorem X7_no_depth_crawls_the_seed_only
  (urljoin : string -> string -> option string)
  (urlparse : string -> option ParseResult)
  (requests_get : string -> got) (base_url : string) (max_depth : Z) :
  (max_depth <= 0)%Z ->
  exists e,
    crawl_for_pdfs urljoin urlparse requests_get base_url max_depth 2 = Some e
    /\ requests (trace (final_state e)) = [base_url]
    /\ pdf_links (final_state e)
       = documents urljoin urlparse requests_get base_url base_url
    /\ to_visit (final_state e) = []
    /\ (forall u d, ~ In (Enqueue u d) (trace (final_state e)))
    /\ e = (if uncaught urljoin urlparse requests_get base_url base_url
            then Crashed else Finished) (final_state e).
Proof.
  intros Hdepth.
  pose proof (crawl_depth_zero_ending urljoin urlparse requests_get base_url
                max_depth Hdepth) as Hrun.
  eexists. split; [exact Hrun|].
  destruct (uncaught urljoin urlparse requests_get base_url base_url); simpl;
    (repeat split; intros u d [H|[]]; discriminate).
Qed.

Lemma X7_no_depth_crawls_the_seed_only_witness :
  exists e,
    crawl_for_pdfs Samples.urljoin Samples.urlparse Samples.web_malformed
      Samples.seed 0 2
    = Some e
    /\ requests (trace (final_state e)) = [Samples.seed]
    /\ pdf_links (final_state e)
       = documents Samples.urljoin Samples.urlparse Samples.web_malformed
           Samples.seed Samples.seed
    /\ to_visit (final_state e) = []
    /\ (forall u d, ~ In (Enqueue u d) (trace (final_state e)))
    /\ e = (if uncaught Samples.urljoin Samples.urlparse Samples.web_malformed
                 Samples.seed Samples.seed
            then Crashed else Finished) (final_state e).
Proof.
  apply (X7_no_depth_crawls_the_seed_only Samples.urljoin Samples.urlparse
           Samples.web_malformed Samples.seed 0). lia.
Defined.

(** X8. When the crawl ends without an exception, nothing is left in
    [to_visit], and the URLs requested are the seed and the URLs that were
    appended to [to_visit], all of them: none was left out and none was
    requested without being appended. *)
Theorem X8_finished_crawl_requested_all_appended
  (urljoin : string -> string -> option string)
  (urlparse : string -> option ParseResult)
  (requests_get : string -> got) (base_url : string) (max_depth : Z)
  (fuel : nat) (st : state) :
  crawl_for_pdfs urljoin urlparse requests_get base_url max_depth fuel
  = Some (Finished st) ->
  to_visit st = []
  /\ forall u, In u (requests (trace st)) <->
               u = base_url \/ exists d, In (Enqueue u d) (trace st).
Proof.
  intros Hrun.
  assert (Hq : to_visit st = []).
  { apply (crawl_loop_finished urljoin urlparse requests_get base_url
             max_depth fuel (initial base_url)). exact Hrun. }
  assert (Hr : reachable urljoin urlparse requests_get base_url max_depth st).
  { apply (crawl_loop_reachable urljoin urlparse requests_get base_url
             max_depth fuel (initial base_url) (Finished st));
      [constructor | exact Hrun]. }
  destruct (frontier_accounted urljoin urlparse requests_get base_url
              max_depth st Hr) as (_ & Hreq & Hseed & Henq).
  destruct (visited_inv_reachable urljoin urlparse requests_get base_url
              max_depth st Hr) as [Hvis _].
  rewrite Hq in Hseed, Henq. split; [exact Hq|].
  intros u. split; [apply Hreq|].
  intros [-> | [d Hd]]; apply Hvis.
  - destruct Hseed as [H|[]]. exact H.
  - destruct (Henq u d Hd) as [H|[]]. exact H.
Qed.

Lemma X8_finished_crawl_requested_all_appended_witness :
  to_visit (Samples.crawl_end 3 20) = []
  /\ forall u, In u (requests (trace (Samples.crawl_end 3 20))) <->
               u = Samples.seed
               \/ exists d, In (Enqueue u d) (trace (Samples.crawl_end 3 20)).
Proof.
  apply (X8_finished_crawl_requested_all_appended Samples.urljoin
           Samples.urlparse Samples.web Samples.seed 3 20).
  vm_compute. reflexivity.
Defined.

(** X20. The crawl stays on the site: every URL it requests, the seed
    apart, is on the host of the seed, is no junk page, has no [.pdf] in
    it, and is a link of a page that the crawl requested.  The seed itself
    is requested whatever it is. *)
Theorem X20_requests_stay_on_the_site
  (urljoin : string -> string -> option string)
  (urlparse : string -> option ParseResult)
  (requests_get : string -> got) (base_url : string) (max_depth : Z)
  (st : state) :
  reachable urljoin urlparse requests_get base_url max_depth st ->
  forall u, In u (requests (trace st)) ->
    u = base_url
    \/ (same_domain urlparse base_url u = true
        /\ (exists parsed, urlparse u = Some parsed
                           /\ is_junk_page (path parsed) = false)
        /\ is_target_document u = false
        /\ exists v, In v (requests (trace st))
                     /\ In u (page_links urljoin urlparse requests_get base_url v)).
Proof.
  intros Hr u Hu.
  destruct (frontier_accounted urljoin urlparse requests_get base_url
              max_depth st Hr) as (_ & Hreq & _).
  destruct (Hreq u Hu) as [->|[d Hd]]; [now left | right].
  destruct (documents_and_pages urljoin urlparse requests_get base_url
              max_depth st Hr) as (_ & Henq & _).
  pose proof (Henq u d Hd) as Hc. unfold crawlable in Hc.
  apply andb_true_iff in Hc as [[Hdom Hj]%andb_true_iff Ht].
  apply negb_true_iff in Hj, Ht.
  split; [exact Hdom|]. split.
  { destruct (same_domain_parsed urlparse base_url u Hdom)
      as (parsed & _ & Hp & _).
    exists parsed. split; [exact Hp|]. unfold junk_page in Hj.
    now rewrite Hp in Hj. }
  split; [exact Ht|].
  exact (enqueued_from_requested urljoin urlparse requests_get base_url
           max_depth st Hr u d Hd).
Qed.

Lemma X20_requests_stay_on_the_site_witness :
  "https://example.org/deep" = Samples.seed
  \/ (same_domain Samples.urlparse Samples.seed "https://example.org/deep"
      = true
      /\ (exists parsed,
             Samples.urlparse "https://example.org/deep" = Some parsed
             /\ is_junk_page (path parsed) = false)
      /\ is_target_document "https://example.org/deep" = false
      /\ exists v, In v (requests (trace (Samples.crawl_end 3 20)))
                   /\ In "https://example.org/deep"%string
                        (page_links Samples.urljoin Samples.urlparse Samples.web
                           Samples.seed v)).
Proof.
  apply (X20_requests_stay_on_the_site Samples.urljoin Samples.urlparse
           Samples.web Samples.seed 3 (Samples.crawl_end 3 20)).
  - apply (crawl_loop_reachable Samples.urljoin Samples.urlparse Samples.web
             Samples.seed 3 20 (initial Samples.seed)
             (Finished (Samples.crawl_end 3 20))); [constructor|].
    vm_compute. reflexivity.
  - vm_compute. repeat first [left; reflexivity | right].
Defined.

End CrawlOrderFacts.

(** ** Loading and parsing reports *)

Module ReportFacts.
Import Bs4 WebScraper Reports.

Section Retry.

Variable attempt_html : nat -> loaded.

Abbreviation retry := (retry_loop attempt_html).
Abbreviation good := (good_attempt attempt_html).

(** What the retry loop returns when it starts at [attempt] with
    [remaining] attempts left: the first page that is long enough, after as
    many loads as it took, or the empty page after all of them. *)
Lemma retry_loop_spec (remaining attempt : nat) :
  (forall j, attempt <= j < attempt + remaining -> good j = false)
  /\ retry attempt remaining = (no_html, remaining)
  \/ exists k html,
      attempt <= k < attempt + remaining
      /\ attempt_html k = Content html /\ 100 < len html
      /\ (forall j, attempt <= j < k -> good j = false)
      /\ retry attempt remaining = (html, S (k - attempt)).
Proof.
  revert attempt. induction remaining as [|remaining IH]; intros attempt.
  - left. split; [intros j Hj; lia | reflexivity].
  - assert (Hfirst : good attempt = false ->
              forall k, (forall j, S attempt <= j < k -> good j = false) ->
                        forall j, attempt <= j < k -> good j = false).
    { intros Ha k Hbad j Hj. destruct (Nat.eq_dec j attempt) as [->|Hne];
        [exact Ha | apply Hbad; lia]. }
    assert (Hnext : good attempt = false ->
              retry attempt (S remaining)
              = (fst (retry (S attempt) remaining),
                 S (snd (retry (S attempt) remaining)))).
    { unfold good_attempt. simpl. destruct (attempt_html attempt) as [html|].
      - intros ->. now destruct (retry (S attempt) remaining).
      - intros _. now destruct (retry (S attempt) remaining). }
    destruct (good attempt) eqn:Ha.
    + right. unfold good_attempt in Ha. simpl.
      destruct (attempt_html attempt) as [html|] eqn:Hget; [|discriminate].
      rewrite Ha. apply Nat.ltb_lt in Ha.
      exists attempt, html. rewrite Nat.sub_diag.
      split; [lia|]. split; [exact Hget|]. split; [exact Ha|].
      split; [intros j Hj; lia | reflexivity].
    + rewrite (Hnext eq_refl).
      destruct (IH (S attempt)) as [[Hbad ->]|(k & h & Hk & Hget & Hlong & Hbad & ->)].
      * left. split; [|reflexivity].
        apply (Hfirst eq_refl (attempt + S remaining)).
        intros j Hj. apply Hbad. lia.
      * right. exists k, h. split; [lia|]. split; [exact Hget|].
        split; [exact Hlong|]. split; [now apply (Hfirst eq_refl)|].
        simpl. do 2 f_equal. lia.
Qed.

End Retry.

(** X9. [get_report_html_alternative] loads the page until a load gives
    more than 100 characters, [retries] times at most.  It returns the page
    of the first such load, having made no load after it; when no load
    among the [retries] succeeds, or [retries] is 0, it returns the empty
    string after [retries] loads.  A load that raises counts as a failed
    attempt. *)
Theorem X9_get_report_html_alternative_first_good_attempt
  (attempt_html : nat -> loaded) (retries : nat) :
  ((forall j, 1 <= j <= retries -> good_attempt attempt_html j = false) ->
   retry_loop attempt_html 1 retries = (no_html, retries))
  /\ (forall k html,
        1 <= k <= retries ->
        attempt_html k = Content html -> 100 < len html ->
        (forall j, 1 <= j < k -> good_attempt attempt_html j = false) ->
        retry_loop attempt_html 1 retries = (html, k))
  /\ (get_report_html_alternative attempt_html retries = no_html
      \/ 100 < len (get_report_html_alternative attempt_html retries))
  /\ snd (retry_loop attempt_html 1 retries) <= retries.
Proof.
  pose proof (retry_loop_spec attempt_html retries 1) as Hspec.
  split; [|split; [|split]].
  - intros Hbad.
    destruct Hspec as [[_ E]|(k & h & Hk & Hget & Hlong & _ & _)]; [exact E|].
    specialize (Hbad k ltac:(lia)). unfold good_attempt in Hbad.
    rewrite Hget in Hbad. apply Nat.ltb_ge in Hbad. lia.
  - intros k html Hk Hget Hlong Hbad.
    assert (Hgood : good_attempt attempt_html k = true).
    { unfold good_attempt. rewrite Hget. now apply Nat.ltb_lt. }
    destruct Hspec as [[Hnone _]|(k' & h & Hk' & Hget' & Hlong' & Hbad' & E)].
    + rewrite Hnone in Hgood by lia. discriminate.
    + assert (k' = k).
      { destruct (Nat.lt_trichotomy k' k) as [Hlt|[Heq|Hgt]]; [|exact Heq|].
        - specialize (Hbad k' ltac:(lia)). unfold good_attempt in Hbad.
          rewrite Hget' in Hbad. apply Nat.ltb_ge in Hbad. lia.
        - rewrite (Hbad' k) in Hgood by lia. discriminate. }
      subst k'. rewrite E. rewrite Hget in Hget'. injection Hget' as <-.
      f_equal. lia.
  - unfold get_report_html_alternative.
    destruct Hspec as [[_ ->]|(k & h & _ & _ & Hlong & _ & ->)];
      [now left | now right].
  - destruct Hspec as [[_ ->]|(k & h & Hk & _ & _ & _ & ->)]; simpl; lia.
Qed.

Lemma X9_get_report_html_alternative_first_good_attempt_witness :
  retry_loop MoreSamples.report_attempts 1 3 = (Samples.page_a, 3).
Proof.
  apply (proj1 (proj2 (X9_get_report_html_alternative_first_good_attempt
                         MoreSamples.report_attempts 3)) 3 Samples.page_a).
  - lia.
  - reflexivity.
  - simpl. lia.
  - intros j Hj. assert (j = 1 \/ j = 2) as [-> | ->] by lia; reflexivity.
Defined.

Section Main.

Variable get_html : string -> loaded.
Variable write_debug_html : string -> bool.

Abbreviation step := (process_entry get_html write_debug_html).
Abbreviation done := (processed get_html write_debug_html).

(** The record of an entry, when the loop produces one. *)
Lemma process_entry_cases (reports_data : list report_data) (entry : report) :
  (done entry = false /\ step reports_data entry = reports_data)
  \/ exists html,
      done entry = true /\ get_html (url entry) = Content html
      /\ step reports_data entry
         = (reports_data
            ++ [{| data_fields := parse_report html;
                   data_url := url entry; data_date := date entry |}])%list.
Proof.
  unfold process_entry, processed.
  destruct (get_html (url entry)) as [html|]; [|now left].
  destruct (Nat.ltb (len html) 1000 && negb (write_debug_html (url entry)));
    [now left | right; eauto].
Qed.

Lemma fold_process_entry (entries : list report) (acc : list report_data) :
  exists records,
    fold_left step entries acc = (acc ++ records)%list
    /\ map (fun d => (data_url d, data_date d)) records
       = map (fun e => (url e, date e)) (List.filter done entries)
    /\ forall d, In d records ->
         exists html, get_html (data_url d) = Content html
                      /\ data_fields d = parse_report html.
Proof.
  revert acc. induction entries as [|e entries IH]; intros acc; simpl.
  - exists []. rewrite app_nil_r. repeat split. intros d [].
  - destruct (process_entry_cases acc e) as [[Hd ->]|(html & Hd & Hget & ->)];
      rewrite Hd.
    + apply IH.
    + destruct (IH (acc ++ [{| data_fields := parse_report html;
                               data_url := url e; data_date := date e |}])%list)
        as (records & -> & Hmap & Hall).
      eexists (_ :: records). rewrite <- app_assoc. split; [reflexivity|].
      split; [simpl; now rewrite Hmap|].
      intros d [<-|Hin]; [exists html; auto | now apply Hall].
Qed.

Lemma process_reports_skip (l1 l2 : list report) (e : report)
  (acc : list report_data) :
  done e = false ->
  fold_left step (l1 ++ e :: l2) acc = fold_left step (l1 ++ l2) acc.
Proof.
  intros Hd. rewrite !fold_left_app. simpl.
  destruct (process_entry_cases (fold_left step l1 acc) e)
    as [[_ ->]|(html & Hd' & _)]; [reflexivity | congruence].
Qed.

End Main.

(** X10. The loop of [main] over the report entries produces one record
    for each entry whose page loads (and whose debug copy, when the page is
    short, can be written), in the order of the entries, carrying the URL
    and the date of the entry and the fields parsed from the page loaded
    for that URL.  An entry that fails is passed over: the records are
    those of the list without it. *)
Theorem X10_report_loop_skips_failed_entries
  (get_html : string -> loaded) (write_debug_html : string -> bool)
  (report_entries : list report) :
  map (fun d => (data_url d, data_date d))
    (process_reports get_html write_debug_html report_entries)
  = map (fun e => (url e, date e))
      (List.filter (processed get_html write_debug_html) report_entries)
  /\ (forall d, In d (process_reports get_html write_debug_html report_entries) ->
        exists html, get_html (data_url d) = Content html
                     /\ data_fields d = parse_report html)
  /\ (forall l1 e l2,
        report_entries = (l1 ++ e :: l2)%list ->
        processed get_html write_debug_html e = false ->
        process_reports get_html write_debug_html report_entries
        = process_reports get_html write_debug_html (l1 ++ l2)).
Proof.
  unfold process_reports.
  assert (Hskip : forall l1 e l2,
            report_entries = (l1 ++ e :: l2)%list ->
            processed get_html write_debug_html e = false ->
            fold_left (process_entry get_html write_debug_html) report_entries []
            = fold_left (process_entry get_html write_debug_html) (l1 ++ l2) []).
  { intros l1 e l2 -> Hd. now apply process_reports_skip. }
  destruct (fold_process_entry get_html write_debug_html report_entries [])
    as (records & E & Hmap & Hall).
  rewrite E in *. simpl. split; [exact Hmap|]. split; [exact Hall | exact Hskip].
Qed.

Lemma X10_report_loop_skips_failed_entries_witness :
  process_reports MoreSamples.report_site (fun _ => true)
    [MoreSamples.entry_05; MoreSamples.entry_17]
  = process_reports MoreSamples.report_site (fun _ => true)
      ([] ++ [MoreSamples.entry_17]).
Proof.
  apply (proj2 (proj2 (X10_report_loop_skips_failed_entries
                         MoreSamples.report_site (fun _ => true)
                         [MoreSamples.entry_05; MoreSamples.entry_17]))
           [] MoreSamples.entry_05 [MoreSamples.entry_17]); reflexivity.
Defined.

End ReportFacts.

(** ** The sinks *)

Module SinkFacts.
Import Reports.
Local Open Scope list_scope.

Lemma table_urls_app (t1 t2 : list row) :
  table_urls (t1 ++ t2) = table_urls t1 ++ table_urls t2.
Proof. unfold table_urls. apply flat_map_app. Qed.

Lemma url_taken_spec (table : list row) (u : string) :
  url_taken table (Some u) = true <-> In u (table_urls table).
Proof.
  unfold table_urls. simpl. rewrite existsb_exists, in_flat_map. split.
  - intros (r & Hr & Hu). exists r. split; [exact Hr|].
    destruct (c_url r) as [v|]; [|discriminate].
    apply String.eqb_eq in Hu as ->. now left.
  - intros (r & Hr & Hu). exists r. split; [exact Hr|].
    destruct (c_url r) as [v|]; [|destruct Hu].
    destruct Hu as [->|[]]. apply String.eqb_refl.
Qed.

(** An [INSERT] either leaves the table or adds the row at its end. *)
Lemma insert_report_cases (table : list row) (report : row) :
  (insert_report table report = table
   /\ exists u, c_url report = Some u /\ In u (table_urls table))
  \/ (insert_report table report = table ++ [report]
      /\ forall u, c_url report = Some u -> ~ In u (table_urls table)).
Proof.
  unfold insert_report. destruct (url_taken table (c_url report)) eqn:Ht.
  - left. split; [reflexivity|]. destruct (c_url report) as [u|]; [|discriminate].
    exists u. split; [reflexivity | now apply url_taken_spec].
  - right. split; [reflexivity|]. intros u Hu Hin. rewrite Hu in Ht.
    apply url_taken_spec in Hin. congruence.
Qed.

Lemma save_to_sqlite_grows (reports_data table : list row) :
  exists added,
    save_to_sqlite table reports_data = table ++ added
    /\ (forall r, In r added -> In r reports_data).
Proof.
  unfold save_to_sqlite. revert table.
  induction reports_data as [|r data IH]; intros table; simpl.
  - exists []. split; [now rewrite app_nil_r | intros r []].
  - destruct (insert_report_cases table r) as [[-> _]|[-> _]].
    + destruct (IH table) as (added & -> & Hin). exists added. split; auto.
    + destruct (IH (table ++ [r])) as (added & -> & Hin).
      exists (r :: added). rewrite <- app_assoc. split; [reflexivity|].
      intros x [<-|Hx]; auto.
Qed.

Lemma save_to_sqlite_nodup (reports_data table : list row) :
  List.NoDup (table_urls table) ->
  List.NoDup (table_urls (save_to_sqlite table reports_data)).
Proof.
  unfold save_to_sqlite. revert table.
  induction reports_data as [|r data IH]; intros table Hnd; simpl; [exact Hnd|].
  apply IH. destruct (insert_report_cases table r) as [[-> _]|[-> Hnew]];
    [exact Hnd|].
  rewrite table_urls_app. unfold table_urls at 2. simpl.
  destruct (c_url r) as [u|]; simpl; [|now rewrite app_nil_r].
  apply List.NoDup_app; [exact Hnd | repeat constructor; simpl; tauto |].
  intros x Hx [E|[]]. subst x. now apply (Hnew u).
Qed.

Lemma save_to_sqlite_keeps (reports_data table : list row) (u : string) :
  In u (table_urls table) ->
  In u (table_urls (save_to_sqlite table reports_data)).
Proof.
  intros Hu. destruct (save_to_sqlite_grows reports_data table) as (added & -> & _).
  rewrite table_urls_app. apply in_or_app. now left.
Qed.

Lemma save_to_sqlite_stores (reports_data table : list row) (r : row) (u : string) :
  In r reports_data -> c_url r = Some u ->
  In u (table_urls (save_to_sqlite table reports_data)).
Proof.
  revert table. induction reports_data as [|x data IH]; intros table;
    [intros []|].
  intros [->|Hin] Hu.
  - change (save_to_sqlite table (r :: data))
      with (save_to_sqlite (insert_report table r) data).
    apply save_to_sqlite_keeps.
    destruct (insert_report_cases table r) as [[-> (v & Hv & Hin)]|[-> _]].
    + congruence.
    + rewrite table_urls_app. apply in_or_app. right.
      unfold table_urls. simpl. rewrite Hu. now left.
  - change (save_to_sqlite table (x :: data))
      with (save_to_sqlite (insert_report table x) data).
    now apply IH.
Qed.

(** Saving where every URL is taken adds the rows without URL only. *)
Lemma save_to_sqlite_taken (reports_data table : list row) :
  (forall r u, In r reports_data -> c_url r = Some u -> In u (table_urls table)) ->
  save_to_sqlite table reports_data
  = table ++ List.filter (fun r => bool_decide (c_url r = None)) reports_data.
Proof.
  unfold save_to_sqlite. revert table.
  induction reports_data as [|r data IH]; intros table Htaken; simpl.
  - now rewrite app_nil_r.
  - destruct (insert_report_cases table r) as [[-> (u & Hu & _)]|[-> Hnew]].
    + rewrite Hu. simpl. apply IH. intros x v Hx. apply Htaken. now right.
    + destruct (c_url r) as [u|] eqn:Hu.
      * exfalso. apply (Hnew u eq_refl). apply (Htaken r u); [now left | exact Hu].
      * simpl. rewrite IH, <- app_assoc; [reflexivity|].
        intros x v Hx Hv. rewrite table_urls_app. apply in_or_app. left.
        apply (Htaken x v); [now right | exact Hv].
Qed.

(** X11. [save_to_sqlite] keeps the rows the table has and adds reports of
    the batch at its end; it keeps the URLs of the table distinct, also
    when the batch repeats a URL; and afterwards every URL of the batch is
    in the table. *)
Theorem X11_save_to_sqlite_keeps_urls_unique
  (table reports_data : list row) :
  (exists added,
      save_to_sqlite table reports_data = table ++ added
      /\ (forall r, In r added -> In r reports_data))
  /\ (List.NoDup (table_urls table) ->
      List.NoDup (table_urls (save_to_sqlite table reports_data)))
  /\ (forall r u, In r reports_data -> c_url r = Some u ->
                  In u (table_urls (save_to_sqlite table reports_data))).
Proof.
  split; [apply save_to_sqlite_grows|].
  split; [apply save_to_sqlite_nodup | apply save_to_sqlite_stores].
Qed.

Lemma X11_save_to_sqlite_keeps_urls_unique_witness :
  List.NoDup
    (table_urls (save_to_sqlite [MoreSamples.row_05]
                   [MoreSamples.row_17; MoreSamples.row_05; MoreSamples.row_17])).
Proof.
  apply (proj1 (proj2 (X11_save_to_sqlite_keeps_urls_unique [MoreSamples.row_05]
                         [MoreSamples.row_17; MoreSamples.row_05;
                          MoreSamples.row_17]))).
  repeat constructor; simpl; tauto.
Defined.

(** X12. Saving the same batch to the database a second time adds nothing
    but the reports that have no URL: for a batch in which every report has
    a URL the second run leaves the table as the first left it. *)
Theorem X12_save_to_sqlite_again (table reports_data : list row) :
  save_to_sqlite (save_to_sqlite table reports_data) reports_data
  = save_to_sqlite table reports_data
    ++ List.filter (fun r => bool_decide (c_url r = None)) reports_data.
Proof.
  apply save_to_sqlite_taken. intros r u. apply save_to_sqlite_stores.
Qed.

(** *** The workbook *)









(** *** What a cell takes *)

#[local] Opaque max_length.













(** A cell that openpyxl refuses: the report with a vertical tab in its
    description gets no row, and no file is written; next to a column added
    by hand, the URLs are not found and the report is appended again. *)
Lemma save_to_excel_samples :
  save_to_excel None [MoreSamples.row_17; MoreSamples.row_vt] = None
  /\ save_to_excel (Some MoreSamples.sheet_17) [MoreSamples.row_vt] = None
  /\ save_to_excel (Some MoreSamples.sheet_wider) [MoreSamples.row_17]
     = Some (MoreSamples.sheet_wider
             ++ [map cut (cells MoreSamples.row_17)]).
Proof. split; [|split]; vm_compute; reflexivity. Qed.

End SinkFacts.

(** ** More on listing pages *)

Module ListingFacts.
Import Bs4 WebScraper Listing.
Local Open Scope list_scope.

(** The anchor [find_previous] returns has the prefix it was asked for. *)
Lemma find_previous_href (nm prefix : string) (prev : list node) (link_tag : node) :
  find_previous nm prefix prev = Some link_tag ->
  In link_tag prev
  /\ exists href, get link_tag "href" = Some href
                  /\ PyStr.startswith href prefix = true.
Proof.
  unfold find_previous. intros Hfind. apply find_some in Hfind as [Hin Hp].
  split; [exact Hin|]. apply andb_true_iff in Hp as [_ Hp].
  destruct (get link_tag "href") as [href|]; [eauto | discriminate].
Qed.

Lemma extract_step_listed (listing_html : Html) (reports : list report)
  (tt : node * list node) :
  In tt (select "time" "lp-filterable-list-item-date" (parsed listing_html)) ->
  (forall r, In r reports -> listed listing_html r) ->
  forall r, In r (extract_step reports tt) -> listed listing_html r.
Proof.
  intros Htt Hall. unfold extract_step. destruct tt as [time_tag prev].
  destruct (find_previous "a" "/publikationer/" prev) as [link_tag|] eqn:Hprev;
    [|exact Hall].
  apply find_previous_href in Hprev as (_ & href & Hhref & Hprefix).
  rewrite Hhref. destruct (String.eqb href ""); [exact Hall|].
  destruct (Nat.ltb 2 _); [|exact Hall].
  destruct (bool_decide _) eqn:Hcat; [|exact Hall].
  apply bool_decide_eq_true in Hcat.
  assert (Hhttp : PyStr.startswith href "http" = false).
  { apply ScraperFacts.startswith_spec in Hprefix as [post ->]. reflexivity. }
  rewrite Hhttp. destruct (negb _); [|exact Hall].
  intros r [Hr|[<-|[]]]%in_app_or; [now apply Hall|].
  exists href, time_tag, prev. simpl. auto.
Qed.

Lemma fold_extract_step_listed (listing_html : Html)
  (tts : list (node * list node)) (reports : list report) :
  (forall tt, In tt tts ->
     In tt (select "time" "lp-filterable-list-item-date" (parsed listing_html))) ->
  (forall r, In r reports -> listed listing_html r) ->
  forall r, In r (fold_left extract_step tts reports) -> listed listing_html r.
Proof.
  revert reports. induction tts as [|tt tts IH]; intros reports Htts Hall; simpl;
    [exact Hall|].
  apply IH.
  - intros x Hx. apply Htts. now right.
  - apply extract_step_listed; [apply Htts; now left | exact Hall].
Qed.

Lemma fold_extract_step_length (tts : list (node * list node))
  (reports : list report) :
  List.length (fold_left extract_step tts reports)
  <= List.length reports + List.length tts.
Proof.
  revert reports. induction tts as [|tt tts IH]; intros reports; simpl; [lia|].
  specialize (IH (extract_step reports tt)).
  destruct (ScraperFacts.extract_step_appends reports tt) as [E|(r & E & _)];
    rewrite E in *; [lia|]. rewrite length_app in IH. simpl in IH. lia.
Qed.

(** X15. Every entry [extract_report_links] returns has a URL on
    [https://www.tillvaxtanalys.se] with a path that starts with
    [/publikationer/] and continues with one of the categories [rapport],
    [pm], [statistik], [wp] (in any case), and has the stripped text of a
    time tag of the page as its date; there are no more entries than time
    tags. *)
Theorem X15_extract_report_links_entries_are_listed (listing_html : Html) :
  (forall r, In r (extract_report_links listing_html) ->
     exists href time_tag prev,
       url r = ("https://www.tillvaxtanalys.se" ++ href)%string
       /\ PyStr.startswith href "/publikationer/" = true
       /\ PyStr.lower (nth 2 (PyStr.split "/" href) "")
          ∈ ["rapport"; "pm"; "statistik"; "wp"]
       /\ In (time_tag, prev)
            (select "time" "lp-filterable-list-item-date" (parsed listing_html))
       /\ date r = get_text_strip time_tag)
  /\ List.length (extract_report_links listing_html)
     <= List.length (select "time" "lp-filterable-list-item-date"
                       (parsed listing_html)).
Proof.
  split.
  - unfold extract_report_links.
    apply (fold_extract_step_listed listing_html); [auto | intros r []].
  - unfold extract_report_links.
    apply (fold_extract_step_length _ []).
Qed.

Lemma X15_extract_report_links_entries_are_listed_witness :
  exists href time_tag prev,
    "https://www.tillvaxtanalys.se/publikationer/pm/2023-05"%string
    = ("https://www.tillvaxtanalys.se" ++ href)%string
    /\ PyStr.startswith href "/publikationer/" = true
    /\ PyStr.lower (nth 2 (PyStr.split "/" href) "")
       ∈ ["rapport"; "pm"; "statistik"; "wp"]
    /\ In (time_tag, prev)
         (select "time" "lp-filterable-list-item-date" (parsed Samples.page_b))
    /\ "3 mars 2023"%string = get_text_strip time_tag.
Proof.
  apply (proj1 (X15_extract_report_links_entries_are_listed Samples.page_b)
           MoreSamples.entry_05).
  vm_compute. left. reflexivity.
Defined.

(** X16. Different page numbers have different URLs: [paginated_url] never
    gives the URL of one listing page for another. *)
Theorem X16_paginated_url_injective (listing_url : string) (m n : nat) :
  m <> n -> paginated_url listing_url m <> paginated_url listing_url n.
Proof.
  intros Hmn Heq. apply Hmn. revert Heq.
  assert (Hlonger : forall k,
            listing_url
            <> (listing_url
                ++ "&svAjaxReqParam=ajax&page12_706c70df1932999ea346c0a="
                ++ NilEmpty.string_of_uint (Nat.to_uint k))%string).
  { intros k E. apply (f_equal String.length) in E.
    rewrite !length_append in E. simpl in E. lia. }
  unfold paginated_url.
  destruct (Nat.eqb_spec m 1) as [->|Hm]; destruct (Nat.eqb_spec n 1) as [->|Hn].
  - reflexivity.
  - intros E. now apply Hlonger in E.
  - intros E. symmetry in E. now apply Hlonger in E.
  - intros E. do 2 apply String.app_inj in E.
    apply DecimalNat.Unsigned.to_uint_inj.
    assert (Hu : NilEmpty.uint_of_string (NilEmpty.string_of_uint (Nat.to_uint m))
                 = NilEmpty.uint_of_string (NilEmpty.string_of_uint (Nat.to_uint n)))
      by now rewrite E.
    rewrite !NilEmpty.usu in Hu. now injection Hu.
Qed.

Lemma X16_paginated_url_injective_witness :
  paginated_url Samples.listing 2 <> paginated_url Samples.listing 12.
Proof.
  apply (X16_paginated_url_injective Samples.listing 2 12). lia.
Defined.

Section Pages.

Variable get_html : string -> loaded.
Variable listing_url : string.

(** The pages the loop appends are the pages of consecutive numbers from
    [current_page] on, each valid and long enough, and each but the last
    has entries. *)
Lemma listing_loop_pages (fuel current_page : nat) (acc htmls : list Html) :
  listing_loop get_html listing_url fuel current_page acc = Some (Return htmls) ->
  exists more,
    htmls = acc ++ more
    /\ List.length more <= fuel
    /\ forall i html, nth_error more i = Some html ->
         get_html (paginated_url listing_url (current_page + i)) = Content html
         /\ is_valid_listing_page html = true
         /\ 1000 <= len html
         /\ (S i < List.length more -> extract_report_links html <> []).
Proof.
  revert current_page acc. induction fuel as [|fuel IH]; intros cp acc; simpl;
    [discriminate|].
  destruct (get_html (paginated_url listing_url cp)) as [html|] eqn:Hget;
    [|discriminate].
  destruct (is_valid_listing_page html) eqn:Hvalid; simpl.
  2:{ intros [= <-]. exists []. rewrite app_nil_r. simpl.
      split; [reflexivity|]. split; [lia|]. intros [|i] h; discriminate. }
  destruct (Nat.ltb_spec (len html) 1000) as [Hlen|Hlen].
  { intros [= <-]. exists []. rewrite app_nil_r. simpl.
    split; [reflexivity|]. split; [lia|]. intros [|i] h; discriminate. }
  assert (Hhere : forall more,
            (1 < List.length (html :: more) -> extract_report_links html <> []) ->
            (forall i h, nth_error more i = Some h ->
               get_html (paginated_url listing_url (cp + 1 + i)) = Content h
               /\ is_valid_listing_page h = true /\ 1000 <= len h
               /\ (S i < List.length more -> extract_report_links h <> [])) ->
            forall i h, nth_error (html :: more) i = Some h ->
              get_html (paginated_url listing_url (cp + i)) = Content h
              /\ is_valid_listing_page h = true /\ 1000 <= len h
              /\ (S i < List.length (html :: more) -> extract_report_links h <> [])).
  { intros more Hfirst Hmore [|i] h; simpl.
    - intros [= <-]. rewrite Nat.add_0_r. auto.
    - intros Hi. destruct (Hmore i h Hi) as (H1 & H2 & H3 & H4).
      replace (cp + S i) with (cp + 1 + i) by lia.
      repeat split; auto. intros Hlt. apply H4. lia. }
  destruct (Nat.ltb_spec (List.length (extract_report_links html)) 1) as [Hnone|Hsome].
  - intros [= <-]. exists [html]. split; [reflexivity|]. split; [simpl; lia|].
    apply (Hhere []); [simpl; lia | intros [|i] h; discriminate].
  - intros Hrun. apply IH in Hrun as (more & -> & Hfuel & Hmore).
    exists (html :: more). rewrite <- app_assoc. split; [reflexivity|].
    split; [simpl; lia|]. apply Hhere; [|exact Hmore].
    intros _ E. rewrite E in Hsome. simpl in Hsome. lia.
Qed.

End Pages.

(** X17. The pages [fetch_listing_pages] returns are the listing pages
    1, 2, ..., n without a gap, as the renderer gave them; each has the
    marker heading and at least 1000 characters, and each but the last has
    at least one entry. *)
Theorem X17_fetch_listing_pages_returns_consecutive_valid_pages
  (get_html : string -> loaded) (listing_url : string) (fuel : nat)
  (listing_htmls : list Html) :
  fetch_listing_pages get_html listing_url fuel = Some (Return listing_htmls) ->
  forall i html, nth_error listing_htmls i = Some html ->
    get_html (paginated_url listing_url (1 + i)) = Content html
    /\ is_valid_listing_page html = true
    /\ 1000 <= len html
    /\ (S i < List.length listing_htmls -> extract_report_links html <> []).
Proof.
  unfold fetch_listing_pages. intros Hrun.
  apply listing_loop_pages in Hrun as (more & -> & _ & Hmore). exact Hmore.
Qed.

Lemma X17_fetch_listing_pages_returns_consecutive_valid_pages_witness :
  Samples.site (paginated_url Samples.listing (1 + 0)) = Content Samples.page_a
  /\ is_valid_listing_page Samples.page_a = true
  /\ 1000 <= len Samples.page_a
  /\ (1 < List.length [Samples.page_a; Samples.page_b] ->
      extract_report_links Samples.page_a <> []).
Proof.
  apply (X17_fetch_listing_pages_returns_consecutive_valid_pages
           Samples.site Samples.listing 3 [Samples.page_a; Samples.page_b]
           eq_refl 0 Samples.page_a).
  reflexivity.
Defined.

End ListingFacts.

(** ** More on the label scanner *)

Module LabelValueFacts.
Import WebScraper LabelFacts.

Lemma skip_colons_value (rest : list string) (v : string) :
  forallb nonblank rest = true -> skip_colons rest = Some v ->
  v <> "" /\ v <> ":" /\ PyStr.strip v = v.
Proof.
  induction rest as [|t rest IH]; simpl; [discriminate|].
  intros [Ht Hrest]%andb_true_iff.
  destruct (String.eqb_spec (PyStr.strip t) ":") as [_|Hcolon]; [now apply IH|].
  intros [= <-]. unfold nonblank in Ht.
  apply negb_true_iff, String.eqb_neq in Ht.
  split; [exact Ht|]. split; [exact Hcolon | apply strip_idempotent].
Qed.

Lemma find_label_value_tokens_value (tokens : list string) (label_base v : string) :
  forallb nonblank tokens = true ->
  find_label_value_tokens tokens label_base = Some v ->
  v <> "" /\ v <> ":" /\ PyStr.strip v = v.
Proof.
  induction tokens as [|s tokens IH]; simpl; [discriminate|].
  intros [Hs Htokens]%andb_true_iff.
  destruct (String.eqb _ (PyStr.lower label_base));
    [now apply skip_colons_value|].
  destruct (PyStr.startswith _ _); [|now apply IH].
  destruct (String.eqb_spec
              (PyStr.strip (PyStr.drop (String.length label_base + 1)
                              (PyStr.strip s))) "") as [_|Hne]; simpl;
    [now apply skip_colons_value|].
  destruct (String.eqb_spec
              (PyStr.strip (PyStr.drop (String.length label_base + 1)
                              (PyStr.strip s))) ":") as [_|Hcolon]; simpl;
    [now apply skip_colons_value|].
  intros [= <-]. split; [exact Hne|]. split; [exact Hcolon | apply strip_idempotent].
Qed.

(** X18. Whatever the document and the label, a value [_find_label_value]
    returns is never empty and never a bare colon, and has no white space
    around it; so the fields [serienummer] and [diarienummer] of
    [parse_report] are absent or hold such a value. *)
Theorem X18_find_label_value_never_blank
  (soup : Bs4.soup) (label_base v : string) :
  _find_label_value soup label_base = Some v ->
  v <> "" /\ v <> ":" /\ PyStr.strip v = v.
Proof.
  unfold _find_label_value.
  apply find_label_value_tokens_value, stripped_strings_nonblank.
Qed.

Lemma X18_find_label_value_never_blank_witness :
  "2021/68" <> "" /\ "2021/68" <> ":" /\ PyStr.strip "2021/68" = "2021/68".
Proof.
  apply (X18_find_label_value_never_blank
           (parsed MoreSamples.report_page) "Diarienummer" "2021/68").
  reflexivity.
Defined.

(** X19. When the first token that the scan stops at starts with the label
    and a colon without being the label itself, the text that follows the
    colon on that token, stripped, is the value, unless it is empty or a
    bare colon: then the value is the next token that is neither a bare
    colon nor blank, as for a label that stands alone. *)
Theorem X19_find_label_value_label_with_colon
  (soup : Bs4.soup) (label_base : string) (pre : list string) (t : string)
  (after : list string) :
  Bs4.stripped_strings soup = (pre ++ t :: after)%list ->
  existsb (label_hit label_base) pre = false ->
  PyStr.lower t <> PyStr.lower label_base ->
  PyStr.startswith (PyStr.lower t) (PyStr.lower label_base ++ ":") = true ->
  let same_token :=
    PyStr.strip (PyStr.drop (String.length label_base + 1) t) in
  _find_label_value soup label_base
  = if negb (String.eqb same_token "") && negb (String.eqb same_token ":")
    then Some same_token
    else next_value after.
Proof.
  intros Htokens Hpre Hne Hprefix same_token. unfold _find_label_value.
  destruct (stripped_strings_nonblank soup) as [Hnb Hstripped].
  rewrite Htokens in Hnb, Hstripped |- *.
  rewrite forallb_app in Hnb. apply andb_true_iff in Hnb as [_ Hnb].
  simpl in Hnb. apply andb_true_iff in Hnb as [_ Hafter].
  apply Forall_app in Hstripped as [_ Hstripped].
  apply Forall_cons in Hstripped as [Hstrip _].
  rewrite find_label_value_skip by exact Hpre.
  simpl. rewrite Hstrip.
  apply String.eqb_neq in Hne. rewrite Hne, Hprefix. fold same_token.
  destruct (negb (String.eqb same_token "") && negb (String.eqb same_token ":"));
    [reflexivity | now apply skip_colons_next_value].
Qed.

Lemma X19_find_label_value_label_with_colon_witness :
  _find_label_value (parsed MoreSamples.report_page) "Serienummer"
  = Some "Rapport 2024:17".
Proof.
  apply (X19_find_label_value_label_with_colon (parsed MoreSamples.report_page)
           "Serienummer" ["Kompetens 2024"] "Serienummer: Rapport 2024:17"
           ["Diarienummer"; ":"; "2021/68"]).
  - reflexivity.
  - reflexivity.
  - discriminate.
  - reflexivity.
Defined.

End LabelValueFacts.

(** ** The sitemap files *)

Module SitemapFacts.
Import TrafaSitemap.
Local Open Scope list_scope.

Lemma sanitize_filename_length (name : string) :
  String.length (sanitize_filename name) = String.length name.
Proof. induction name as [|c r IH]; simpl; [reflexivity | now rewrite IH]. Qed.

Lemma underscore_allowed : is_forbidden "_" = false.
Proof. reflexivity. Qed.

Lemma sanitize_filename_clean (name : string) :
  PyStr.all_chars (fun c => negb (is_forbidden c)) (sanitize_filename name)
  = true.
Proof.
  unfold PyStr.all_chars. induction name as [|c r IH]; simpl; [reflexivity|].
  rewrite IH, andb_true_r.
  destruct (is_forbidden c) eqn:Hc; [reflexivity | now rewrite Hc].
Qed.

Lemma sanitize_filename_get (name : string) (i : nat) :
  String.get i (sanitize_filename name)
  = option_map (fun c => if is_forbidden c then "_"%char else c)
      (String.get i name).
Proof.
  revert i. induction name as [|c r IH]; intros i; simpl; [reflexivity|].
  destruct i as [|i]; [reflexivity | apply IH].
Qed.

Lemma sanitize_filename_fixed (name : string) :
  PyStr.all_chars (fun c => negb (is_forbidden c)) name = true ->
  sanitize_filename name = name.
Proof.
  unfold PyStr.all_chars. induction name as [|c r IH]; simpl; [reflexivity|].
  intros [Hc Hr]%andb_true_iff. apply negb_true_iff in Hc.
  rewrite Hc. f_equal. now apply IH.
Qed.

(** X21. [sanitize_filename] of the sitemap script changes a name
    character by character: the result is as long as the name, a character
    of the class (backslash, slash, star, question mark, colon, double
    quote, angle brackets, bar) becomes an underscore and every other
    character stays where it is; no character of the class is left, and
    sanitizing again changes nothing.  A space and a non-ASCII character
    stay, unlike in the crawler's function of the same name. *)
Theorem X21_sitemap_sanitize_filename_replaces_in_place (name : string) :
  String.length (sanitize_filename name) = String.length name
  /\ (forall i, String.get i (sanitize_filename name)
                = option_map (fun c => if is_forbidden c then "_"%char else c)
                    (String.get i name))
  /\ PyStr.all_chars (fun c => negb (is_forbidden c)) (sanitize_filename name)
     = true
  /\ sanitize_filename (sanitize_filename name) = sanitize_filename name
  /\ sanitize_filename "a b/c:d.pdf" = "a b_c_d.pdf".
Proof.
  split; [apply sanitize_filename_length|].
  split; [apply sanitize_filename_get|].
  split; [apply sanitize_filename_clean|].
  split; [apply sanitize_filename_fixed, sanitize_filename_clean | reflexivity].
Qed.

Lemma file_type_relevant (file_url : string) :
  file_type file_url <> "other" <->
  PyPath.endswith (PyStr.lower file_url) ".pdf"
  || PyPath.endswith (PyStr.lower file_url) ".xlsx" = true.
Proof.
  unfold file_type.
  destruct (PyPath.endswith (PyStr.lower file_url) ".pdf");
    [simpl; split; [reflexivity | discriminate]|].
  destruct (PyPath.endswith (PyStr.lower file_url) ".xlsx"); simpl;
    split; try reflexivity; try discriminate. intros H. now destruct H.
Qed.

(** X22. The pages that [main] goes through are the pages of the sitemap
    whose lower-cased URL ends in [.pdf] or [.xlsx], in the order of the
    sitemap; each of them gets the file type [pdf] or [xlsx], so the
    [else] branch of [main], with the type [other], is never taken; and
    filtering the filtered pages again keeps all of them. *)
Theorem X22_sitemap_file_type_never_other (all_pages : list page) :
  (forall t, In t (main_file_types all_pages) -> t = "pdf" \/ t = "xlsx")
  /\ (forall p, In p (filter_relevant_pages all_pages) <->
                In p all_pages /\ file_type (url p) <> "other")
  /\ filter_relevant_pages (filter_relevant_pages all_pages)
     = filter_relevant_pages all_pages
  /\ (forall more, filter_relevant_pages (all_pages ++ more)
                   = filter_relevant_pages all_pages
                     ++ filter_relevant_pages more).
Proof.
  split; [|split; [|split]].
  - intros t Hin. unfold main_file_types in Hin.
    apply in_map_iff in Hin as (p & <- & Hp).
    apply filter_In in Hp as [_ Hp]. cbv zeta in Hp. unfold file_type.
    destruct (PyPath.endswith (PyStr.lower (url p)) ".pdf"); [now left|].
    simpl in Hp. rewrite Hp. now right.
  - intros p. unfold filter_relevant_pages. rewrite filter_In.
    split; intros [Hin Hp]; (split; [exact Hin|]).
    + apply file_type_relevant. exact Hp.
    + apply file_type_relevant in Hp. exact Hp.
  - unfold filter_relevant_pages.
    induction all_pages as [|p l IH]; simpl; [reflexivity|].
    destruct (PyPath.endswith (PyStr.lower (url p)) ".pdf"
              || PyPath.endswith (PyStr.lower (url p)) ".xlsx") eqn:E; simpl.
    + rewrite E. simpl. f_equal. exact IH.
    + exact IH.
  - intros more. apply List.filter_app.
Qed.

Lemma X22_sitemap_file_type_never_other_witness :
  In {| url := "https://www.trafa.se/globalassets/Rapport-2019.PDF";
        lastmod := None |}
    (filter_relevant_pages
       [ {| url := "https://www.trafa.se/vagtrafik/"; lastmod := None |};
         {| url := "https://www.trafa.se/globalassets/Rapport-2019.PDF";
            lastmod := None |};
         {| url := "https://www.trafa.se/globalassets/fordon.xlsx";
            lastmod := Some "2020-02-14" |} ]).
Proof.
  apply (proj1 (proj2 (X22_sitemap_file_type_never_other _))).
  split; [right; left; reflexivity|].
  vm_compute. intros H. discriminate H.
Defined.

End SitemapFacts.
